(** * Authentication and session core of the Banno Cloudflare plugin

    A shallow embedding of [kv.service.ts], [auth.service.ts],
    [session.service.ts], [utils/auth.ts], [utils/crypto.ts] and the routes
    [/auth/login], [/logout] and [/callback], with the properties of the
    specification stated and settled against it, and further properties of
    the code.

    Conventions of the embedding.
    - A JavaScript string is a [string] holding its UTF-8 bytes, so that
      [TextEncoder.encode] and [TextDecoder.decode] are the two conversions
      between [string] and [list byte].  A binary buffer ([Uint8Array],
      [ArrayBuffer]) is a [list byte].
    - A JavaScript number that the code computes with is an integer of [Z],
      standing for the double of that value: the embedding is that of the
      program for integers of magnitude below 2^53, which times and
      lifetimes are.  Where the code can produce [NaN] (an absent factor in
      a product) the type [jsnum] keeps that case.
    - An [async] function is a computation in the monad [M]: it reads and
      writes the world (key-value namespace, clock, random tape, upstream
      requests) and the object [this], and either returns or throws. *)

From Stdlib Require Import ZArith NArith Lia ZifyNat List Bool.
From Stdlib Require Import Strings.Ascii Strings.String Strings.Byte.
From Stdlib Require Import DecimalString.
From stdpp Require Import base option list gmap strings.

Import ListNotations.
Local Open Scope string_scope.
Local Open Scope list_scope.
Local Open Scope Z_scope.

(** ** Lists of characters *)

Module Chars.

(** [s.split(c)]: the pieces of [s] between the occurrences of [c]; there
    is always at least one piece. *)
Fixpoint split (c : ascii) (s : list ascii) : list (list ascii) :=
  match s with
  | [] => [[]]
  | x :: xs =>
      if Ascii.eqb x c then [] :: split c xs
      else match split c xs with
           | h :: t => (x :: h) :: t
           | [] => [[x]]
           end
  end.

(** [s.replace(/=+$/, '')]: drop every trailing [c]. *)
Fixpoint drop_leading (c : ascii) (l : list ascii) : list ascii :=
  match l with
  | x :: xs => if Ascii.eqb x c then drop_leading c xs else l
  | [] => []
  end.

Definition strip_trailing (c : ascii) (s : list ascii) : list ascii :=
  rev (drop_leading c (rev s)).

End Chars.

(** ** Base64: the built-ins [btoa] and [atob]

    [btoa] is RFC 4648 base64 with padding; [atob] is the forgiving decoder
    of the platform: it skips ASCII whitespace, accepts the padding or its
    absence, and throws on any other character. *)

Module Base64.
Local Open Scope N_scope.

Ltac div_lia := zify; Z.to_euclidean_division_equations; lia.

Definition alphabet : list ascii :=
  list_ascii_of_string
    "ABCDEFGHIJKLMNOPQRSTUVWXYZabcdefghijklmnopqrstuvwxyz0123456789+/".

Definition pad : ascii := "="%char.

Definition char_of (n : N) : ascii := nth (N.to_nat n) alphabet pad.

Definition value_of (c : ascii) : option N :=
  let n := N_of_ascii c in
  if (65 <=? n) && (n <=? 90) then Some (n - 65)
  else if (97 <=? n) && (n <=? 122) then Some (n - 71)
  else if (48 <=? n) && (n <=? 57) then Some (n + 4)
  else if n =? 43 then Some 62
  else if n =? 47 then Some 63
  else None.

Definition is_whitespace (c : ascii) : bool :=
  let n := N_of_ascii c in
  (n =? 9) || (n =? 10) || (n =? 12) || (n =? 13) || (n =? 32).

Definition byte_of (n : N) : byte := default "000"%byte (Byte.of_N n).

(** The six-bit groups of a buffer, most significant first; a last group
    of one or two bytes is filled with zero bits. *)
Fixpoint sextets (bs : list byte) : list N :=
  match bs with
  | [] => []
  | [b0] =>
      let n0 := Byte.to_N b0 in
      [n0 / 4; (n0 mod 4) * 16]
  | [b0; b1] =>
      let n0 := Byte.to_N b0 in
      let n1 := Byte.to_N b1 in
      [n0 / 4; (n0 mod 4) * 16 + n1 / 16; (n1 mod 16) * 4]
  | b0 :: b1 :: b2 :: rest =>
      let n0 := Byte.to_N b0 in
      let n1 := Byte.to_N b1 in
      let n2 := Byte.to_N b2 in
      n0 / 4 :: (n0 mod 4) * 16 + n1 / 16 :: (n1 mod 16) * 4 + n2 / 64
        :: n2 mod 64 :: sextets rest
  end.

Definition padding (bs : list byte) : list ascii :=
  match (length bs mod 3)%nat with
  | O => []
  | 1%nat => [pad; pad]
  | _ => [pad]
  end.

Definition encode (bs : list byte) : list ascii :=
  map char_of (sextets bs) ++ padding bs.

Definition btoa (bs : list byte) : string :=
  string_of_list_ascii (encode bs).

(** Bytes of a run of six-bit groups; the bits left over are dropped. *)
Fixpoint unsextets (vs : list N) : list byte :=
  match vs with
  | s0 :: s1 :: s2 :: s3 :: rest =>
      byte_of (s0 * 4 + s1 / 16) :: byte_of ((s1 mod 16) * 16 + s2 / 4)
        :: byte_of ((s2 mod 4) * 64 + s3) :: unsextets rest
  | [s0; s1; s2] =>
      [byte_of (s0 * 4 + s1 / 16); byte_of ((s1 mod 16) * 16 + s2 / 4)]
  | [s0; s1] => [byte_of (s0 * 4 + s1 / 16)]
  | _ => []
  end.

Definition strip_padding (cs : list ascii) : list ascii :=
  match rev cs with
  | c1 :: c2 :: r =>
      if Ascii.eqb c1 pad then
        if Ascii.eqb c2 pad then rev r else rev (c2 :: r)
      else cs
  | [c1] => if Ascii.eqb c1 pad then [] else cs
  | [] => cs
  end.

Definition decode (cs : list ascii) : option (list byte) :=
  let cs1 := List.filter (λ c, negb (is_whitespace c)) cs in
  let cs2 := if (length cs1 mod 4 =? 0)%nat then strip_padding cs1 else cs1 in
  if (length cs2 mod 4 =? 1)%nat then None
  else unsextets <$> mapM value_of cs2.

(** [atob] throws on a malformed text: [None]. *)
Definition atob (s : string) : option (list byte) :=
  decode (list_ascii_of_string s).

End Base64.

(** ** JavaScript values *)

Module JS.

(** A number that is an integer, or [NaN].  The numbers of the program are
    doubles: an integer stands for the double of the same value, and the
    arithmetic below, done on integers, is the arithmetic of the program
    as long as the operands and the results are integers of magnitude
    below 2^53 ([safe_integer]); beyond that the program rounds.  Times
    and lifetimes are such integers. *)
Inductive jsnum := Num (z : Z) | NaN.

(** [Number.isSafeInteger]: the integers that doubles hold exactly. *)
Definition safe_integer (z : Z) : Prop := - 2 ^ 53 < z < 2 ^ 53.

(** A numeric property of an object read back from JSON: the property is
    missing ([undefined]), holds [null], or holds a number. *)
Inductive jsfield := Undefined | Null | Number (z : Z).

(** [Math.floor(x / d)] for a positive integer [d]; exact for a safe
    integer [x] and the divisor 1000 of the program. *)
Definition floor_div (x : jsnum) (d : Z) : jsnum :=
  match x with Num z => Num (z / d) | NaN => NaN end.

(** [x * k] for a property [x]: [undefined * k] is [NaN], [null * k] is 0;
    exact when the product is a safe integer. *)
Definition field_times (x : jsfield) (k : Z) : jsnum :=
  match x with
  | Undefined => NaN
  | Null => Num 0
  | Number z => Num (z * k)
  end.

(** What [JSON.stringify] followed by [JSON.parse] leaves of a number:
    [NaN] is written as [null]. *)
Definition to_field (x : jsnum) : jsfield :=
  match x with Num z => Number z | NaN => Null end.

(** Truthiness, as [if (x)], [!x], [x && y] and [x || y] test it. *)
Definition truthy_string (s : string) : bool := negb (String.eqb s EmptyString).

Definition truthy_opt (o : option string) : bool :=
  match o with Some s => truthy_string s | None => false end.

Definition truthy_field (x : jsfield) : bool :=
  match x with Number z => negb (z =? 0) | _ => false end.

(** [x < n] for a truthy property [x] and a number [n]. *)
Definition field_lt (x : jsfield) (n : Z) : bool :=
  match x with
  | Number z => z <? n
  | Null => 0 <? n
  | Undefined => false
  end.

(** [a || b] on optional strings and on optional numbers. *)
Definition or_string (a : option string) (b : option string) : option string :=
  if truthy_opt a then a else b.

Definition or_number (a : option Z) (b : Z) : Z :=
  match a with
  | Some z => if z =? 0 then b else z
  | None => b
  end.

(** A template literal or [+] with an optional string: [undefined] prints
    as the word. *)
Definition to_string (o : option string) : string :=
  match o with Some s => s | None => "undefined" end.

(** [JSON.stringify] and [JSON.parse] at a type [T].  [JSON_parse] gives
    [None] when the text is not JSON (a [SyntaxError] is thrown),
    [Some None] when it is the text [null], and [Some (Some v)] for a
    value.  What a text that is JSON of another shape parses to is left to
    the instance: TypeScript's [as T] checks nothing. *)
Class JSON (T : Type) := {
  JSON_stringify : T → string;
  JSON_parse : string → option (option T)
}.

(** The value [v] survives serialisation. *)
Definition json_ok {T} `{JSON T} (v : T) : Prop :=
  JSON_parse (JSON_stringify v) = Some (Some v).

(** [TextEncoder.encode] and [TextDecoder.decode]. *)
Definition TextEncoder_encode (s : string) : list byte := list_byte_of_string s.
Definition TextDecoder_decode (bs : list byte) : string := string_of_list_byte bs.

(** The byte lies between [lo] and [hi]. *)
Definition between (lo hi : N) (b : byte) : bool :=
  ((lo <=? Byte.to_N b) && (Byte.to_N b <=? hi))%N.

(** The bytes are the UTF-8 encoding of a sequence of code points: no
    stray or missing continuation byte, no overlong form, no surrogate,
    nothing above U+10FFFF.  [decodeURIComponent] throws a [URIError] on
    escapes that are not. *)
Fixpoint utf8_valid (bs : list byte) : bool :=
  match bs with
  | [] => true
  | b0 :: r0 =>
      if between 0 127 b0 then utf8_valid r0
      else
        match r0 with
        | [] => false
        | b1 :: r1 =>
            if between 194 223 b0 then between 128 191 b1 && utf8_valid r1
            else
              match r1 with
              | [] => false
              | b2 :: r2 =>
                  if between 224 239 b0 then
                    (if between 224 224 b0 then between 160 191 b1
                     else if between 237 237 b0 then between 128 159 b1
                     else between 128 191 b1)
                    && between 128 191 b2 && utf8_valid r2
                  else
                    match r2 with
                    | [] => false
                    | b3 :: r3 =>
                        between 240 244 b0
                        && (if between 240 240 b0 then between 144 191 b1
                            else if between 244 244 b0 then between 128 143 b1
                            else between 128 191 b1)
                        && between 128 191 b2 && between 128 191 b3
                        && utf8_valid r3
                    end
              end
        end
  end.

End JS.

(** ** Data model *)

Module Data.
Import JS.

(** [SessionData]: what the callers of the session service hand over and
    get back; [expiresAt] is in milliseconds. *)
Record SessionData := {
  userId : string;
  accessToken : string;
  refreshToken : option string;
  expiresAt : jsnum
}.

(** The record persisted under [session:<id>]; [expiresAt] is in seconds. *)
Record StoredSession := {
  s_userId : string;
  s_accessToken : string;
  s_refreshToken : option string;
  s_expiresAt : jsfield
}.

(** The value persisted under [auth_state:<state>]. *)
Record AuthState := { codeVerifier : string }.

Record IdTokenPayload := { sub : string }.

(** [TokenResponse]; the provider may leave out [refresh_token] and
    [expires_in]. *)
Record TokenResponse := {
  access_token : string;
  id_token : string;
  refresh_token : option string;
  expires_in : option Z;
  token_type : string
}.

Record AuthInitResult := {
  url : string;
  ar_codeVerifier : string;
  ar_state : string
}.

(** The one key-value namespace of the deployment. *)
Inductive KVNamespace := SESSIONS_KV_namespace.

(** [CloudflareBindings]. *)
Record Bindings := {
  CLIENT_ID : string;
  CLIENT_SECRET : string;
  REDIRECT_URI : string;
  ENV_URI : string;
  SESSION_ENC_SECRET : option string;
  SESSIONS_KV : option KVNamespace
}.

(** The part of a Hono context the core reads. *)
Record Context := {
  query_code : option string;
  query_error : option string;
  query_error_description : option string;
  query_state : option string;
  env : Bindings
}.

(** A [fetch] to the token endpoint: a POST of form fields. *)
Record Request := {
  req_url : string;
  req_form : list (string * string)
}.

Inductive Reply :=
| NetworkError (message : string)
| Response (ok : bool) (status statusText text : string)
           (json : option TokenResponse).

Record Cookie := {
  cookie_name : string;
  cookie_value : string;
  cookie_secret : string;
  cookie_maxAge : Z
}.

Inductive HttpResult :=
| Redirect (location : string)
| Text (body : string) (status : Z).

Definition CryptoKey := list byte.

End Data.

(** ** The world an operation runs in *)

Module World.
Import JS Data.

(** Modelled from the spec: the key-value backend is an external
    collaborator, [get(key) -> string|null], [put(key, value, expiration)],
    [delete(key)], whose entries expire.  An entry holds its text and the
    absolute time, in seconds, at which it stops being readable. *)
Record KVEntry := {
  kv_value : string;
  kv_expiration : option Z
}.

Record World := {
  store : gmap string KVEntry;   (* the namespace *)
  clock : Z;                     (* [Date.now()], milliseconds *)
  drawn : nat;                   (* random bytes consumed so far *)
  requests : list Request;       (* token-endpoint requests, oldest first *)
  cookies : list Cookie          (* cookies set on the response *)
}.

Definition set_store (f : gmap string KVEntry → gmap string KVEntry) (w : World) :=
  {| store := f (store w); clock := clock w; drawn := drawn w;
     requests := requests w; cookies := cookies w |}.

Definition set_clock (t : Z) (w : World) :=
  {| store := store w; clock := t; drawn := drawn w;
     requests := requests w; cookies := cookies w |}.

Definition set_drawn (n : nat) (w : World) :=
  {| store := store w; clock := clock w; drawn := n;
     requests := requests w; cookies := cookies w |}.

Definition add_request (r : Request) (w : World) :=
  {| store := store w; clock := clock w; drawn := drawn w;
     requests := requests w ++ [r]; cookies := cookies w |}.

Definition add_cookie (c : Cookie) (w : World) :=
  {| store := store w; clock := clock w; drawn := drawn w;
     requests := requests w; cookies := cookies w ++ [c] |}.

(** The entry is readable at time [t] (milliseconds). *)
Definition live (e : KVEntry) (t : Z) : bool :=
  match kv_expiration e with
  | Some x => t / 1000 <? x
  | None => true
  end.

(** What the namespace answers for [key] at the world's time. *)
Definition read (w : World) (key : string) : option string :=
  match store w !! key with
  | Some e => if live e (clock w) then Some (kv_value e) else None
  | None => None
  end.

(** What the platform supplies: cryptography, randomness, the identity
    provider's token endpoint, the JSON codec at the types stored, and
    the message of an error that the engine raises, not the program
    ([runtime_message name value], for the error of that name raised on
    that value): its text is the engine's. *)
Class Platform := {
  SHA256 : list byte → list byte;
  AES_GCM_encrypt : CryptoKey → list byte → list byte → list byte;
  AES_GCM_decrypt : CryptoKey → list byte → list byte → option (list byte);
  random_byte : nat → byte;
  uuid_of : list byte → string;
  token_endpoint : list Request → Request → Reply;
  runtime_message : string → string → string;
  JSON_session :: JSON StoredSession;
  JSON_string :: JSON string;
  JSON_auth_state :: JSON AuthState;
  JSON_id_token :: JSON IdTokenPayload
}.

(** AES-GCM decrypts, under the same key and iv, what it encrypted. *)
Definition AEAD_correct `{Platform} : Prop :=
  ∀ k iv m, AES_GCM_decrypt k iv (AES_GCM_encrypt k iv m) = Some m.

End World.

(** ** Computations: state of [this], state of the world, exceptions *)

Module Monad.
Import Data World.

(** How a call ends.  [Throw] carries the message of the error: the text
    that the program gives its own errors, the engine's text
    ([runtime_message]) for a runtime error that can reach a caller who
    prints it, and the name of the error where the program catches it
    and does not look at it. *)
Inductive Outcome (A : Type) :=
| Return (a : A)
| Throw (message : string).
Arguments Return {A} a.
Arguments Throw {A} message.

(** An [async] method of an object of type [S]. *)
Definition M (S A : Type) : Type := S → World → Outcome A * S * World.

Definition ret {S A} (a : A) : M S A := λ s w, (Return a, s, w).

Definition throw {S A} (message : string) : M S A := λ s w, (Throw message, s, w).

Definition bind {S A B} (m : M S A) (k : A → M S B) : M S B :=
  λ s w,
    match m s w with
    | (Return a, s', w') => k a s' w'
    | (Throw e, s', w') => (Throw e, s', w')
    end.

(** [try { m } catch (e) { h e }]: effects of [m] up to the throw stay. *)
Definition try_catch {S A} (m : M S A) (h : string → M S A) : M S A :=
  λ s w,
    match m s w with
    | (Return a, s', w') => (Return a, s', w')
    | (Throw e, s', w') => h e s' w'
    end.

Definition lift {S A} (o : Outcome A) : M S A := λ s w, (o, s, w).

Definition this {S} : M S S := λ s w, (Return s, s, w).

Definition set_this {S} (s : S) : M S unit := λ _ w, (Return tt, s, w).

Definition world {S} : M S World := λ s w, (Return w, s, w).

Definition update_world {S} (f : World → World) : M S unit :=
  λ s w, (Return tt, s, f w).

(** Run a method of the object held in a field. *)
Definition on_field {S S' A} (get : S → S') (set : S' → S → S)
    (m : M S' A) : M S A :=
  λ s w, let '(r, s', w') := m (get s) w in (r, set s' s, w').

(** Run a block that owns a local object. *)
Definition with_object {S S' A} (obj : S') (m : M S' A) : M S A :=
  λ s w, let '(r, _, w') := m obj w in (r, s, w').

Declare Scope monad_scope.
Delimit Scope monad_scope with M.
Notation "'let*' x ':=' m 'in' k" := (bind m (λ x, k))
  (at level 10, x name, m at level 100, k at level 200) : monad_scope.

(** [Date.now()]. *)
Definition Date_now {S} : M S Z := λ s w, (Return (clock w), s, w).

(** [crypto.getRandomValues(new Uint8Array(n))]. *)
Definition getRandomValues `{Platform} {S} (n : nat) : M S (list byte) :=
  λ s w, (Return (map random_byte (seq (drawn w) n)), s,
          set_drawn (drawn w + n) w).

(** [crypto.randomUUID()]. *)
Definition randomUUID `{Platform} {S} : M S string :=
  λ s w, (Return (uuid_of (map random_byte (seq (drawn w) 16))), s,
          set_drawn (drawn w + 16) w).

(** The namespace's three operations. *)
Definition kv_get {S} (key : string) : M S (option string) :=
  λ s w, (Return (read w key), s, w).

Definition kv_put {S} (key value : string) (expiration : option Z) : M S unit :=
  update_world (set_store (insert key {| kv_value := value;
                                          kv_expiration := expiration |})).

Definition kv_delete {S} (key : string) : M S unit :=
  update_world (set_store (delete key)).

(** [fetch] of the token endpoint: the request is recorded and answered. *)
Definition fetch `{Platform} {S} (r : Request) : M S Reply :=
  λ s w, (Return (token_endpoint (requests w) r), s, add_request r w).

End Monad.

(** ** [kv.service.ts]: the encrypted store *)

Module KV.
Import JS Data World Monad.
Local Open Scope monad_scope.

Record KVService := {
  kv : option KVNamespace;
  secrets : list string;
  derivedKeys : gmap string CryptoKey;
  requireSecret : bool
}.

Definition set_derivedKeys (d : gmap string CryptoKey) (s : KVService) :=
  {| kv := kv s; secrets := secrets s; derivedKeys := d;
     requireSecret := requireSecret s |}.

(** The [secret?: string | string[]] argument of the constructor. *)
Inductive SecretArg :=
| NoSecret
| OneSecret (s : string)
| SecretList (l : list string).

Definition secret_of (o : option string) : SecretArg :=
  match o with Some s => OneSecret s | None => NoSecret end.

(** [new KVService(kvNamespace, secret, options)]; [options] is absent, or
    an object whose [requireSecret] is absent or a boolean. *)
Definition new (kvNamespace : option KVNamespace) (secret : SecretArg)
    (options : option (option bool)) : Outcome KVService :=
  let secrets :=
    match secret with
    | SecretList l => List.filter truthy_string l
    | OneSecret s => if truthy_string s then [s] else []
    | NoSecret => []
    end in
  let requireSecret :=
    match options with
    | Some (Some false) => false
    | _ => true
    end in
  if requireSecret && (length secrets =? 0)%nat then
    Throw "KV encryption required but no `SESSION_ENC_SECRET` provided"
  else
    Return {| kv := kvNamespace; secrets := secrets; derivedKeys := ∅;
              requireSecret := requireSecret |}.

Section methods.
Context `{Platform}.

(** [crypto.subtle.importKey('raw', hash, ...)] keeps the raw bytes. *)
Definition derive (secret : string) : CryptoKey :=
  SHA256 (TextEncoder_encode secret).

Definition getKey (secret : string) : M KVService CryptoKey :=
  let* self := this in
  match derivedKeys self !! secret with
  | Some key => ret key
  | None =>
      let key := derive secret in
      let* _ := set_this (set_derivedKeys (<[secret := key]> (derivedKeys self)) self) in
      ret key
  end.

Definition arrayBufferToBase64 (buffer : list byte) : string :=
  Base64.btoa buffer.

(** Throws when the text is not base64. *)
Definition base64ToArrayBuffer (b64 : string) : M KVService (list byte) :=
  match Base64.atob b64 with
  | Some bytes => ret bytes
  | None => throw "InvalidCharacterError"
  end.

(** A method call on [this.kv]: a [TypeError] without a namespace. *)
Definition namespace {A} (m : M KVService A) : M KVService A :=
  let* self := this in
  match kv self with
  | Some _ => m
  | None => throw "TypeError"
  end.

Definition put {T} `{JSON T} (key : string) (value : T)
    (expirationTtl : option Z) : M KVService unit :=
  let dataToStore := JSON_stringify value in
  let* self := this in
  let* dataToStore :=
    match secrets self with
    | primarySecret :: _ =>
        let* keyObj := getKey primarySecret in
        let* iv := getRandomValues 12 in
        let ciphertext :=
          AES_GCM_encrypt keyObj iv (TextEncoder_encode dataToStore) in
        ret (arrayBufferToBase64 iv +:+ ":" +:+ arrayBufferToBase64 ciphertext)
    | [] => ret dataToStore
    end in
  namespace (kv_put key dataToStore expirationTtl).

(** [JSON.parse(text) as T] inside a [try]: [handler] on a throw. *)
Definition parse_or {T} `{JSON T} {R} (text : string)
    (found : option T → M KVService R) (handler : M KVService R) : M KVService R :=
  match JSON_parse text with
  | Some v => found v
  | None => handler
  end.

(** One round of the loop over the secrets.  [Some v] is [return v];
    [None] is [continue]. *)
Definition try_secret {T} `{JSON T} (value secret : string)
    : M KVService (option (option T)) :=
  try_catch
    (match Chars.split ":" (list_ascii_of_string value) with
     | [part0; part1] =>
         let* iv := base64ToArrayBuffer (string_of_list_ascii part0) in
         let* ciphertext := base64ToArrayBuffer (string_of_list_ascii part1) in
         let* keyObj := getKey secret in
         match AES_GCM_decrypt keyObj iv ciphertext with
         | Some decrypted =>
             match JSON_parse (TextDecoder_decode decrypted) with
             | Some v => ret (Some v)
             | None => throw "SyntaxError"
             end
         | None => throw "OperationError"
         end
     | _ => ret None
     end)
    (λ _, ret None).

Fixpoint try_secrets {T} `{JSON T} (value : string) (l : list string)
    : M KVService (option (option T)) :=
  match l with
  | [] => ret None
  | secret :: rest =>
      let* r := try_secret value secret in
      match r with
      | Some v => ret (Some v)
      | None => try_secrets value rest
      end
  end.

Definition get {T} `{JSON T} (key : string) : M KVService (option T) :=
  let* value := namespace (kv_get key) in
  match value with
  | None => ret None
  | Some value =>
      if negb (truthy_string value) then ret None
      else
        let* self := this in
        if (length (secrets self) =? 0)%nat then
          parse_or value ret (ret None)
        else
          let* r := try_secrets value (secrets self) in
          match r with
          | Some v => ret v
          | None => parse_or value ret (ret None)
          end
  end.

Definition delete (key : string) : M KVService unit :=
  let* self := this in
  match kv self with
  | None => ret tt
  | Some _ => kv_delete key
  end.

End methods.

End KV.

(** ** [auth.service.ts]: PKCE parameters, the callback, the token endpoint *)

Module Auth.
Import JS Data World Monad.
Local Open Scope monad_scope.

Definition SCOPES : list string := [
  "openid";
  "offline_access";
  "profile";
  "https://api.banno.com/consumer/auth/accounts.readonly";
  "https://api.banno.com/consumer/auth/user.readonly";
  "https://api.banno.com/consumer/auth/user.profile.readonly";
  "https://api.banno.com/consumer/claim/devices.readonly";
  "https://api.banno.com/consumer/claim/netteller_id.readonly";
  "https://api.banno.com/consumer/claim/phone_numbers.readonly";
  "https://api.banno.com/consumer/claim/user_type.readonly";
  "https://api.banno.com/consumer/auth/documents.readonly";
  "https://api.banno.com/consumer/auth/transactions.detail.readonly";
  "https://api.banno.com/consumer/claim/customer_identifier.readonly";
  "https://api.banno.com/consumer/claim/loans.readonly";
  "https://api.banno.com/consumer/claim/shares.readonly"
].

(** [.replace(/\+/g, '-').replace(/\//g, '_')] on one character. *)
Definition url_safe (c : ascii) : ascii :=
  if Ascii.eqb c "+" then "-"%char
  else if Ascii.eqb c "/" then "_"%char
  else c.

Definition base64UrlEncode (array : list byte) : string :=
  string_of_list_ascii
    (Chars.strip_trailing "=" (map url_safe (Base64.encode array))).

(** ** [URLSearchParams.toString()]: the form-urlencoded serialiser *)

Definition hex_digit (n : N) : ascii :=
  nth (N.to_nat n) (list_ascii_of_string "0123456789ABCDEF") "0"%char.

Definition form_unreserved (n : N) : bool :=
  ((n =? 42) || (n =? 45) || (n =? 46) || (n =? 95)
   || ((48 <=? n) && (n <=? 57))
   || ((65 <=? n) && (n <=? 90))
   || ((97 <=? n) && (n <=? 122)))%N.

Definition form_encode_char (c : ascii) : list ascii :=
  let n := N_of_ascii c in
  if (n =? 32)%N then ["+"%char]
  else if form_unreserved n then [c]
  else ["%"%char; hex_digit (n / 16); hex_digit (n mod 16)].

Definition form_encode (s : string) : string :=
  string_of_list_ascii (concat (map form_encode_char (list_ascii_of_string s))).

Definition URLSearchParams_toString (params : list (string * string)) : string :=
  String.concat "&"
    (map (λ p, form_encode (fst p) +:+ "=" +:+ form_encode (snd p)) params).

Section functions.
Context `{Platform}.

Definition generateRandomString {S} (length : nat) : M S string :=
  let* array := getRandomValues length in
  ret (base64UrlEncode array).

Definition generatePKCE {S} : M S (string * string) :=
  let* codeVerifier := generateRandomString 32 in
  let data := TextEncoder_encode codeVerifier in
  let hash := SHA256 data in
  let codeChallenge := base64UrlEncode hash in
  ret (codeVerifier, codeChallenge).

Definition auth_params (env : Bindings) (codeChallenge state : string)
    : list (string * string) := [
  ("client_id", CLIENT_ID env);
  ("response_type", "code");
  ("scope", String.concat " " SCOPES);
  ("redirect_uri", REDIRECT_URI env);
  ("code_challenge", codeChallenge);
  ("code_challenge_method", "S256");
  ("state", state)
].

Definition generateAuthUrl {S} (env : Bindings) : M S AuthInitResult :=
  let* pkce := generatePKCE in
  let '(codeVerifier, codeChallenge) := pkce in
  let* state := generateRandomString 16 in
  let params := auth_params env codeChallenge state in
  ret {| url := ENV_URI env +:+ "/a/consumer/api/v0/oidc/auth?"
                +:+ URLSearchParams_toString params;
         ar_codeVerifier := codeVerifier;
         ar_state := state |}.

Definition initiateAuth {S} (c : Context) : M S string :=
  let* r := generateAuthUrl (env c) in
  let* _ :=
    match SESSIONS_KV (env c) with
    | Some ns =>
        let* kvService :=
          lift (KV.new (Some ns) (KV.secret_of (SESSION_ENC_SECRET (env c)))
                       (Some (Some false))) in
        with_object kvService (
          let* now := Date_now in
          let expiresAt := now / 1000 + 600 in
          KV.put ("auth_state:" +:+ ar_state r)
                 {| codeVerifier := ar_codeVerifier r |} (Some expiresAt))
    | None => ret tt
    end in
  ret (url r).

Definition token_url (env : Bindings) : string :=
  ENV_URI env +:+ "/a/consumer/api/v0/oidc/token".

Definition exchangeCodeForToken {S} (code codeVerifier : string)
    (env : Bindings) : M S TokenResponse :=
  let* response :=
    fetch {| req_url := token_url env;
             req_form := [("client_id", CLIENT_ID env);
                          ("client_secret", CLIENT_SECRET env);
                          ("grant_type", "authorization_code");
                          ("code", code);
                          ("redirect_uri", REDIRECT_URI env);
                          ("code_verifier", codeVerifier)] |} in
  match response with
  | NetworkError message => throw message
  | Response false status statusText errorText _ =>
      throw ("Token exchange failed: " +:+ status +:+ " " +:+ statusText
             +:+ " - " +:+ errorText)
  | Response true _ _ _ (Some tokens) => ret tokens
  | Response true _ _ _ None => throw "SyntaxError"
  end.

Definition refreshAccessToken {S} (refreshToken : option string)
    (env : Bindings) : M S TokenResponse :=
  let* response :=
    fetch {| req_url := token_url env;
             req_form := [("client_id", CLIENT_ID env);
                          ("client_secret", CLIENT_SECRET env);
                          ("grant_type", "refresh_token");
                          ("refresh_token", to_string refreshToken)] |} in
  match response with
  | NetworkError message => throw message
  | Response false status statusText _ _ =>
      throw ("Token refresh failed: " +:+ status +:+ " " +:+ statusText)
  | Response true _ _ _ (Some tokens) => ret tokens
  | Response true _ _ _ None => throw "SyntaxError"
  end.

Definition processAuthCallback {S} (c : Context) : M S TokenResponse :=
  let code := query_code c in
  let error := query_error c in
  let error_description := query_error_description c in
  let state := query_state c in
  if truthy_opt error then
    throw (let message := or_string error_description error in
           if truthy_opt message then to_string message
           else "Unknown error")
  else if negb (truthy_opt code) then throw "No code provided"
  else if negb (truthy_opt state) then throw "No state provided"
  else
    let* codeVerifier :=
      match SESSIONS_KV (env c) with
      | Some ns =>
          let* kvService :=
            lift (KV.new (Some ns) (KV.secret_of (SESSION_ENC_SECRET (env c)))
                         (Some (Some false))) in
          with_object kvService (
            let* authState := KV.get ("auth_state:" +:+ to_string state) in
            match authState with
            | Some authState =>
                let* _ := KV.delete ("auth_state:" +:+ to_string state) in
                ret (codeVerifier authState)
            | None => throw "Invalid or expired OAuth state"
            end)
      | None => throw "KV namespace required for authentication"
      end in
    if negb (truthy_string codeVerifier) then
      throw "Invalid state or missing code verifier"
    else exchangeCodeForToken (to_string code) codeVerifier (env c).

End functions.

End Auth.

(** ** [session.service.ts]: the session store *)

Module Session.
Import JS Data World Monad.
Local Open Scope monad_scope.

Record SessionService := {
  kvService : KV.KVService;
  s_env : Bindings
}.

Definition set_kvService (k : KV.KVService) (s : SessionService) :=
  {| kvService := k; s_env := s_env s |}.

(** [new SessionService(kvNamespace, kvEncryptionSecret, env)]: the store
    is always built with [requireSecret: true]. *)
Definition new (kvNamespace : option KVNamespace)
    (kvEncryptionSecret : option string) (env : Bindings)
    : Outcome SessionService :=
  match KV.new kvNamespace (KV.secret_of kvEncryptionSecret) (Some (Some true)) with
  | Return k => Return {| kvService := k; s_env := env |}
  | Throw e => Throw e
  end.

Definition thirty_days : Z := 60 * 60 * 24 * 30.

(** The object literal written under [session:<id>]. *)
Definition stored (data : SessionData) : StoredSession :=
  {| s_userId := userId data;
     s_accessToken := accessToken data;
     s_refreshToken := refreshToken data;
     s_expiresAt := to_field (floor_div (expiresAt data) 1000) |}.

Section methods.
Context `{Platform}.

(** A call [this.kvService.m(...)]. *)
Definition kvs {A} (m : M KV.KVService A) : M SessionService A :=
  on_field kvService set_kvService m.

Definition getUserSessionId (userId : string) : M SessionService (option string) :=
  try_catch (kvs (KV.get ("user_session:" +:+ userId)))
            (λ _, ret None).

Definition deleteSession (sessionId : string) : M SessionService unit :=
  try_catch (kvs (KV.delete ("session:" +:+ sessionId)))
            (λ _, ret tt).

Definition deleteUserSession (userId : string) : M SessionService unit :=
  try_catch (kvs (KV.delete ("user_session:" +:+ userId)))
            (λ _, ret tt).

Definition createSession (sessionId : string) (data : SessionData)
    : M SessionService unit :=
  let* now := Date_now in
  let expiresAt := now / 1000 + thirty_days in
  kvs (KV.put ("session:" +:+ sessionId) (stored data) (Some expiresAt)).

Definition createUserSession (sessionId userId : string) (data : SessionData)
    : M SessionService unit :=
  let* now := Date_now in
  let expiresAt := now / 1000 + thirty_days in
  let* existingSessionId := getUserSessionId userId in
  let* _ :=
    match existingSessionId with
    | Some existing =>
        if truthy_string existing && negb (String.eqb existing sessionId)
        then deleteSession existing
        else ret tt
    | None => ret tt
    end in
  let* _ := kvs (KV.put ("session:" +:+ sessionId) (stored data) (Some expiresAt)) in
  kvs (KV.put ("user_session:" +:+ userId) sessionId (Some expiresAt)).

Definition updateSession (sessionId : string) (data : SessionData)
    : M SessionService unit :=
  let* now := Date_now in
  let now := now / 1000 in
  let expiresAt := now + thirty_days in
  try_catch
    (kvs (KV.put ("session:" +:+ sessionId) (stored data) (Some expiresAt)))
    (λ error, throw error).

(** The record built from a token response on a refresh. *)
Definition refreshed (kvRes : StoredSession) (tokenResponse : TokenResponse)
    (now : Z) : SessionData :=
  let newExpiresAt := now + or_number (expires_in tokenResponse) 3600 in
  {| userId := s_userId kvRes;
     accessToken := access_token tokenResponse;
     refreshToken := or_string (refresh_token tokenResponse) (s_refreshToken kvRes);
     expiresAt := Num (newExpiresAt * 1000) |}.

Definition getSession (sessionId : string) : M SessionService (option SessionData) :=
  try_catch
    (let* kvRes := kvs (KV.get ("session:" +:+ sessionId)) in
     match kvRes with
     | None => ret None
     | Some kvRes =>
         let* now := Date_now in
         let now := now / 1000 in
         if truthy_field (s_expiresAt kvRes) && field_lt (s_expiresAt kvRes) now
         then
           try_catch
             (let* self := this in
              let* tokenResponse :=
                Auth.refreshAccessToken (s_refreshToken kvRes) (s_env self) in
              let* _ := updateSession sessionId (refreshed kvRes tokenResponse now) in
              ret (Some (refreshed kvRes tokenResponse now)))
             (λ refreshError,
               let* _ := deleteSession sessionId in
               ret None)
         else
           ret (Some {| userId := s_userId kvRes;
                        accessToken := s_accessToken kvRes;
                        refreshToken := s_refreshToken kvRes;
                        expiresAt := field_times (s_expiresAt kvRes) 1000 |})
     end)
    (λ error, ret None).

Definition refreshTokens (sessionId : string) : M SessionService (option SessionData) :=
  let* session := kvs (KV.get ("session:" +:+ sessionId)) in
  match session with
  | None => ret None
  | Some session =>
      try_catch
        (let* self := this in
         let* tokenResponse :=
           Auth.refreshAccessToken (s_refreshToken session) (s_env self) in
         let* now := Date_now in
         let now := now / 1000 in
         let updatedSession := refreshed session tokenResponse now in
         let* _ := updateSession sessionId updatedSession in
         ret (Some updatedSession))
        (λ error, ret None)
  end.

End methods.

End Session.

(** ** [utils/crypto.ts] and [utils/auth.ts]: the callback handler *)

Module Callback.
Import JS Data World Monad.
Local Open Scope monad_scope.

(** [.replace(/-/g, '+').replace(/_/g, '/')] on one character. *)
Definition url_unsafe (c : ascii) : ascii :=
  if Ascii.eqb c "-" then "+"%char
  else if Ascii.eqb c "_" then "/"%char
  else c.

Section functions.
Context `{Platform}.

(** [decodeURIComponent] of the escapes [%xx] of the bytes: their text,
    when they are UTF-8. *)
Definition decodeURIComponent_escaped {S} (bytes : list byte) : M S string :=
  if utf8_valid bytes then ret (TextDecoder_decode bytes)
  else throw (runtime_message "URIError" (TextDecoder_decode bytes)).

(** [decodeJwtPayload]: the payload is decoded, never verified; [None]
    is a payload that is the JSON text [null]. *)
Definition decodeJwtPayload {S} (token : string) : M S (option IdTokenPayload) :=
  match Chars.split "." (list_ascii_of_string token) with
  | _ :: part1 :: _ =>
      let payload := string_of_list_ascii (map url_unsafe part1) in
      match Base64.atob payload with
      | Some decoded =>
          let* text := decodeURIComponent_escaped decoded in
          match JSON_parse text with
          | Some v => ret v
          | None => throw (runtime_message "SyntaxError" text)
          end
      | None => throw (runtime_message "InvalidCharacterError" payload)
      end
  | _ => throw (runtime_message "TypeError" "undefined")
  end.

Definition setSignedCookie {S} (name value secret : string) (maxAge : Z)
    : M S unit :=
  update_world (add_cookie {| cookie_name := name; cookie_value := value;
                              cookie_secret := secret;
                              cookie_maxAge := maxAge |}).

(** [Date.now() + (tokens.expires_in * 1000)]. *)
Definition expiry (now : Z) (tokens : TokenResponse) : jsnum :=
  match expires_in tokens with
  | Some seconds => Num (now + seconds * 1000)
  | None => NaN
  end.

Definition handleOAuthCallback {S} (c : Context) : M S string :=
  let* tokens := Auth.processAuthCallback c in
  if negb (truthy_string (access_token tokens)) then throw "Token exchange failed"
  else
    let* idTokenPayload := decodeJwtPayload (id_token tokens) in
    match idTokenPayload with
    | None => throw (runtime_message "TypeError" "null")
    | Some idTokenPayload =>
    let userId := sub idTokenPayload in
    match SESSIONS_KV (env c) with
    | None => throw "SESSIONS_KV required"
    | Some ns =>
        if negb (truthy_opt (SESSION_ENC_SECRET (env c))) then
          throw "SESSION_ENC_SECRET required"
        else
          let* sessionService :=
            lift (Session.new (Some ns) (SESSION_ENC_SECRET (env c)) (env c)) in
          let* sessionId :=
            with_object sessionService (
              let* existingSessionId := Session.getUserSessionId userId in
              if truthy_opt existingSessionId then
                let sessionId := to_string existingSessionId in
                let* now := Date_now in
                let* _ :=
                  Session.updateSession sessionId
                    {| userId := userId;
                       accessToken := access_token tokens;
                       refreshToken := refresh_token tokens;
                       expiresAt := expiry now tokens |} in
                ret sessionId
              else
                let* sessionId := randomUUID in
                let* now := Date_now in
                let* _ :=
                  Session.createUserSession sessionId userId
                    {| userId := userId;
                       accessToken := access_token tokens;
                       refreshToken := refresh_token tokens;
                       expiresAt := expiry now tokens |} in
                ret sessionId) in
          let* _ :=
            setSignedCookie "__Secure-session_id" sessionId
              (to_string (SESSION_ENC_SECRET (env c))) (60 * 60 * 24 * 30) in
          ret sessionId
    end
    end.

End functions.

End Callback.

(** ** [routes/auth.routes.ts]: the [/callback] route *)

Module Routes.
Import JS Data World Monad.
Local Open Scope monad_scope.

Section routes.
Context `{Platform}.

Definition callback (c : Context) : M unit HttpResult :=
  let code := query_code c in
  let error := query_error c in
  let error_description := query_error_description c in
  if truthy_opt error then
    ret (Text ("Authentication Error: "
               +:+ to_string (or_string error_description error)) 400)
  else if negb (truthy_opt code) then ret (Redirect "/auth/login")
  else
    try_catch
      (let* _ := Callback.handleOAuthCallback c in
       ret (Redirect "/callback/plugin"))
      (λ message, ret (Text ("Error during authentication: " +:+ message) 500)).

End routes.

End Routes.

(** ** A sample platform

    A small, executable instance of [Platform], used to run the model on
    concrete inputs: a cipher that tags the plaintext with key and iv, a
    counter for randomness, a scripted identity provider, and a line-based
    codec in the place of JSON. *)

Module Sample.
Import JS Data World Monad.

Fixpoint strip_prefix (p l : list byte) : option (list byte) :=
  match p, l with
  | [], _ => Some l
  | x :: p', y :: l' => if Byte.eqb x y then strip_prefix p' l' else None
  | _ :: _, [] => None
  end.

Definition encrypt (k iv m : list byte) : list byte := k ++ iv ++ m.

Definition decrypt (k iv c : list byte) : option (list byte) :=
  strip_prefix (k ++ iv) c.

Definition digest (bs : list byte) : list byte := bs.

Definition random (n : nat) : byte := Base64.byte_of (N.of_nat n mod 256).

Definition uuid (bs : list byte) : string := Auth.base64UrlEncode bs.

(** *** The codec *)

Definition quote : ascii := "034"%char.

Definition chars (s : string) : list ascii := list_ascii_of_string s.
Definition text (l : list ascii) : string := string_of_list_ascii l.

Definition print_Z (z : Z) : string := NilZero.string_of_int (Z.to_int z).
Definition parse_Z (s : string) : option Z :=
  option_map Z.of_int (NilZero.int_of_string s).

Definition print_field (x : jsfield) : string :=
  match x with
  | Undefined => "undefined"
  | Null => "null"
  | Number z => print_Z z
  end.

Definition parse_field (s : string) : option jsfield :=
  if String.eqb s "undefined" then Some Undefined
  else if String.eqb s "null" then Some Null
  else option_map Number (parse_Z s).

Definition print_opt (o : option string) : string :=
  match o with Some s => String "+" s | None => "-" end.

Definition parse_opt (s : string) : option (option string) :=
  match s with
  | String "+" r => Some (Some r)
  | String "-" EmptyString => Some None
  | _ => None
  end.

(** [<tag>|f1|f2|...]: the fields of an object, in order. *)
Definition print_object (tag : string) (fields : list string) : string :=
  String.concat "|" (tag :: fields).

Definition parse_object (tag s : string) : option (list string) :=
  match map text (Chars.split "|" (chars s)) with
  | t :: fields => if String.eqb t tag then Some fields else None
  | [] => None
  end.

Definition parse_null {T} (s : string) (k : option T) : option (option T) :=
  if String.eqb s "null" then Some None else option_map Some k.

#[export] Instance codec_string : JSON string := {
  JSON_stringify s := String quote (s +:+ String quote EmptyString);
  JSON_parse s :=
    parse_null s
      match chars s with
      | c :: r =>
          match rev r with
          | d :: m =>
              if Ascii.eqb c quote && Ascii.eqb d quote
              then Some (text (rev m)) else None
          | [] => None
          end
      | [] => None
      end
}.

#[export] Instance codec_session : JSON StoredSession := {
  JSON_stringify r :=
    print_object "session"
      [s_userId r; s_accessToken r; print_opt (s_refreshToken r);
       print_field (s_expiresAt r)];
  JSON_parse s :=
    parse_null s
      match parse_object "session" s with
      | Some [u; a; r; e] =>
          match parse_opt r, parse_field e with
          | Some r, Some e =>
              Some {| s_userId := u; s_accessToken := a;
                      s_refreshToken := r; s_expiresAt := e |}
          | _, _ => None
          end
      | _ => None
      end
}.

#[export] Instance codec_auth_state : JSON AuthState := {
  JSON_stringify a := print_object "auth_state" [codeVerifier a];
  JSON_parse s :=
    parse_null s
      match parse_object "auth_state" s with
      | Some [v] => Some {| codeVerifier := v |}
      | _ => None
      end
}.

#[export] Instance codec_id_token : JSON IdTokenPayload := {
  JSON_stringify a := print_object "id_token" [sub a];
  JSON_parse s :=
    parse_null s
      match parse_object "id_token" s with
      | Some [v] => Some {| sub := v |}
      | _ => None
      end
}.

(** *** The identity provider

    The reply is scripted by the refresh token, or the code, presented. *)

Definition form_field (name : string) (r : Request) : string :=
  match List.find (λ p, String.eqb (fst p) name) (req_form r) with
  | Some p => snd p
  | None => EmptyString
  end.

Definition tokens (access : string) (refresh : option string)
    (lifetime : option Z) : TokenResponse :=
  {| access_token := access; id_token := EmptyString;
     refresh_token := refresh; expires_in := lifetime;
     token_type := "Bearer" |}.

(** An identity token whose payload names the subject [user]; header and
    signature are placeholders, nothing reads them. *)
Definition identity_token (user : string) : string :=
  "h." +:+ Auth.base64UrlEncode
             (TextEncoder_encode (print_object "id_token" [user]))
  +:+ ".s".

Definition success (t : TokenResponse) : Reply :=
  Response true "200" "OK" EmptyString (Some t).

Definition provider (history : list Request) (r : Request) : Reply :=
  if String.eqb (form_field "grant_type" r) "refresh_token" then
    let presented := form_field "refresh_token" r in
    if String.eqb presented "rt-rotate" then
      success (tokens "at-new" (Some "rt-next") (Some 7200))
    else if String.eqb presented "rt-keep" then
      success (tokens "at-new" None None)
    else if String.eqb presented "rt-blank" then
      success (tokens "at-new" (Some EmptyString) (Some 0))
    else if String.eqb presented "rt-negative" then
      success (tokens "at-new" None (Some (-100)))
    else Response false "400" "Bad Request" "invalid_grant" None
  else
    if String.eqb (form_field "code" r) "code-ok" then
      success {| access_token := "at-first";
                 id_token := identity_token "user-1";
                 refresh_token := Some "rt-rotate";
                 expires_in := Some 3600;
                 token_type := "Bearer" |}
    else Response false "400" "Bad Request" "invalid_grant" None.

#[export] Instance platform : Platform := {
  SHA256 := digest;
  AES_GCM_encrypt := encrypt;
  AES_GCM_decrypt := decrypt;
  random_byte := random;
  uuid_of := uuid;
  token_endpoint := provider;
  runtime_message := λ name value, name +:+ ": " +:+ value;
  JSON_session := codec_session;
  JSON_string := codec_string;
  JSON_auth_state := codec_auth_state;
  JSON_id_token := codec_id_token
}.

Definition bindings : Bindings :=
  {| CLIENT_ID := "client"; CLIENT_SECRET := "hush";
     REDIRECT_URI := "https://app.example/callback";
     ENV_URI := "https://idp.example";
     SESSION_ENC_SECRET := Some "k1";
     SESSIONS_KV := Some SESSIONS_KV_namespace |}.

(** Noon of some day, in milliseconds and in seconds. *)
Definition noon : Z := 1600000000000.
Definition noon_s : Z := 1600000000.

(** An empty namespace at time [t]. *)
Definition world_at (t : Z) : World :=
  {| store := ∅; clock := t; drawn := 0; requests := []; cookies := [] |}.

(** The session service that the constructor builds over the sample
    bindings. *)
Definition service : Session.SessionService :=
  {| Session.kvService :=
       {| KV.kv := Some SESSIONS_KV_namespace; KV.secrets := ["k1"];
          KV.derivedKeys := ∅; KV.requireSecret := true |};
     Session.s_env := bindings |}.

(** A session record expiring at [t] milliseconds, with the refresh token
    [rt]. *)
Definition session (rt : string) (t : Z) : SessionData :=
  {| userId := "u"; accessToken := "at"; refreshToken := Some rt;
     expiresAt := Num t |}.

End Sample.

(** ** [utils/crypto.ts]: identifiers in hexadecimal, the token check *)

Module CryptoUtils.
Import JS Data World Monad.
Local Open Scope monad_scope.

Definition hex_lower (n : N) : ascii :=
  nth (N.to_nat n) (list_ascii_of_string "0123456789abcdef") "0"%char.

(** [n.toString(16)] for a byte: one digit below 16, two from there on. *)
Definition toString16 (b : byte) : list ascii :=
  let n := Byte.to_N b in
  if (n <? 16)%N then [hex_lower n]
  else [hex_lower (n / 16); hex_lower (n mod 16)].

(** [s.padStart(2, '0')]. *)
Definition padStart2 (s : list ascii) : list ascii :=
  match s with
  | [] => ["0"%char; "0"%char]
  | [c] => ["0"%char; c]
  | _ => s
  end.

(** [Array.from(array, byte => byte.toString(16).padStart(2, '0')).join('')]. *)
Definition hex (array : list byte) : string :=
  string_of_list_ascii (concat (map (λ b, padStart2 (toString16 b)) array)).

(** The bytes of a binary string, read as a text: each byte is the code
    point of a character. *)
Definition latin1_char (b : byte) : list byte :=
  let n := Byte.to_N b in
  if (n <? 128)%N then [b]
  else [Base64.byte_of (192 + n / 64); Base64.byte_of (128 + n mod 64)].

Definition latin1 (binary : list byte) : string :=
  string_of_list_byte (concat (map latin1_char binary)).

Section functions.
Context `{Platform}.

Definition generateState {S} : M S string :=
  let* array := getRandomValues 32 in
  ret (hex array).

Definition generateSessionId {S} : M S string :=
  let* array := getRandomValues 16 in
  ret (hex array).

(** [decodeJwtPayload] at the type the caller reads the payload at;
    [None] is a payload that is the JSON text [null]. *)
Definition decodeJwtPayload_as {T} `{JSON T} {S} (token : string)
    : M S (option T) :=
  match Chars.split "." (list_ascii_of_string token) with
  | _ :: part1 :: _ =>
      let payload := string_of_list_ascii (map Callback.url_unsafe part1) in
      match Base64.atob payload with
      | Some decoded =>
          let* text := Callback.decodeURIComponent_escaped decoded in
          match JSON_parse text with
          | Some v => ret v
          | None => throw (runtime_message "SyntaxError" text)
          end
      | None => throw (runtime_message "InvalidCharacterError" payload)
      end
  | _ => throw (runtime_message "TypeError" "undefined")
  end.

(** The payload as [verifyJwtSignature] reads it. *)
Record JwtPayload := {
  jwt_sub : string;
  jwt_exp : jsfield
}.

(** [verifyJwtSignature]: the format, the header and the expiry are
    looked at; every failure is thrown again under one prefix. *)
Definition verifyJwtSignature {Header} `{JSON Header} `{JSON JwtPayload} {S}
    (token : string) : M S JwtPayload :=
  try_catch
    (match Chars.split "." (list_ascii_of_string token) with
     | [part0; part1; part2] =>
         let text := string_of_list_ascii (map Callback.url_unsafe part0) in
         match Base64.atob text with
         | Some binary =>
             match JSON_parse (T:=Header) (latin1 binary) with
             | Some header =>
                 let* payload := decodeJwtPayload_as token in
                 match payload with
                 | None => throw (runtime_message "TypeError" "null")
                 | Some payload =>
                     let* now := Date_now in
                     if truthy_field (jwt_exp payload)
                        && field_lt (jwt_exp payload) (now / 1000)
                     then throw "JWT expired"
                     else ret payload
                 end
             | None => throw (runtime_message "SyntaxError" (latin1 binary))
             end
         | None => throw (runtime_message "InvalidCharacterError" text)
         end
     | _ => throw "Invalid JWT format"
     end)
    (λ message, throw ("JWT verification failed: " +:+ message)).

End functions.

End CryptoUtils.

(** ** [routes/auth.routes.ts]: the login and logout routes *)

Module AuthRoutes.
Import JS Data World Monad.
Local Open Scope monad_scope.

(** [deleteCookie(c, name, ...)]: the cookie is set again, empty and with
    no time to live. *)
Definition deleteCookie {S} (name : string) : M S unit :=
  update_world (add_cookie {| cookie_name := name; cookie_value := EmptyString;
                              cookie_secret := EmptyString;
                              cookie_maxAge := 0 |}).

Section routes.
Context `{Platform}.

Definition login (c : Context) : M unit HttpResult :=
  let* url := Auth.initiateAuth c in
  ret (Redirect url).

(** [signed] is what [getSignedCookie] answers for the session cookie:
    the identifier when the cookie is there and its signature holds. *)
Definition logout (c : Context) (signed : option string) : M unit HttpResult :=
  let sessionId := signed in
  let* _ :=
    match SESSIONS_KV (env c) with
    | Some ns =>
        if truthy_opt sessionId then
          let* sessionService :=
            lift (Session.new (Some ns) (SESSION_ENC_SECRET (env c)) (env c)) in
          with_object sessionService (
            let* session := Session.getSession (to_string sessionId) in
            let* _ :=
              match session with
              | Some session => Session.deleteUserSession (userId session)
              | None => ret tt
              end in
            Session.deleteSession (to_string sessionId))
        else ret tt
    | None => ret tt
    end in
  let* _ := deleteCookie "__Secure-session_id" in
  ret (Redirect "/").

End routes.

End AuthRoutes.

(** ** Facts about lists of characters *)

Module CharsFacts.
Import Chars.

(** Induction three elements at a time, the way base64 walks a buffer. *)
Lemma list_ind3 {A} (P : list A → Prop) :
  P [] → (∀ a, P [a]) → (∀ a b, P [a; b]) →
  (∀ a b c l, P l → P (a :: b :: c :: l)) → ∀ l, P l.
Proof.
  intros H0 H1 H2 H3.
  fix IH 1. intros l.
  destruct l as [|a l]; [exact H0|].
  destruct l as [|b l]; [apply H1|].
  destruct l as [|c l]; [apply H2|].
  apply H3, IH.
Qed.

Lemma filter_all {A} (f : A → bool) l :
  Forall (λ x, f x = true) l → List.filter f l = l.
Proof. induction 1 as [|x l Hx _ IH]; simpl; [done|]. by rewrite Hx, IH. Qed.

Lemma split_none c s : c ∉ s → split c s = [s].
Proof.
  induction s as [|x xs IH]; intros Hc; [done|].
  apply not_elem_of_cons in Hc as [Hx Hxs]. simpl.
  destruct (Ascii.eqb_spec x c) as [->|_]; [done|].
  by rewrite IH.
Qed.

Lemma split_one c a b :
  c ∉ a → c ∉ b → split c (a ++ c :: b) = [a; b].
Proof.
  induction a as [|x xs IH]; intros Ha Hb; simpl.
  - rewrite Ascii.eqb_refl. by rewrite split_none.
  - apply not_elem_of_cons in Ha as [Hx Hxs].
    destruct (Ascii.eqb_spec x c) as [->|_]; [done|].
    by rewrite IH.
Qed.

Lemma drop_leading_repeat c n l :
  c ∉ take 1 l → drop_leading c (repeat c n ++ l) = l.
Proof.
  intros Hl. induction n as [|n IH]; simpl.
  - destruct l as [|x xs]; [done|]. simpl in *.
    destruct (Ascii.eqb_spec x c) as [->|_]; [|done].
    exfalso. apply Hl. left.
  - by rewrite Ascii.eqb_refl.
Qed.

(** Trailing copies of [c] go, and nothing else, when what precedes them
    has no [c] at all. *)
Lemma strip_trailing_repeat c n s :
  c ∉ s → strip_trailing c (s ++ repeat c n) = s.
Proof.
  intros Hs. unfold strip_trailing.
  rewrite rev_app_distr, rev_repeat, drop_leading_repeat, rev_involutive; [done|].
  intros Hin. apply Hs. apply elem_of_take in Hin as (i & Hi & _).
  apply list_elem_of_lookup_2, list_elem_of_In in Hi.
  by apply list_elem_of_In, in_rev.
Qed.

End CharsFacts.

(** ** Facts about base64 *)

Module Base64Facts.
Import Chars CharsFacts Base64.
Local Open Scope N_scope.

Definition char_ok (n : N) : bool :=
  match value_of (char_of n) with
  | Some m => m =? n
  | None => false
  end
  && negb (is_whitespace (char_of n))
  && negb (Ascii.eqb (char_of n) pad)
  && negb (Ascii.eqb (char_of n) ":"%char).

Lemma char_table n : n < 64 → char_ok n = true.
Proof.
  intros Hn.
  assert (Hall : forallb (λ k, char_ok (N.of_nat k)) (seq 0 64) = true)
    by (vm_compute; reflexivity).
  rewrite forallb_forall in Hall.
  rewrite <- (N2Nat.id n). apply Hall, in_seq. lia.
Qed.

Lemma value_of_char_of n : n < 64 → value_of (char_of n) = Some n.
Proof.
  intros Hn. pose proof (char_table n Hn) as H. unfold char_ok in H.
  repeat (apply andb_prop in H as [H _]).
  destruct (value_of (char_of n)) as [m|]; [|done].
  by apply N.eqb_eq in H as ->.
Qed.

Lemma char_of_not_whitespace n : n < 64 → is_whitespace (char_of n) = false.
Proof.
  intros Hn. pose proof (char_table n Hn) as H. unfold char_ok in H.
  apply andb_prop in H as [H _]. apply andb_prop in H as [H _].
  apply andb_prop in H as [_ H]. by apply negb_true_iff in H.
Qed.

Lemma char_of_not_pad n : n < 64 → char_of n ≠ pad.
Proof.
  intros Hn. pose proof (char_table n Hn) as H. unfold char_ok in H.
  apply andb_prop in H as [H _]. apply andb_prop in H as [_ H].
  apply negb_true_iff in H. by apply Ascii.eqb_neq.
Qed.

Lemma char_of_not_colon n : n < 64 → char_of n ≠ ":"%char.
Proof.
  intros Hn. pose proof (char_table n Hn) as H. unfold char_ok in H.
  apply andb_prop in H as [_ H].
  apply negb_true_iff in H. by apply Ascii.eqb_neq.
Qed.

Lemma sextets_bounded bs : Forall (λ n, n < 64) (sextets bs).
Proof.
  induction bs as [|b0|b0 b1|b0 b1 b2 rest IH] using list_ind3; simpl.
  - constructor.
  - pose proof (Byte.to_N_bounded b0).
    repeat constructor; div_lia.
  - pose proof (Byte.to_N_bounded b0). pose proof (Byte.to_N_bounded b1).
    repeat constructor; div_lia.
  - pose proof (Byte.to_N_bounded b0). pose proof (Byte.to_N_bounded b1).
    pose proof (Byte.to_N_bounded b2).
    repeat (constructor; [div_lia|]). exact IH.
Qed.

Lemma byte_of_to_N b n : n = Byte.to_N b → byte_of n = b.
Proof. intros ->. unfold byte_of. by rewrite Byte.of_to_N. Qed.

(** The six-bit groups determine the buffer. *)
Lemma unsextets_sextets bs : unsextets (sextets bs) = bs.
Proof.
  induction bs as [|b0|b0 b1|b0 b1 b2 rest IH] using list_ind3; simpl.
  - done.
  - pose proof (Byte.to_N_bounded b0).
    f_equal. apply byte_of_to_N. div_lia.
  - pose proof (Byte.to_N_bounded b0). pose proof (Byte.to_N_bounded b1).
    f_equal; [|f_equal]; apply byte_of_to_N; div_lia.
  - pose proof (Byte.to_N_bounded b0). pose proof (Byte.to_N_bounded b1).
    pose proof (Byte.to_N_bounded b2).
    rewrite IH.
    f_equal; [|f_equal; [|f_equal]]; apply byte_of_to_N; div_lia.
Qed.

Lemma sextets_inj bs1 bs2 : sextets bs1 = sextets bs2 → bs1 = bs2.
Proof.
  intros H. rewrite <- (unsextets_sextets bs1), <- (unsextets_sextets bs2).
  by rewrite H.
Qed.

(** Three bytes give four groups; one byte gives two, two give three. *)
Lemma length_sextets bs :
  ∃ k : nat,
    (length bs = 3 * k ∧ length (sextets bs) = 4 * k)%nat ∨
    (length bs = 3 * k + 1 ∧ length (sextets bs) = 4 * k + 2)%nat ∨
    (length bs = 3 * k + 2 ∧ length (sextets bs) = 4 * k + 3)%nat.
Proof.
  induction bs as [|b0|b0 b1|b0 b1 b2 rest IH] using list_ind3.
  - exists 0%nat. by left.
  - exists 0%nat. right. by left.
  - exists 0%nat. right. by right.
  - destruct IH as (k & IH). exists (S k). simpl. lia.
Qed.

Lemma length_padding bs :
  length (padding bs) = ((3 - length bs mod 3) mod 3)%nat.
Proof.
  unfold padding.
  pose proof (Nat.mod_upper_bound (length bs) 3 ltac:(lia)) as Hlt.
  destruct (length bs mod 3)%nat as [|[|[|n]]]; simpl; try done; lia.
Qed.

Lemma padding_repeat bs : padding bs = repeat pad (length (padding bs)).
Proof. unfold padding. by destruct (length bs mod 3)%nat as [|[|n]]. Qed.

Lemma pad_not_in_chars vs :
  Forall (λ n, n < 64) vs → pad ∉ map char_of vs.
Proof.
  intros Hvs Hin. apply list_elem_of_fmap in Hin as (n & Hn & Hin).
  rewrite Forall_forall in Hvs. by eapply char_of_not_pad; [apply Hvs|].
Qed.

Lemma strip_padding_padding cs bs :
  pad ∉ cs → strip_padding (cs ++ padding bs) = cs.
Proof.
  intros Hcs.
  assert (Hlast : Forall (λ c, Ascii.eqb c pad = false) (rev cs)).
  { apply Forall_forall. intros c Hc. apply Ascii.eqb_neq. intros ->.
    by apply Hcs, list_elem_of_In, in_rev, list_elem_of_In. }
  unfold strip_padding, padding.
  destruct (length bs mod 3)%nat as [|[|n]]; rewrite ?app_nil_r;
    rewrite ?rev_app_distr; simpl.
  - destruct (rev cs) as [|c1 [|c2 r]]; [done| |];
      apply Forall_cons in Hlast as [-> _]; done.
  - by rewrite rev_involutive.
  - destruct (rev cs) as [|c2 r] eqn:Hr.
    + by rewrite <- (rev_involutive cs), Hr.
    + apply Forall_cons in Hlast as [-> _].
      change (rev r ++ [c2]) with (rev (c2 :: r)).
      by rewrite <- Hr, rev_involutive.
Qed.

Lemma mapM_value_of_char_of vs :
  Forall (λ n, n < 64) vs → mapM value_of (map char_of vs) = Some vs.
Proof.
  intros Hvs. apply mapM_Some. induction Hvs; constructor; [|done].
  by apply value_of_char_of.
Qed.

Lemma filter_whitespace_encode bs :
  List.filter (λ c, negb (is_whitespace c)) (encode bs) = encode bs.
Proof.
  apply filter_all. unfold encode. apply Forall_app. split.
  - apply Forall_fmap. eapply Forall_impl; [apply sextets_bounded|].
    intros n Hn. simpl. by rewrite char_of_not_whitespace.
  - rewrite padding_repeat. apply Forall_forall.
    intros c Hc%list_elem_of_In%repeat_spec. by subst c.
Qed.

Lemma length_encode_mod4 bs : (length (encode bs) mod 4 = 0)%nat.
Proof.
  unfold encode. rewrite length_app, length_map, length_padding.
  destruct (length_sextets bs) as (k & [[-> ->]|[[-> ->]|[-> ->]]]).
  all: div_lia.
Qed.

Lemma length_sextets_mod4 bs : (length (sextets bs) mod 4 ≠ 1)%nat.
Proof.
  destruct (length_sextets bs) as (k & [[_ ->]|[[_ ->]|[_ ->]]]);
    div_lia.
Qed.

(** Decoding an encoded buffer gives the buffer back. *)
Lemma decode_encode bs : decode (encode bs) = Some bs.
Proof.
  unfold decode. rewrite filter_whitespace_encode, length_encode_mod4.
  rewrite Nat.eqb_refl. unfold encode.
  rewrite strip_padding_padding
    by apply pad_not_in_chars, sextets_bounded.
  rewrite length_map.
  destruct (Nat.eqb_spec (length (sextets bs) mod 4) 1) as [He|_].
  - by apply length_sextets_mod4 in He.
  - rewrite mapM_value_of_char_of by apply sextets_bounded.
    cbn [fmap option_fmap option_map]. by rewrite unsextets_sextets.
Qed.

Lemma atob_btoa bs : atob (btoa bs) = Some bs.
Proof.
  unfold atob, btoa.
  by rewrite list_ascii_of_string_of_list_ascii, decode_encode.
Qed.

(** The separator of the stored-record encoding is not a base64 character. *)
Lemma colon_not_in_encode bs : ":"%char ∉ encode bs.
Proof.
  unfold encode. intros [Hin|Hin]%elem_of_app.
  - apply list_elem_of_fmap in Hin as (n & Hn & Hin).
    pose proof (sextets_bounded bs) as Hb. rewrite Forall_forall in Hb.
    by eapply char_of_not_colon; [apply Hb|].
  - rewrite padding_repeat in Hin.
    apply list_elem_of_In, repeat_spec in Hin. discriminate.
Qed.

End Base64Facts.

(** ** Equations of the monad *)

Module MonadFacts.
Import Data World Monad.

Section equations.
Context {S A B : Type}.
Implicit Types (m : M S A) (k : A → M S B) (s : S) (w : World).

Lemma bind_return m k s w a s' w' :
  m s w = (Return a, s', w') → bind m k s w = k a s' w'.
Proof. unfold bind. by intros ->. Qed.

Lemma bind_throw m k s w e s' w' :
  m s w = (Throw e, s', w') → bind m k s w = (Throw e, s', w').
Proof. unfold bind. by intros ->. Qed.

Lemma try_catch_return m (h : string → M S A) s w a s' w' :
  m s w = (Return a, s', w') → try_catch m h s w = (Return a, s', w').
Proof. unfold try_catch. by intros ->. Qed.

Lemma try_catch_throw m (h : string → M S A) s w e s' w' :
  m s w = (Throw e, s', w') → try_catch m h s w = h e s' w'.
Proof. unfold try_catch. by intros ->. Qed.
End equations.

Lemma on_field_run {S S' A} (get : S → S') (set : S' → S → S) (m : M S' A)
    s w r s' w' :
  m (get s) w = (r, s', w') → on_field get set m s w = (r, set s' s, w').
Proof. unfold on_field. by intros ->. Qed.

Lemma with_object_run {S S' A} (obj : S') (m : M S' A) (s : S) w r s' w' :
  m obj w = (r, s', w') → with_object obj m s w = (r, s, w').
Proof. unfold with_object. by intros ->. Qed.

End MonadFacts.

(** ** Facts about the encrypted store *)

Module KVFacts.
Import JS Data World Monad MonadFacts KV.
Import Chars CharsFacts Base64 Base64Facts.

Lemma list_ascii_of_string_app a b :
  list_ascii_of_string (a +:+ b) = list_ascii_of_string a ++ list_ascii_of_string b.
Proof. induction a as [|c a IH]; simpl; [done|]. by rewrite IH. Qed.

Lemma truthy_string_app_cons a c b : truthy_string (a +:+ String c b) = true.
Proof. by destruct a. Qed.

Section store.
Context `{Platform}.

(** Every cached key is the one derived from its secret. *)
Definition cache_ok (k : KVService) : Prop :=
  ∀ s key, derivedKeys k !! s = Some key → key = derive s.

(** [k'] is [k] with a cache that has possibly grown. *)
Definition cached (k k' : KVService) : Prop :=
  kv k' = kv k ∧ secrets k' = secrets k ∧
  requireSecret k' = requireSecret k ∧ cache_ok k'.

Lemma cached_refl k : cache_ok k → cached k k.
Proof. by intros Hk. Qed.

Lemma cached_trans k1 k2 k3 : cached k1 k2 → cached k2 k3 → cached k1 k3.
Proof.
  intros (? & ? & ? & _) (? & ? & ? & ?).
  repeat split; [congruence ..|done].
Qed.

Lemma cached_ok k k' : cached k k' → cache_ok k'.
Proof. by intros (_ & _ & _ & ?). Qed.

Lemma new_cache_ok ns secret options k :
  new ns secret options = Return k → cache_ok k ∧ kv k = ns.
Proof.
  unfold new. case_match; [done|]. intros [= <-]. split; [|done].
  intros s key. simpl. by rewrite lookup_empty.
Qed.

(** The ciphertext text that [put] writes for the serialised value
    [text], under the secret [s] and the iv [iv]. *)
Definition sealed (s : string) (iv : list byte) (text : string) : string :=
  arrayBufferToBase64 iv +:+ ":" +:+
  arrayBufferToBase64
    (AES_GCM_encrypt (derive s) iv (TextEncoder_encode text)).

(** The next [n] random bytes of a world. *)
Definition fresh (w : World) (n : nat) : list byte :=
  map random_byte (seq (drawn w) n).

(** The world after [put] has sealed [v] under [key]. *)
Definition written {T} `{JSON T} (s key : string) (v : T)
    (expiration : option Z) (w : World) : World :=
  set_store (insert key {| kv_value := sealed s (fresh w 12) (JSON_stringify v);
                           kv_expiration := expiration |})
            (set_drawn (drawn w + 12) w).

Lemma getKey_run s k w :
  cache_ok k →
  ∃ k', getKey s k w = (Return (derive s), k', w) ∧ cached k k'.
Proof.
  intros Hk. unfold getKey, bind, this.
  destruct (derivedKeys k !! s) as [key|] eqn:Hs.
  - exists k. rewrite (Hk _ _ Hs). by split; [|apply cached_refl].
  - eexists. split; [reflexivity|]. repeat split.
    unfold cache_ok, set_derivedKeys. cbn [derivedKeys].
    intros s' key. destruct (decide (s = s')) as [<-|Hne].
    + rewrite lookup_insert_eq. by intros [= <-].
    + rewrite lookup_insert_ne by done. apply Hk.
Qed.

Lemma put_run {T} `{JSON T} key (v : T) expiration k w s rest :
  cache_ok k → is_Some (kv k) → secrets k = s :: rest →
  ∃ k',
    put key v expiration k w = (Return tt, k', written s key v expiration w)
    ∧ cached k k'.
Proof.
  intros Hk [ns Hns] Hs.
  destruct (getKey_run s k w Hk) as (k' & Hrun & Hc).
  exists k'. split; [|done].
  unfold put. unfold bind at 1. unfold this at 1. rewrite Hs.
  erewrite bind_return; [|by erewrite bind_return by exact Hrun].
  unfold namespace, bind, this.
  destruct Hc as (-> & _). by rewrite Hns.
Qed.

(** Without a secret the serialised value is stored as it is. *)
Lemma put_plain_run {T} `{JSON T} key (v : T) expiration k w :
  is_Some (kv k) → secrets k = [] →
  put key v expiration k w =
    (Return tt, k,
     set_store (insert key {| kv_value := JSON_stringify v;
                              kv_expiration := expiration |}) w).
Proof.
  intros [ns Hns] Hs. unfold put, namespace, bind, this, ret.
  by rewrite Hs, Hns.
Qed.

Lemma delete_run key k w :
  is_Some (kv k) →
  delete key k w = (Return tt, k, set_store (base.delete key) w).
Proof. intros [ns Hns]. unfold delete, bind, this. by rewrite Hns. Qed.

(** What one round of the loop of [get] answers on a sealed text. *)
Definition opened {T} `{JSON T} (s s' : string) (iv : list byte)
    (text : string) : option (option T) :=
  match AES_GCM_decrypt (derive s') iv
          (AES_GCM_encrypt (derive s) iv (TextEncoder_encode text)) with
  | Some decrypted => JSON_parse (TextDecoder_decode decrypted)
  | None => None
  end.

Lemma truthy_sealed s iv text : truthy_string (sealed s iv text) = true.
Proof. unfold sealed. by destruct (arrayBufferToBase64 iv). Qed.

Lemma split_sealed s iv text :
  split ":" (list_ascii_of_string (sealed s iv text)) =
    [encode iv;
     encode (AES_GCM_encrypt (derive s) iv (TextEncoder_encode text))].
Proof.
  unfold sealed, arrayBufferToBase64, btoa.
  rewrite !list_ascii_of_string_app, !list_ascii_of_string_of_list_ascii.
  apply (split_one ":"%char); apply colon_not_in_encode.
Qed.

Lemma try_secret_sealed {T} `{JSON T} s s' iv text k w :
  cache_ok k →
  ∃ k', try_secret (T:=T) (sealed s iv text) s' k w =
          (Return (opened s s' iv text), k', w)
        ∧ cached k k'.
Proof.
  intros Hk. destruct (getKey_run s' k w Hk) as (k' & Hrun & Hc).
  exists k'. split; [|done].
  unfold try_secret, try_catch. rewrite split_sealed.
  unfold base64ToArrayBuffer, atob.
  rewrite !list_ascii_of_string_of_list_ascii, !decode_encode.
  unfold bind at 1. unfold ret at 1. unfold bind at 1. unfold ret at 1.
  unfold bind. rewrite Hrun. unfold opened.
  destruct (AES_GCM_decrypt _ _ _) as [decrypted|]; [|done].
  by destruct (JSON_parse _).
Qed.

Lemma try_secret_total {T} `{JSON T} value s k w :
  cache_ok k →
  ∃ r k', try_secret (T:=T) value s k w = (Return r, k', w) ∧ cached k k'.
Proof.
  intros Hk. unfold try_secret, try_catch.
  destruct (split ":" _) as [|part0 [|part1 [|part2 parts]]];
    try (by eexists _, k; split; [reflexivity|apply cached_refl]).
  unfold base64ToArrayBuffer.
  destruct (atob (string_of_list_ascii part0)) as [iv|];
    [|by eexists _, k; split; [reflexivity|apply cached_refl]].
  destruct (atob (string_of_list_ascii part1)) as [ciphertext|];
    [|by eexists _, k; split; [reflexivity|apply cached_refl]].
  destruct (getKey_run s k w Hk) as (k' & Hrun & Hc).
  unfold bind at 1. unfold ret at 1. unfold bind at 1. unfold ret at 1.
  unfold bind. rewrite Hrun.
  destruct (AES_GCM_decrypt _ _ _) as [decrypted|];
    [|by eexists _, k'].
  destruct (JSON_parse _); by eexists _, k'.
Qed.

Lemma try_secrets_total {T} `{JSON T} value l k w :
  cache_ok k →
  ∃ r k', try_secrets (T:=T) value l k w = (Return r, k', w) ∧ cached k k'.
Proof.
  revert k. induction l as [|s l IH]; intros k Hk; simpl.
  - eexists _, k. by split; [|apply cached_refl].
  - destruct (try_secret_total (T:=T) value s k w Hk) as (r & k1 & Hrun & Hc).
    erewrite bind_return by exact Hrun.
    destruct r as [v|].
    + by eexists _, k1.
    + destruct (IH k1 (cached_ok _ _ Hc)) as (r & k2 & Hrun2 & Hc2).
      eexists _, k2. split; [exact Hrun2|]. by eapply cached_trans.
Qed.

(** Reading never throws and leaves the world as it is. *)
Lemma get_total {T} `{JSON T} key k w :
  cache_ok k → is_Some (kv k) →
  ∃ r k', get (T:=T) key k w = (Return r, k', w) ∧ cached k k'.
Proof.
  intros Hk [ns Hns]. unfold get.
  assert (Hread : namespace (kv_get key) k w = (Return (read w key), k, w)).
  { unfold namespace, bind, this. by rewrite Hns. }
  erewrite bind_return by exact Hread.
  destruct (read w key) as [value|];
    [|by eexists _, k; split; [|apply cached_refl]].
  destruct (truthy_string value); simpl;
    [|by eexists _, k; split; [|apply cached_refl]].
  unfold bind at 1. unfold this at 1.
  destruct (length (secrets k) =? 0)%nat.
  - unfold parse_or. destruct (JSON_parse value);
      by eexists _, k; split; [|apply cached_refl].
  - destruct (try_secrets_total (T:=T) value (secrets k) k w Hk)
      as (r & k' & Hrun & Hc).
    erewrite bind_return by exact Hrun.
    destruct r as [v|]; [by eexists _, k'|].
    unfold parse_or. destruct (JSON_parse value); by eexists _, k'.
Qed.

Lemma get_missing {T} `{JSON T} key k w :
  is_Some (kv k) → read w key = None →
  get (T:=T) key k w = (Return None, k, w).
Proof.
  intros [ns Hns] Hread. unfold get, namespace, bind, this, kv_get.
  by rewrite Hns, Hread.
Qed.

(** No secret of the list [l] opens the sealed text to another
    plaintext than the one sealed. *)
Definition unforged (l : list string) (s : string) (iv : list byte)
    (text : string) : Prop :=
  ∀ s' decrypted, s' ∈ l →
    AES_GCM_decrypt (derive s') iv
      (AES_GCM_encrypt (derive s) iv (TextEncoder_encode text)) = Some decrypted →
    decrypted = TextEncoder_encode text.

Lemma decode_encode_text text :
  TextDecoder_decode (TextEncoder_encode text) = text.
Proof. apply string_of_list_byte_of_string. Qed.

Lemma try_secrets_sealed {T} `{JSON T} s iv text l r k w :
  AEAD_correct → cache_ok k → s ∈ l → unforged l s iv text →
  JSON_parse (T:=T) text = Some r →
  ∃ k', try_secrets (sealed s iv text) l k w = (Return (Some r), k', w)
        ∧ cached k k'.
Proof.
  intros Haead Hk Hs Hforge Hparse. revert k Hk.
  induction l as [|s' l IH]; intros k Hk; [by apply elem_of_nil in Hs|].
  simpl.
  destruct (try_secret_sealed (T:=T) s s' iv text k w Hk) as (k1 & Hrun & Hc).
  erewrite bind_return by exact Hrun.
  unfold opened.
  destruct (AES_GCM_decrypt (derive s') iv _) as [decrypted|] eqn:Hdec.
  - apply Hforge in Hdec as ->; [|left].
    rewrite decode_encode_text, Hparse. by exists k1.
  - apply elem_of_cons in Hs as [->|Hs].
    { by rewrite Haead in Hdec. }
    destruct (IH Hs) with (k := k1) as (k2 & Hrun2 & Hc2).
    { intros s'' d Hin. apply Hforge. by right. }
    { by eapply cached_ok. }
    exists k2. split; [done|]. by eapply cached_trans.
Qed.

(** Reading a sealed text with a store that knows its secret. *)
Lemma get_sealed {T} `{JSON T} key s iv text (r : option T) k w :
  AEAD_correct → cache_ok k → is_Some (kv k) →
  read w key = Some (sealed s iv text) →
  s ∈ secrets k → unforged (secrets k) s iv text →
  JSON_parse text = Some r →
  ∃ k', get key k w = (Return r, k', w) ∧ cached k k'.
Proof.
  intros Haead Hk [ns Hns] Hread Hs Hforge Hparse. unfold get.
  assert (Hget : namespace (kv_get key) k w
                 = (Return (Some (sealed s iv text)), k, w)).
  { unfold namespace, bind, this, kv_get. by rewrite Hns, Hread. }
  erewrite bind_return by exact Hget.
  cbv beta iota. rewrite truthy_sealed. cbn [negb].
  unfold bind at 1. unfold this at 1.
  destruct (secrets k) as [|s0 l] eqn:Hl; [by apply elem_of_nil in Hs|].
  change (length (s0 :: l) =? 0)%nat with false. cbv iota.
  destruct (try_secrets_sealed (T:=T) s iv text (s0 :: l) r k w)
    as (k' & Hrun & Hc); try done.
  erewrite bind_return by exact Hrun. by exists k'.
Qed.

(** AES-GCM authenticates: under another key the ciphertext is
    rejected.  Then no list of secrets can forge. *)
Definition AEAD_authentic : Prop :=
  ∀ k k' iv m, k' ≠ k → AES_GCM_decrypt k' iv (AES_GCM_encrypt k iv m) = None.

Lemma unforged_authentic l s iv text :
  AEAD_correct → AEAD_authentic → unforged l s iv text.
Proof.
  intros Hcorrect Hauth s' d _.
  destruct (List.list_eq_dec Byte.byte_eq_dec (derive s') (derive s)) as [->|Hne].
  - rewrite Hcorrect. by intros [= <-].
  - by rewrite Hauth.
Qed.

(** With the one secret that sealed the text nothing can be forged. *)
Lemma unforged_single s iv text : AEAD_correct → unforged [s] s iv text.
Proof.
  intros Haead s' d ->%list_elem_of_singleton. rewrite Haead.
  by intros [= <-].
Qed.

End store.

End KVFacts.

(** ** Facts about the session store *)

Module SessionFacts.
Import JS Data World Monad MonadFacts KV KVFacts Session.

Lemma session_key_inj a b : "session:" +:+ a = "session:" +:+ b → a = b.
Proof. intros [= Heq]. exact Heq. Qed.

Lemma session_key_ne a b : a ≠ b → "session:" +:+ a ≠ "session:" +:+ b.
Proof. intros Hne Heq. by apply Hne, session_key_inj. Qed.

Lemma user_key_inj a b : "user_session:" +:+ a = "user_session:" +:+ b → a = b.
Proof. intros [= Heq]. exact Heq. Qed.

Lemma session_user_key_ne a b : "session:" +:+ a ≠ "user_session:" +:+ b.
Proof. discriminate. Qed.

Section store.
Context `{Platform}.

(** A session service as its constructor leaves it, up to the growth of
    the key cache: a namespace, the one secret [s], a sound cache. *)
Definition ready (ss : SessionService) (s : string) : Prop :=
  is_Some (kv (kvService ss)) ∧ secrets (kvService ss) = [s] ∧
  cache_ok (kvService ss).

(** [ss'] is [ss] after some calls. *)
Definition later (ss ss' : SessionService) : Prop :=
  s_env ss' = s_env ss ∧ cached (kvService ss) (kvService ss').

Lemma later_refl ss s : ready ss s → later ss ss.
Proof. intros (_ & _ & ?). split; [done|by apply cached_refl]. Qed.

Lemma later_ready ss ss' s : ready ss s → later ss ss' → ready ss' s.
Proof.
  intros (Hkv & Hs & _) (_ & Hkv' & Hs' & _ & Hok).
  split; [by rewrite Hkv'|]. split; [by rewrite Hs'|done].
Qed.

Lemma later_trans ss1 ss2 ss3 : later ss1 ss2 → later ss2 ss3 → later ss1 ss3.
Proof.
  intros [He1 Hc1] [He2 Hc2]. split; [congruence|by eapply cached_trans].
Qed.

Lemma new_ready ns s env ss :
  Session.new (Some ns) (Some s) env = Return ss →
  ready ss s ∧ s_env ss = env ∧ s ≠ EmptyString.
Proof.
  unfold Session.new.
  destruct (KV.new _ _ _) as [k|e] eqn:Hnew; [|done]. intros [= <-].
  destruct (new_cache_ok _ _ _ _ Hnew) as [Hok Hkv].
  unfold KV.new, secret_of, truthy_string in Hnew.
  destruct (String.eqb_spec s EmptyString) as [->|Hs]; simpl in Hnew; [done|].
  injection Hnew as <-. repeat split; simpl; eauto.
Qed.

(** A method of the store run through the field of the service. *)
Lemma kvs_run {A} (m : M KVService A) ss w r k' w' :
  m (kvService ss) w = (r, k', w') →
  kvs m ss w = (r, set_kvService k' ss, w').
Proof. apply on_field_run. Qed.

Lemma later_set ss k' :
  cached (kvService ss) k' → later ss (set_kvService k' ss).
Proof. by split. Qed.

Lemma kvs_put_run {T} `{JSON T} key (v : T) expiration ss w s :
  ready ss s →
  ∃ ss',
    kvs (KV.put key v expiration) ss w =
      (Return tt, ss', written s key v expiration w)
    ∧ later ss ss'.
Proof.
  intros (Hkv & Hs & Hok).
  destruct (put_run key v expiration (kvService ss) w s [] Hok Hkv Hs)
    as (k' & Hrun & Hc).
  eexists. split; [by apply kvs_run|by apply later_set].
Qed.

Lemma kvs_get_total {T} `{JSON T} key ss w s :
  ready ss s →
  ∃ r ss', kvs (KV.get (T:=T) key) ss w = (Return r, ss', w) ∧ later ss ss'.
Proof.
  intros (Hkv & Hs & Hok).
  destruct (get_total (T:=T) key (kvService ss) w Hok Hkv) as (r & k' & Hrun & Hc).
  eexists _, _. split; [by apply kvs_run|by apply later_set].
Qed.

Lemma kvs_get_missing {T} `{JSON T} key ss w s :
  ready ss s → read w key = None →
  ∃ ss', kvs (KV.get (T:=T) key) ss w = (Return None, ss', w) ∧ later ss ss'.
Proof.
  intros Hr Hread. pose proof Hr as (Hkv & Hs & Hok).
  eexists. split.
  - apply kvs_run. by apply get_missing.
  - apply later_set. by apply cached_refl.
Qed.

Lemma kvs_get_sealed {T} `{JSON T} key iv (v : T) ss w s :
  AEAD_correct → ready ss s → json_ok v →
  read w key = Some (sealed s iv (JSON_stringify v)) →
  ∃ ss', kvs (KV.get key) ss w = (Return (Some v), ss', w) ∧ later ss ss'.
Proof.
  intros Haead (Hkv & Hs & Hok) Hv Hread.
  destruct (get_sealed key s iv (JSON_stringify v) (Some v) (kvService ss) w)
    as (k' & Hrun & Hc); try done.
  - rewrite Hs. apply list_elem_of_singleton. done.
  - rewrite Hs. by apply unforged_single.
  - eexists. split; [by apply kvs_run|by apply later_set].
Qed.

Lemma deleteSession_run sessionId ss w s :
  ready ss s →
  ∃ ss', deleteSession sessionId ss w =
           (Return tt, ss', set_store (base.delete ("session:" +:+ sessionId)) w)
         ∧ later ss ss'.
Proof.
  intros Hr. pose proof Hr as (Hkv & Hs & Hok). eexists. split.
  - unfold deleteSession. eapply try_catch_return.
    apply kvs_run. by apply delete_run.
  - apply later_set. by apply cached_refl.
Qed.

Lemma getUserSessionId_total userId ss w s :
  ready ss s →
  ∃ r ss', getUserSessionId userId ss w = (Return r, ss', w) ∧ later ss ss'.
Proof.
  intros Hr.
  destruct (kvs_get_total (T:=string) ("user_session:" +:+ userId) ss w s Hr)
    as (r & ss' & Hrun & Hl).
  exists r, ss'. split; [|done]. by eapply try_catch_return.
Qed.

Lemma getUserSessionId_missing userId ss w s :
  ready ss s → read w ("user_session:" +:+ userId) = None →
  ∃ ss', getUserSessionId userId ss w = (Return None, ss', w) ∧ later ss ss'.
Proof.
  intros Hr Hread.
  destruct (kvs_get_missing (T:=string) _ ss w s Hr Hread) as (ss' & Hrun & Hl).
  exists ss'. split; [|done]. by eapply try_catch_return.
Qed.

Lemma getUserSessionId_sealed userId iv sessionId ss w s :
  AEAD_correct → ready ss s → json_ok sessionId →
  read w ("user_session:" +:+ userId) = Some (sealed s iv (JSON_stringify sessionId)) →
  ∃ ss', getUserSessionId userId ss w = (Return (Some sessionId), ss', w)
         ∧ later ss ss'.
Proof.
  intros Haead Hr Hv Hread.
  destruct (kvs_get_sealed _ iv sessionId ss w s Haead Hr Hv Hread)
    as (ss' & Hrun & Hl).
  exists ss'. split; [|done]. by eapply try_catch_return.
Qed.

(** The time at which what is written now stops being readable. *)
Definition expiry_of (w : World) : option Z :=
  Some (clock w / 1000 + thirty_days).

(** The world after the clean-up step of [createUserSession]. *)
Definition cleaned (existing : option string) (sessionId : string)
    (w : World) : World :=
  match existing with
  | Some e =>
      if truthy_string e && negb (String.eqb e sessionId)
      then set_store (base.delete ("session:" +:+ e)) w
      else w
  | None => w
  end.

(** The world after [createUserSession], [existing] being what the index
    answered for the user. *)
Definition created (s : string) (existing : option string)
    (sessionId userId : string) (data : SessionData) (w : World) : World :=
  written s ("user_session:" +:+ userId) sessionId (expiry_of w)
    (written s ("session:" +:+ sessionId) (stored data) (expiry_of w)
       (cleaned existing sessionId w)).

Lemma createSession_run sessionId data ss w s :
  ready ss s →
  ∃ ss', createSession sessionId data ss w =
           (Return tt, ss',
            written s ("session:" +:+ sessionId) (stored data) (expiry_of w) w)
         ∧ later ss ss'.
Proof.
  intros Hr. unfold createSession, bind, Date_now.
  by apply kvs_put_run.
Qed.

Lemma updateSession_run sessionId data ss w s :
  ready ss s →
  ∃ ss', updateSession sessionId data ss w =
           (Return tt, ss',
            written s ("session:" +:+ sessionId) (stored data) (expiry_of w) w)
         ∧ later ss ss'.
Proof.
  intros Hr. unfold updateSession, bind, Date_now.
  destruct (kvs_put_run ("session:" +:+ sessionId) (stored data)
              (expiry_of w) ss w s Hr) as (ss' & Hrun & Hl).
  exists ss'. split; [|done]. by eapply try_catch_return.
Qed.

Lemma createUserSession_run sessionId userId data ss w s existing ss1 :
  ready ss s →
  getUserSessionId userId ss w = (Return existing, ss1, w) → later ss ss1 →
  ∃ ss', createUserSession sessionId userId data ss w =
           (Return tt, ss', created s existing sessionId userId data w)
         ∧ later ss ss'.
Proof.
  intros Hr Hindex Hl1.
  pose proof (later_ready _ _ _ Hr Hl1) as Hr1.
  unfold createUserSession. unfold bind at 1. unfold Date_now at 1.
  erewrite bind_return by exact Hindex.
  assert (∃ ss2, (match existing with
                  | Some e =>
                      if truthy_string e && negb (String.eqb e sessionId)
                      then deleteSession e
                      else ret tt
                  | None => ret tt
                  end) ss1 w = (Return tt, ss2, cleaned existing sessionId w)
                 ∧ later ss1 ss2) as (ss2 & Hclean & Hl2).
  { unfold cleaned. destruct existing as [e|].
    - destruct (truthy_string e && negb (String.eqb e sessionId)).
      + by apply deleteSession_run with (s := s).
      + exists ss1. split; [done|by eapply later_refl].
    - exists ss1. split; [done|by eapply later_refl]. }
  erewrite bind_return by exact Hclean.
  pose proof (later_ready _ _ _ Hr1 Hl2) as Hr2.
  destruct (kvs_put_run ("session:" +:+ sessionId) (stored data)
              (expiry_of w) ss2 (cleaned existing sessionId w) s Hr2)
    as (ss3 & Hput & Hl3).
  assert (Hclock : clock (cleaned existing sessionId w) = clock w).
  { unfold cleaned. destruct existing as [e|]; [|done].
    by destruct (truthy_string e && negb (String.eqb e sessionId)). }
  erewrite bind_return by exact Hput.
  pose proof (later_ready _ _ _ Hr2 Hl3) as Hr3.
  destruct (kvs_put_run ("user_session:" +:+ userId) sessionId
              (expiry_of w) ss3
              (written s ("session:" +:+ sessionId) (stored data) (expiry_of w)
                 (cleaned existing sessionId w)) s Hr3)
    as (ss4 & Hput2 & Hl4).
  exists ss4. split; [exact Hput2|].
  eauto using later_trans.
Qed.

(** *** The token endpoint *)

Definition refresh_request (env : Bindings) (refreshToken : option string)
    : Request :=
  {| req_url := Auth.token_url env;
     req_form := [("client_id", CLIENT_ID env);
                  ("client_secret", CLIENT_SECRET env);
                  ("grant_type", "refresh_token");
                  ("refresh_token", to_string refreshToken)] |}.

(** The tokens of a reply that is a 2xx response with a JSON body. *)
Definition granted (reply : Reply) : option TokenResponse :=
  match reply with
  | Response true _ _ _ (Some tokens) => Some tokens
  | _ => None
  end.

(** What the provider answers to a refresh in the world [w]. *)
Definition refresh_reply (env : Bindings) (refreshToken : option string)
    (w : World) : Reply :=
  token_endpoint (requests w) (refresh_request env refreshToken).

Lemma refreshAccessToken_granted {S} refreshToken env (s : S) w tokens :
  granted (refresh_reply env refreshToken w) = Some tokens →
  Auth.refreshAccessToken refreshToken env s w =
    (Return tokens, s, add_request (refresh_request env refreshToken) w).
Proof.
  unfold refresh_reply, Auth.refreshAccessToken, bind, fetch.
  fold (refresh_request env refreshToken).
  destruct (token_endpoint _ _) as [|[] ? ? ? [t|]]; simpl; try done.
  by intros [= ->].
Qed.

Lemma refreshAccessToken_refused {S} refreshToken env (s : S) w :
  granted (refresh_reply env refreshToken w) = None →
  ∃ e, Auth.refreshAccessToken refreshToken env s w =
         (Throw e, s, add_request (refresh_request env refreshToken) w).
Proof.
  unfold refresh_reply, Auth.refreshAccessToken, bind, fetch.
  fold (refresh_request env refreshToken).
  destruct (token_endpoint _ _) as [|[] ? ? ? [t|]]; simpl; try done;
    by eexists.
Qed.

(** *** [getSession] *)

(** The expiry test of [getSession] on a stored record, at time [t] in
    milliseconds. *)
Definition expired (kvRes : StoredSession) (t : Z) : bool :=
  truthy_field (s_expiresAt kvRes) && field_lt (s_expiresAt kvRes) (t / 1000).

Definition returned (kvRes : StoredSession) : SessionData :=
  {| userId := s_userId kvRes;
     accessToken := s_accessToken kvRes;
     refreshToken := s_refreshToken kvRes;
     expiresAt := field_times (s_expiresAt kvRes) 1000 |}.

Lemma getSession_missing sessionId ss w s :
  ready ss s → read w ("session:" +:+ sessionId) = None →
  ∃ ss', getSession sessionId ss w = (Return None, ss', w) ∧ later ss ss'.
Proof.
  intros Hr Hread.
  destruct (kvs_get_missing (T:=StoredSession) _ ss w s Hr Hread)
    as (ss' & Hrun & Hl).
  exists ss'. split; [|done]. unfold getSession.
  eapply try_catch_return. by erewrite bind_return by exact Hrun.
Qed.

Lemma getSession_current sessionId iv kvRes ss w s :
  AEAD_correct → ready ss s → json_ok kvRes →
  read w ("session:" +:+ sessionId) = Some (sealed s iv (JSON_stringify kvRes)) →
  expired kvRes (clock w) = false →
  ∃ ss', getSession sessionId ss w = (Return (Some (returned kvRes)), ss', w)
         ∧ later ss ss'.
Proof.
  intros Haead Hr Hv Hread Hexp.
  destruct (kvs_get_sealed _ iv kvRes ss w s Haead Hr Hv Hread)
    as (ss' & Hrun & Hl).
  exists ss'. split; [|done]. unfold getSession.
  eapply try_catch_return. erewrite bind_return by exact Hrun.
  unfold bind, Date_now. unfold expired in Hexp. by rewrite Hexp.
Qed.

Lemma getSession_refreshed sessionId iv kvRes tokens ss w s :
  AEAD_correct → ready ss s → json_ok kvRes →
  read w ("session:" +:+ sessionId) = Some (sealed s iv (JSON_stringify kvRes)) →
  expired kvRes (clock w) = true →
  granted (refresh_reply (s_env ss) (s_refreshToken kvRes) w) = Some tokens →
  let data := refreshed kvRes tokens (clock w / 1000) in
  ∃ ss', getSession sessionId ss w =
           (Return (Some data), ss',
            written s ("session:" +:+ sessionId) (stored data) (expiry_of w)
              (add_request (refresh_request (s_env ss) (s_refreshToken kvRes)) w))
         ∧ later ss ss'.
Proof.
  intros Haead Hr Hv Hread Hexp Hgrant data.
  destruct (kvs_get_sealed _ iv kvRes ss w s Haead Hr Hv Hread)
    as (ss1 & Hrun & Hl1).
  pose proof (later_ready _ _ _ Hr Hl1) as Hr1.
  destruct Hl1 as [Henv Hc1]. rewrite <- Henv in Hgrant |- *.
  destruct (updateSession_run sessionId data ss1
              (add_request (refresh_request (s_env ss1) (s_refreshToken kvRes)) w)
              s Hr1) as (ss2 & Hupd & Hl2).
  exists ss2. split; [|by eapply later_trans; [split|]].
  unfold getSession. eapply try_catch_return.
  erewrite bind_return by exact Hrun.
  unfold bind at 1. unfold Date_now at 1.
  unfold expired in Hexp. rewrite Hexp.
  eapply try_catch_return.
  unfold bind at 1. unfold this at 1.
  erewrite bind_return by (by apply refreshAccessToken_granted).
  by erewrite bind_return by exact Hupd.
Qed.

Lemma getSession_purged sessionId iv kvRes ss w s :
  AEAD_correct → ready ss s → json_ok kvRes →
  read w ("session:" +:+ sessionId) = Some (sealed s iv (JSON_stringify kvRes)) →
  expired kvRes (clock w) = true →
  granted (refresh_reply (s_env ss) (s_refreshToken kvRes) w) = None →
  ∃ ss', getSession sessionId ss w =
           (Return None, ss',
            set_store (base.delete ("session:" +:+ sessionId))
              (add_request (refresh_request (s_env ss) (s_refreshToken kvRes)) w))
         ∧ later ss ss'.
Proof.
  intros Haead Hr Hv Hread Hexp Hgrant.
  destruct (kvs_get_sealed _ iv kvRes ss w s Haead Hr Hv Hread)
    as (ss1 & Hrun & Hl1).
  pose proof (later_ready _ _ _ Hr Hl1) as Hr1.
  destruct Hl1 as [Henv Hc1]. rewrite <- Henv in Hgrant |- *.
  destruct (refreshAccessToken_refused _ _ ss1 w Hgrant) as (e & Hthrow).
  destruct (deleteSession_run sessionId ss1
              (add_request (refresh_request (s_env ss1) (s_refreshToken kvRes)) w)
              s Hr1) as (ss2 & Hdel & Hl2).
  exists ss2. split; [|by eapply later_trans; [split|]].
  unfold getSession. eapply try_catch_return.
  erewrite bind_return by exact Hrun.
  unfold bind at 1. unfold Date_now at 1.
  unfold expired in Hexp. rewrite Hexp.
  erewrite try_catch_throw.
  2:{ unfold bind at 1. unfold this at 1.
      by erewrite bind_throw by exact Hthrow. }
  by erewrite bind_return by exact Hdel.
Qed.


End store.

End SessionFacts.

(** ** Facts about the PKCE parameters and the callback *)

Module AuthFacts.
Import JS Data World Monad MonadFacts KV KVFacts Auth.
Import Chars CharsFacts Base64 Base64Facts.

(** The characters of base64url: letters, digits, [-] and [_]. *)
Definition url_char (c : ascii) : bool :=
  let n := N_of_ascii c in
  ((n =? 45) || (n =? 95)
   || ((48 <=? n) && (n <=? 57))
   || ((65 <=? n) && (n <=? 90))
   || ((97 <=? n) && (n <=? 122)))%N.

Definition url_char_ok (n : N) : bool :=
  let c := url_safe (char_of n) in
  url_char c
  && negb (Ascii.eqb c pad)
  && Ascii.eqb (Callback.url_unsafe c) (char_of n)
  && match form_encode_char c with
     | [c'] => Ascii.eqb c' c
     | _ => false
     end.

Lemma url_char_table n : (n < 64)%N → url_char_ok n = true.
Proof.
  intros Hn.
  assert (Hall : forallb (λ k, url_char_ok (N.of_nat k)) (seq 0 64) = true)
    by (vm_compute; reflexivity).
  rewrite forallb_forall in Hall.
  rewrite <- (N2Nat.id n). apply Hall, in_seq. lia.
Qed.

(** The base64url text of a buffer: one character for each six-bit
    group. *)
Definition url_text (bs : list byte) : list ascii :=
  map url_safe (map char_of (sextets bs)).

Lemma url_text_chars bs :
  Forall (λ c, url_char c = true ∧ c ≠ pad ∧ form_encode_char c = [c])
         (url_text bs).
Proof.
  unfold url_text. rewrite <- list_fmap_compose. apply Forall_fmap.
  eapply Forall_impl; [apply sextets_bounded|].
  intros n Hn. simpl. pose proof (url_char_table n Hn) as H.
  unfold url_char_ok in H.
  apply andb_prop in H as [H H4]. apply andb_prop in H as [H _].
  apply andb_prop in H as [H1 H2].
  split; [done|]. split.
  { apply negb_true_iff in H2. by apply Ascii.eqb_neq. }
  destruct (form_encode_char (url_safe (char_of n))) as [|c' [|]]; try done.
  by apply Ascii.eqb_eq in H4 as ->.
Qed.

Lemma base64UrlEncode_text bs :
  base64UrlEncode bs = string_of_list_ascii (url_text bs).
Proof.
  unfold base64UrlEncode, encode, url_text. f_equal.
  rewrite map_app, padding_repeat, map_repeat.
  change (url_safe pad) with "="%char.
  apply strip_trailing_repeat.
  intros Hin. pose proof (url_text_chars bs) as Hall.
  rewrite Forall_forall in Hall. by destruct (Hall _ Hin) as (_ & ? & _).
Qed.

Lemma length_string_of_list_ascii l :
  String.length (string_of_list_ascii l) = length l.
Proof. induction l as [|c l IH]; simpl; [done|]. by rewrite IH. Qed.

Lemma length_base64UrlEncode bs :
  String.length (base64UrlEncode bs) = length (sextets bs).
Proof.
  rewrite base64UrlEncode_text, length_string_of_list_ascii.
  unfold url_text. by rewrite !length_map.
Qed.

(** Undoing the two replacements gives the base64 characters back. *)
Lemma url_unsafe_url_text bs :
  map Callback.url_unsafe (url_text bs) = map char_of (sextets bs).
Proof.
  unfold url_text. pose proof (sextets_bounded bs) as Hb.
  induction Hb as [|n l Hn _ IH]; simpl; [done|]. rewrite IH. f_equal.
  pose proof (url_char_table n Hn) as H. unfold url_char_ok in H.
  apply andb_prop in H as [H _]. apply andb_prop in H as [_ H].
  by apply Ascii.eqb_eq.
Qed.

(** The forgiving decoder reads the unpadded text of a buffer. *)
Lemma decode_unpadded bs : decode (map char_of (sextets bs)) = Some bs.
Proof.
  pose proof (sextets_bounded bs) as Hb. unfold decode.
  rewrite filter_all.
  2:{ apply Forall_fmap. eapply Forall_impl; [exact Hb|].
      intros n Hn. simpl. by rewrite char_of_not_whitespace. }
  assert (Hstrip : strip_padding (map char_of (sextets bs))
                   = map char_of (sextets bs)).
  { rewrite <- (app_nil_r (map char_of (sextets bs))) at 1.
    apply (strip_padding_padding _ []). by apply pad_not_in_chars. }
  rewrite Hstrip.
  assert (Hlen : (length (if (length (map char_of (sextets bs)) mod 4 =? 0)%nat
                          then map char_of (sextets bs)
                          else map char_of (sextets bs)) mod 4 =? 1)%nat = false).
  { destruct (_ =? 0)%nat; rewrite length_map; apply Nat.eqb_neq,
      length_sextets_mod4. }
  rewrite Hlen.
  destruct (length (map char_of (sextets bs)) mod 4 =? 0)%nat;
    rewrite mapM_value_of_char_of by done;
    cbn [fmap option_fmap option_map]; by rewrite unsextets_sextets.
Qed.

(** A base64url text decodes, the way [decodeJwtPayload] decodes one, to
    the buffer it was made from: the text carries every byte. *)
Lemma base64UrlEncode_decodes bs :
  atob (string_of_list_ascii
          (map Callback.url_unsafe (list_ascii_of_string (base64UrlEncode bs))))
  = Some bs.
Proof.
  rewrite base64UrlEncode_text, list_ascii_of_string_of_list_ascii,
    url_unsafe_url_text.
  unfold atob. by rewrite list_ascii_of_string_of_list_ascii, decode_unpadded.
Qed.

Lemma base64UrlEncode_inj bs1 bs2 :
  base64UrlEncode bs1 = base64UrlEncode bs2 → bs1 = bs2.
Proof.
  intros Heq. pose proof (base64UrlEncode_decodes bs1) as H1.
  rewrite Heq, base64UrlEncode_decodes in H1. by injection H1.
Qed.

(** A base64url text goes into a query string as it is. *)
Lemma form_encode_base64UrlEncode bs :
  form_encode (base64UrlEncode bs) = base64UrlEncode bs.
Proof.
  rewrite base64UrlEncode_text. unfold form_encode.
  rewrite list_ascii_of_string_of_list_ascii. f_equal.
  pose proof (url_text_chars bs) as Hall.
  induction Hall as [|c l (_ & _ & Hc) _ IH]; simpl; [done|].
  by rewrite Hc, IH.
Qed.

(** Only base64url characters, and no padding. *)
Definition base64url (s : string) : Prop :=
  Forall (λ c, url_char c = true ∧ c ≠ pad) (list_ascii_of_string s).

Lemma base64UrlEncode_base64url bs : base64url (base64UrlEncode bs).
Proof.
  unfold base64url. rewrite base64UrlEncode_text,
    list_ascii_of_string_of_list_ascii.
  eapply Forall_impl; [apply url_text_chars|]. by intros c (? & ? & _).
Qed.

Lemma length_sextets_32 bs : length bs = 32%nat → length (sextets bs) = 43%nat.
Proof.
  intros Hlen. destruct (length_sextets bs) as (k & [[? ->]|[[? ->]|[? ->]]]); lia.
Qed.

Lemma length_sextets_16 bs : length bs = 16%nat → length (sextets bs) = 22%nat.
Proof.
  intros Hlen. destruct (length_sextets bs) as (k & [[? ->]|[[? ->]|[? ->]]]); lia.
Qed.

Section callback.
Context `{Platform}.

(** The store that [initiateAuth] and [processAuthCallback] build:
    encryption is optional there. *)
Definition state_store (env : Bindings) : KVService :=
  {| kv := SESSIONS_KV env;
     secrets := match SESSION_ENC_SECRET env with
                | Some s => if truthy_string s then [s] else []
                | None => []
                end;
     derivedKeys := ∅;
     requireSecret := false |}.

Lemma new_state_store env ns :
  SESSIONS_KV env = Some ns →
  KV.new (Some ns) (secret_of (SESSION_ENC_SECRET env)) (Some (Some false))
  = Return (state_store env).
Proof.
  intros Hns. unfold KV.new, state_store. rewrite Hns. simpl.
  by destruct (SESSION_ENC_SECRET env).
Qed.

Lemma state_store_kv env : is_Some (SESSIONS_KV env) → is_Some (kv (state_store env)).
Proof. done. Qed.

(** A callback that carries a code and a state and no error. *)
Definition well_formed (c : Context) (state : string) : Prop :=
  truthy_opt (query_error c) = false
  ∧ truthy_opt (query_code c) = true
  ∧ query_state c = Some state ∧ state ≠ EmptyString
  ∧ is_Some (SESSIONS_KV (env c)).

Lemma processAuthCallback_lookup {S} c state (s : S) w :
  well_formed c state →
  processAuthCallback c s w
  = bind (with_object (state_store (env c))
            (bind (KV.get ("auth_state:" +:+ state))
               (λ authState,
                  match authState with
                  | Some authState =>
                      bind (KV.delete ("auth_state:" +:+ state))
                        (λ _, ret (codeVerifier authState))
                  | None => throw "Invalid or expired OAuth state"
                  end)))
         (λ codeVerifier,
            if negb (truthy_string codeVerifier) then
              throw "Invalid state or missing code verifier"
            else exchangeCodeForToken (to_string (query_code c)) codeVerifier (env c))
         s w.
Proof.
  intros (Herr & Hcode & Hstate & Hne & [ns Hns]).
  unfold processAuthCallback. rewrite Herr, Hcode, Hstate. simpl.
  unfold truthy_string. apply String.eqb_neq in Hne as ->. simpl.
  rewrite Hns. unfold bind at 1 3. unfold bind at 1.
  unfold lift. by rewrite (new_state_store _ _ Hns).
Qed.

(** The lookup found nothing: the callback fails and changes nothing. *)
Lemma processAuthCallback_unknown {S} c state (s : S) w :
  well_formed c state →
  read w ("auth_state:" +:+ state) = None →
  processAuthCallback c s w = (Throw "Invalid or expired OAuth state", s, w).
Proof.
  intros Hc Hread. rewrite (processAuthCallback_lookup c state) by done.
  destruct Hc as (_ & _ & _ & _ & Hns).
  eapply bind_throw. eapply with_object_run.
  erewrite bind_return
    by (apply get_missing; [by apply state_store_kv|done]).
  reflexivity.
Qed.

(** Whatever else a callback carries, with a state that has no entry it
    throws before any request is made. *)
Lemma processAuthCallback_rejects {S} c state (s : S) w :
  query_state c = Some state →
  read w ("auth_state:" +:+ state) = None →
  ∃ e, processAuthCallback c s w = (Throw e, s, w).
Proof.
  intros Hstate Hread.
  destruct (truthy_opt (query_error c)) eqn:Herr.
  { unfold processAuthCallback. rewrite Herr. by eexists. }
  destruct (truthy_opt (query_code c)) eqn:Hcode.
  2:{ unfold processAuthCallback. rewrite Herr, Hcode. by eexists. }
  destruct (String.eqb_spec state EmptyString) as [->|Hne].
  { unfold processAuthCallback. rewrite Herr, Hcode, Hstate. by eexists. }
  destruct (SESSIONS_KV (env c)) as [ns|] eqn:Hns.
  - eexists. apply processAuthCallback_unknown with (state := state); [|done].
    repeat split; try done.
  - unfold processAuthCallback. rewrite Herr, Hcode, Hstate. simpl.
    unfold truthy_string. apply String.eqb_neq in Hne as ->. simpl.
    rewrite Hns. by eexists.
Qed.

(** The lookup found the entry: it is gone when the callback ends,
    however the callback ends. *)
Lemma processAuthCallback_consumes {S} c state (s : S) w (a : AuthState) k' :
  well_formed c state →
  KV.get ("auth_state:" +:+ state) (state_store (env c)) w
  = (Return (Some a), k', w) →
  cached (state_store (env c)) k' →
  ∃ r w1,
    processAuthCallback c s w = (r, s, w1)
    ∧ store w1 = base.delete ("auth_state:" +:+ state) (store w).
Proof.
  intros Hc Hget Hk. rewrite (processAuthCallback_lookup c state) by done.
  destruct Hc as (_ & _ & _ & _ & Hns).
  assert (Hobj : with_object (S:=S) (state_store (env c))
            (bind (KV.get ("auth_state:" +:+ state))
               (λ authState,
                  match authState with
                  | Some authState =>
                      bind (KV.delete ("auth_state:" +:+ state))
                        (λ _, ret (codeVerifier authState))
                  | None => throw "Invalid or expired OAuth state"
                  end)) s w
          = (Return (codeVerifier a), s,
             set_store (base.delete ("auth_state:" +:+ state)) w)).
  { eapply with_object_run. erewrite bind_return by exact Hget.
    cbv beta iota. erewrite bind_return
      by (apply delete_run; destruct Hk as (-> & _); by apply state_store_kv).
    reflexivity. }
  erewrite bind_return by exact Hobj.
  destruct (negb (truthy_string (codeVerifier a))).
  - by eexists _, _.
  - unfold exchangeCodeForToken, bind, fetch.
    destruct (token_endpoint _ _) as [|[] ? ? ? [t|]]; by eexists _, _.
Qed.

End callback.

End AuthFacts.

(** ** Facts about the query string *)

Module QueryFacts.
Import JS KVFacts Auth AuthFacts Chars CharsFacts.

Lemma split_cons c a b : c ∉ a → split c (a ++ c :: b) = a :: split c b.
Proof.
  induction a as [|x xs IH]; intros Ha; simpl.
  - by rewrite Ascii.eqb_refl.
  - apply not_elem_of_cons in Ha as [Hx Hxs].
    destruct (Ascii.eqb_spec x c) as [->|_]; [done|].
    by rewrite IH.
Qed.

Definition separator_free (l : list ascii) : bool :=
  forallb (λ c, negb (Ascii.eqb c "&") && negb (Ascii.eqb c "=")) l.

Lemma separator_free_ampersand l : separator_free l = true → "&"%char ∉ l.
Proof.
  unfold separator_free. rewrite forallb_forall.
  intros Hall Hin%list_elem_of_In%Hall. by vm_compute in Hin.
Qed.

Lemma separator_free_equals l : separator_free l = true → "="%char ∉ l.
Proof.
  unfold separator_free. rewrite forallb_forall.
  intros Hall Hin%list_elem_of_In%Hall. by vm_compute in Hin.
Qed.

Lemma separator_free_app a b :
  separator_free a = true → separator_free b = true →
  separator_free (a ++ b) = true.
Proof. unfold separator_free. rewrite forallb_app. by intros -> ->. Qed.

Lemma form_encode_char_table c : separator_free (form_encode_char c) = true.
Proof.
  assert (Hall : forallb (λ n, separator_free
                                 (form_encode_char (ascii_of_N (N.of_nat n))))
                         (seq 0 256) = true)
    by (vm_compute; reflexivity).
  rewrite forallb_forall in Hall.
  rewrite <- (ascii_N_embedding c), <- (N2Nat.id (N_of_ascii c)).
  apply Hall, in_seq. pose proof (N_ascii_bounded c). lia.
Qed.

Lemma form_encode_separator_free s :
  separator_free (list_ascii_of_string (form_encode s)) = true.
Proof.
  unfold form_encode. rewrite list_ascii_of_string_of_list_ascii.
  induction (list_ascii_of_string s) as [|c l IH]; [done|]. simpl.
  apply separator_free_app; [apply form_encode_char_table|exact IH].
Qed.

(** One [name=value] of the query string. *)
Definition pair_text (p : string * string) : list ascii :=
  list_ascii_of_string (form_encode (fst p)) ++ "="%char
    :: list_ascii_of_string (form_encode (snd p)).

Lemma pair_text_chars p :
  list_ascii_of_string (form_encode (fst p) +:+ "=" +:+ form_encode (snd p))
  = pair_text p.
Proof. by rewrite list_ascii_of_string_app. Qed.

Lemma pair_text_no_ampersand p : "&"%char ∉ pair_text p.
Proof.
  unfold pair_text. intros Hin.
  apply elem_of_app in Hin as [Hin|Hin].
  - by apply (separator_free_ampersand _ (form_encode_separator_free (fst p))).
  - apply elem_of_cons in Hin as [Hin|Hin]; [discriminate|].
    by apply (separator_free_ampersand _ (form_encode_separator_free (snd p))).
Qed.

Lemma split_pair_text p :
  split "=" (pair_text p)
  = [list_ascii_of_string (form_encode (fst p));
     list_ascii_of_string (form_encode (snd p))].
Proof.
  unfold pair_text. apply split_one.
  - apply separator_free_equals, form_encode_separator_free.
  - apply separator_free_equals, form_encode_separator_free.
Qed.

Lemma split_query p params :
  split "&" (list_ascii_of_string (URLSearchParams_toString (p :: params)))
  = map pair_text (p :: params).
Proof.
  unfold URLSearchParams_toString. revert p.
  induction params as [|q params IH]; intros p.
  - simpl. rewrite pair_text_chars. apply split_none, pair_text_no_ampersand.
  - change (list_ascii_of_string (String.concat "&" (map _ (p :: q :: params))))
      with (list_ascii_of_string
              ((form_encode (fst p) +:+ "=" +:+ form_encode (snd p)) +:+ "&"
               +:+ String.concat "&"
                     (map (λ p, form_encode (fst p) +:+ "=" +:+ form_encode (snd p))
                          (q :: params)))).
    rewrite list_ascii_of_string_app, pair_text_chars.
    change (list_ascii_of_string ("&" +:+ ?s)) with ("&"%char :: list_ascii_of_string s).
    rewrite split_cons by apply pair_text_no_ampersand.
    by rewrite IH.
Qed.

(** *** Reading a query string

    How the receiver of a URL reads its query, as [URLSearchParams] parses
    it: the parts between [&], the empty ones skipped, each cut at its
    first [=] into name and value, a [+] read as a space and an escape
    [%xx] as the byte it names. *)

Definition hex_digit_value (c : ascii) : option N :=
  let n := N_of_ascii c in
  if ((48 <=? n) && (n <=? 57))%N then Some (n - 48)%N
  else if ((65 <=? n) && (n <=? 70))%N then Some (n - 55)%N
  else if ((97 <=? n) && (n <=? 102))%N then Some (n - 87)%N
  else None.

Fixpoint percent_decode (l : list ascii) : list ascii :=
  match l with
  | [] => []
  | c :: r =>
      if Ascii.eqb c "+" then " "%char :: percent_decode r
      else if Ascii.eqb c "%" then
        match r with
        | h :: lo :: r' =>
            match hex_digit_value h, hex_digit_value lo with
            | Some a, Some b => ascii_of_N (16 * a + b) :: percent_decode r'
            | _, _ => c :: percent_decode r
            end
        | _ => c :: percent_decode r
        end
      else c :: percent_decode r
  end.

(** The text before the first [c], and the text after it. *)
Fixpoint cut (c : ascii) (l : list ascii) : list ascii * list ascii :=
  match l with
  | [] => ([], [])
  | x :: r =>
      if Ascii.eqb x c then ([], r)
      else let '(a, b) := cut c r in (x :: a, b)
  end.

Definition query_parameters (query : string) : list (string * string) :=
  map (λ part, let '(name, value) := cut "=" part in
               (string_of_list_ascii (percent_decode name),
                string_of_list_ascii (percent_decode value)))
      (List.filter (λ part, negb (length part =? 0)%nat)
                   (split "&" (list_ascii_of_string query))).

Definition decodes_to (c : ascii) (l : list ascii) : bool :=
  match l with
  | [x] =>
      if Ascii.eqb x "+" then Ascii.eqb c " "
      else negb (Ascii.eqb x "%") && Ascii.eqb x c
  | [p; h; lo] =>
      Ascii.eqb p "%"
      && match hex_digit_value h, hex_digit_value lo with
         | Some a, Some b => Ascii.eqb (ascii_of_N (16 * a + b)) c
         | _, _ => false
         end
  | _ => false
  end.

Lemma form_encode_char_decodes c : decodes_to c (form_encode_char c) = true.
Proof.
  assert (Hall : forallb (λ n, let c := ascii_of_N (N.of_nat n) in
                               decodes_to c (form_encode_char c))
                         (seq 0 256) = true)
    by (vm_compute; reflexivity).
  rewrite forallb_forall in Hall.
  rewrite <- (ascii_N_embedding c), <- (N2Nat.id (N_of_ascii c)).
  apply Hall, in_seq. pose proof (N_ascii_bounded c). lia.
Qed.

Lemma percent_decode_char c r :
  percent_decode (form_encode_char c ++ r) = c :: percent_decode r.
Proof.
  pose proof (form_encode_char_decodes c) as Hc. unfold decodes_to in Hc.
  destruct (form_encode_char c) as [|x [|h [|lo [|y l]]]]; try done.
  - simpl. destruct (Ascii.eqb x "+").
    + by apply Ascii.eqb_eq in Hc as ->.
    + apply andb_prop in Hc as [Hx Hc]. apply negb_true_iff in Hx.
      rewrite Hx. by apply Ascii.eqb_eq in Hc as ->.
  - apply andb_prop in Hc as [Hp Hc]. apply Ascii.eqb_eq in Hp as ->.
    cbn [app percent_decode]. change (Ascii.eqb "%" "+") with false.
    change (Ascii.eqb "%" "%") with true. cbv iota.
    destruct (hex_digit_value h) as [a|]; [|done].
    destruct (hex_digit_value lo) as [b|]; [|done].
    by apply Ascii.eqb_eq in Hc as ->.
Qed.

Lemma percent_decode_form_encode s :
  percent_decode (list_ascii_of_string (form_encode s)) = list_ascii_of_string s.
Proof.
  unfold form_encode. rewrite list_ascii_of_string_of_list_ascii.
  induction (list_ascii_of_string s) as [|c l IH]; [done|]. simpl.
  by rewrite percent_decode_char, IH.
Qed.

Lemma cut_at c a b : c ∉ a → cut c (a ++ c :: b) = (a, b).
Proof.
  induction a as [|x xs IH]; intros Ha; simpl.
  - by rewrite Ascii.eqb_refl.
  - apply not_elem_of_cons in Ha as [Hx Hxs].
    destruct (Ascii.eqb_spec x c) as [->|_]; [done|].
    by rewrite IH.
Qed.

Lemma read_pair_text p :
  (let '(name, value) := cut "=" (pair_text p) in
   (string_of_list_ascii (percent_decode name),
    string_of_list_ascii (percent_decode value))) = p.
Proof.
  unfold pair_text.
  rewrite cut_at by apply separator_free_equals, form_encode_separator_free.
  rewrite !percent_decode_form_encode, !string_of_list_ascii_of_string.
  by destruct p.
Qed.

(** What is written into a query is what is read from it. *)
Lemma query_parameters_toString params :
  query_parameters (URLSearchParams_toString params) = params.
Proof.
  unfold query_parameters. destruct params as [|p params]; [done|].
  rewrite split_query.
  rewrite filter_all.
  2:{ apply Forall_forall. intros part Hin%list_elem_of_In%in_map_iff.
      destruct Hin as (q & <- & _). unfold pair_text.
      by destruct (list_ascii_of_string (form_encode (fst q))). }
  rewrite map_map. induction (p :: params) as [|q l IH]; [done|].
  cbn [map]. by rewrite read_pair_text, IH.
Qed.

End QueryFacts.

(** * The properties of the specification *)

(** ** The encrypted store *)

Module StoreClaims.
Import JS Data World Monad MonadFacts KV KVFacts.

(** No secret is supplied: the argument is absent, or empty, or a list of
    empty strings. *)
Definition no_secret (secret : SecretArg) : Prop :=
  match secret with
  | NoSecret => True
  | OneSecret s => s = EmptyString
  | SecretList l => Forall (λ s, s = EmptyString) l
  end.

Definition missing_secret_error : string :=
  "KV encryption required but no `SESSION_ENC_SECRET` provided".

Lemma filter_truthy_empty l :
  Forall (λ s, s = EmptyString) l → List.filter truthy_string l = [].
Proof. induction 1 as [|s l -> _ IH]; [done|]. simpl. exact IH. Qed.

(** C8.  With encryption mandatory (the option [requireSecret] is not
    [false]) and no non-empty secret supplied, the constructor of the
    encrypted store throws; nothing that follows the construction runs and
    the world is untouched.  The session store always passes
    [requireSecret: true], so it throws as well when its secret is absent
    or empty. *)
Theorem construction_fails_without_secret
    (ns : option KVNamespace) (secret : SecretArg)
    (options : option (option bool)) :
  options ≠ Some (Some false) →
  no_secret secret →
  KV.new ns secret options = Throw missing_secret_error
  ∧ (∀ S A (rest : KVService → M S A) (s : S) (w : World),
       bind (lift (KV.new ns secret options)) rest s w
       = (Throw missing_secret_error, s, w))
  ∧ (∀ o env, truthy_opt o = false →
       Session.new ns o env = Throw missing_secret_error).
Proof.
  intros Hopt Hsecret.
  assert (Hnew : ∀ secret', no_secret secret' → ∀ options',
            options' ≠ Some (Some false) →
            KV.new ns secret' options' = Throw missing_secret_error).
  { clear. intros secret Hsecret options Hopt. unfold KV.new.
    assert (Hreq : match options with
                   | Some (Some false) => false
                   | _ => true
                   end = true) by (by destruct options as [[[]|]|]).
    rewrite Hreq.
    destruct secret as [|s|l]; simpl in Hsecret.
    - done.
    - by subst s.
    - by rewrite filter_truthy_empty. }
  split; [by apply Hnew|]. split.
  - intros S A rest s w. unfold bind, lift. by rewrite Hnew.
  - intros o env Ho. unfold Session.new.
    rewrite Hnew; [done| |done].
    destruct o as [s|]; simpl in *; [|done].
    unfold truthy_string in Ho. apply negb_false_iff in Ho.
    by apply String.eqb_eq.
Qed.

Lemma construction_fails_without_secret_witness :
  KV.new (Some SESSIONS_KV_namespace) (SecretList [EmptyString; EmptyString]) None
    = Throw missing_secret_error
  ∧ Session.new (Some SESSIONS_KV_namespace) None Sample.bindings
    = Throw missing_secret_error.
Proof.
  destruct (construction_fails_without_secret
              (Some SESSIONS_KV_namespace) (SecretList [EmptyString; EmptyString]) None)
    as (Hnew & _ & Hsession).
  - discriminate.
  - simpl. repeat constructor.
  - split; [exact Hnew|]. apply Hsession. reflexivity.
Defined.

Section round_trip.
Context `{Platform}.

(** The store can be used: it has a namespace, and its key cache holds
    derived keys only (it is empty after construction). *)
Definition usable (k : KVService) : Prop := is_Some (kv k) ∧ cache_ok k.

(** An entry written with [expiration] is readable at time [t]. *)
Definition readable_at (expiration : option Z) (t : Z) : Prop :=
  match expiration with
  | Some x => t / 1000 < x
  | None => True
  end.

(** A store that the constructor built over a namespace is usable. *)
Lemma new_usable ns secret options k :
  KV.new (Some ns) secret options = Return k → usable k.
Proof.
  intros Hnew. destruct (new_cache_ok _ _ _ _ Hnew) as [Hok Hkv].
  split; [|done]. rewrite Hkv. by eexists.
Qed.

Lemma read_written {T} `{JSON T} s key (v : T) expiration w t :
  readable_at expiration t →
  read (set_clock t (written s key v expiration w)) key
  = Some (sealed s (fresh w 12) (JSON_stringify v)).
Proof.
  intros Hlive. unfold read, written. simpl.
  rewrite lookup_insert_eq. unfold live. simpl.
  destruct expiration as [x|]; [|done].
  simpl in Hlive. by apply Z.ltb_lt in Hlive as ->.
Qed.

(** C5.  Round trip through the encrypted store under key rotation.  A
    value [v] that survives JSON serialisation is written by a store
    whose primary secret is [s]; any store whose secret list contains
    [s], in any position, reads [v] back, at any time before the entry
    expires.  AES-GCM is taken to decrypt what it encrypted and to
    authenticate: no configured secret opens the ciphertext to another
    plaintext. *)
Theorem rotation_round_trip {T} `{JSON T} (v : T) (key : string)
    (expiration : option Z) (writer reader : KVService) (w : World)
    (s : string) (rest : list string) (t : Z) :
  AEAD_correct →
  usable writer → usable reader →
  secrets writer = s :: rest →
  s ∈ secrets reader →
  unforged (secrets reader) s (fresh w 12) (JSON_stringify v) →
  json_ok v →
  readable_at expiration t →
  ∃ writer' reader' w',
    put key v expiration writer w = (Return tt, writer', w')
    ∧ get key reader (set_clock t w') = (Return (Some v), reader', set_clock t w').
Proof.
  intros Haead [Hkvw Hokw] [Hkvr Hokr] Hprimary Hin Hforge Hv Hlive.
  destruct (put_run key v expiration writer w s rest Hokw Hkvw Hprimary)
    as (writer' & Hput & _).
  destruct (get_sealed key s (fresh w 12) (JSON_stringify v) (Some v) reader
              (set_clock t (written s key v expiration w)))
    as (reader' & Hget & _); try done.
  - by apply read_written.
  - by exists writer', reader', (written s key v expiration w).
Qed.

End round_trip.

Import Sample.

(** Two stores over the sample platform: one from before a rotation, one
    from after it. *)
Definition store_with (l : list string) : KVService :=
  {| kv := Some SESSIONS_KV_namespace; secrets := l; derivedKeys := ∅;
     requireSecret := true |}.

Lemma store_with_new l :
  Forall (λ s, truthy_string s = true) l → l ≠ [] →
  KV.new (Some SESSIONS_KV_namespace) (SecretList l) None = Return (store_with l).
Proof.
  intros Hl Hne. unfold KV.new. rewrite CharsFacts.filter_all by done.
  by destruct l.
Qed.

Lemma sample_AEAD_correct : AEAD_correct.
Proof.
  intros k iv m. simpl. unfold decrypt, encrypt. rewrite app_assoc.
  induction (k ++ iv) as [|b p IH]; [done|]. simpl.
  by rewrite (Byte.byte_dec_lb (x:=b) eq_refl).
Qed.

Lemma rotation_round_trip_witness :
  ∃ writer' reader' w',
    put "k" "v" None (store_with ["old"]) (world_at 0)
      = (Return tt, writer', w')
    ∧ get "k" (store_with ["new"; "old"]) (set_clock 5000 w')
      = (Return (Some "v"), reader', set_clock 5000 w').
Proof.
  apply (rotation_round_trip "v" "k" None (store_with ["old"])
           (store_with ["new"; "old"]) (world_at 0) "old" [] 5000).
  - exact sample_AEAD_correct.
  - eapply new_usable, (store_with_new ["old"]); [by repeat constructor|done].
  - eapply new_usable, (store_with_new ["new"; "old"]); [by repeat constructor|done].
  - reflexivity.
  - simpl. right. left.
  - intros s' d Hin Hdec.
    apply elem_of_cons in Hin as [->|Hin];
      [|apply list_elem_of_singleton in Hin as ->];
      vm_compute in Hdec; [discriminate|].
    injection Hdec as <-. reflexivity.
  - reflexivity.
  - exact I.
Defined.

End StoreClaims.

(** ** The session store *)

Module SessionClaims.
Import JS Data World Monad MonadFacts KV KVFacts Session SessionFacts.

Section claims.
Context `{Platform}.

(** The record [p] is what the namespace holds, sealed under [s], for
    the session [sessionId]. *)
Definition persisted (w : World) (s sessionId : string) (p : StoredSession)
    : Prop :=
  ∃ iv expiration,
    store w !! ("session:" +:+ sessionId)
    = Some {| kv_value := sealed s iv (JSON_stringify p);
              kv_expiration := expiration |}.

(** The namespace holds [p] for the session and the entry is readable at
    the world's time. *)
Definition stored_session (w : World) (s sessionId : string)
    (p : StoredSession) : Prop :=
  ∃ iv, read w ("session:" +:+ sessionId)
        = Some (sealed s iv (JSON_stringify p)).

Lemma persisted_written {T} `{JSON T} w s sessionId p key (v : T) x :
  key ≠ "session:" +:+ sessionId →
  persisted w s sessionId p → persisted (written s key v x w) s sessionId p.
Proof.
  intros Hne (iv & e & Hp). exists iv, e. unfold written. simpl.
  by rewrite lookup_insert_ne.
Qed.

Lemma persisted_written_eq w s sessionId p x :
  persisted (written s ("session:" +:+ sessionId) p x w) s sessionId p.
Proof.
  exists (fresh w 12), x. unfold written. simpl.
  by rewrite lookup_insert_eq.
Qed.

Lemma stored_at w s sessionId p iv x t :
  store w !! ("session:" +:+ sessionId)
  = Some {| kv_value := sealed s iv (JSON_stringify p);
            kv_expiration := Some x |} →
  t / 1000 < x →
  stored_session (set_clock t w) s sessionId p.
Proof.
  intros Hp Hlive. exists iv. unfold read. simpl. rewrite Hp.
  unfold live. simpl. by apply Z.ltb_lt in Hlive as ->.
Qed.

(** C10.  A stored record whose [expiresAt] is falsy (0, or absent, or
    [null]) is returned as it is, whatever the time: the namespace, the
    list of requests sent to the provider and the rest of the world are
    the same after the call, so no refresh was attempted.  The returned
    [expiresAt] is the stored one times 1000: 0 for 0, and [NaN] for an
    absent one. *)
Theorem falsy_expiry_never_refreshes (s sessionId : string)
    (ss : SessionService) (w : World) (kvRes : StoredSession) :
  AEAD_correct → ready ss s → json_ok kvRes →
  stored_session w s sessionId kvRes →
  truthy_field (s_expiresAt kvRes) = false →
  ∃ ss' data,
    getSession sessionId ss w = (Return (Some data), ss', w)
    ∧ userId data = s_userId kvRes
    ∧ accessToken data = s_accessToken kvRes
    ∧ refreshToken data = s_refreshToken kvRes
    ∧ expiresAt data = field_times (s_expiresAt kvRes) 1000
    ∧ (s_expiresAt kvRes = Number 0 → expiresAt data = Num 0)
    ∧ (s_expiresAt kvRes = Undefined → expiresAt data = NaN).
Proof.
  intros Haead Hr Hv (iv & Hread) Hfalsy.
  destruct (getSession_current sessionId iv kvRes ss w s)
    as (ss' & Hrun & _); try done.
  { unfold expired. by rewrite Hfalsy. }
  exists ss', (returned kvRes). repeat split; try done;
    simpl; by intros ->.
Qed.

(** The seconds kept of an expiry given in milliseconds. *)
Lemma stored_expiresAt data t :
  expiresAt data = Num t → s_expiresAt (stored data) = Number (t / 1000).
Proof. unfold stored. simpl. by intros ->. Qed.

Lemma read_session_written s sessionId p w t :
  t / 1000 < clock w / 1000 + thirty_days →
  stored_session
    (set_clock t (written s ("session:" +:+ sessionId) p (expiry_of w) w))
    s sessionId p.
Proof.
  intros Hlive. eapply stored_at; [|exact Hlive].
  unfold written. simpl. by rewrite lookup_insert_eq.
Qed.

Lemma read_session_created s existing sessionId userId data w t :
  t / 1000 < clock w / 1000 + thirty_days →
  stored_session
    (set_clock t (created s existing sessionId userId data w))
    s sessionId (stored data).
Proof.
  intros Hlive. eapply stored_at; [|exact Hlive].
  unfold created, written. simpl.
  rewrite lookup_insert_ne by (by apply not_eq_sym, session_user_key_ne).
  by rewrite lookup_insert_eq.
Qed.

(** What a read that finds the record current returns for an expiry
    written as [t] milliseconds. *)
Lemma getSession_truncates s sessionId data t ss w :
  AEAD_correct → ready ss s → json_ok (stored data) →
  expiresAt data = Num t →
  stored_session w s sessionId (stored data) →
  expired (stored data) (clock w) = false →
  ∃ ss' found,
    getSession sessionId ss w = (Return (Some found), ss', w)
    ∧ expiresAt found = Num (1000 * (t / 1000)).
Proof.
  intros Haead Hr Hv Ht (iv & Hread) Hexp.
  destruct (getSession_current sessionId iv (stored data) ss w s)
    as (ss' & Hrun & _); try done.
  exists ss', (returned (stored data)). split; [done|].
  simpl. rewrite Ht. simpl. f_equal. lia.
Qed.

(** C6, as the code has it.  The store keeps whole seconds: a record
    written by [createSession], [createUserSession] or [updateSession]
    with [expiresAt] of [t] milliseconds, an integer that a double
    holds exactly (of magnitude below 2^53, as every time is), is read
    back, while it is readable and not expired, with [expiresAt] equal
    to [1000 * floor(t / 1000)].  That is [t] rounded down to a second:
    at most 999 ms below [t], and [t] itself exactly when [t] is a
    multiple of 1000; the seconds kept are an integer that a double
    holds exactly as well. *)
Theorem expiry_truncated_to_seconds (s sessionId userId : string)
    (data : SessionData) (t t' : Z)
    (writer reader : SessionService) (w : World) :
  AEAD_correct → ready writer s → ready reader s →
  json_ok (stored data) →
  expiresAt data = Num t →
  safe_integer t →
  t' / 1000 < clock w / 1000 + thirty_days →
  expired (stored data) t' = false →
  let read_back (write : Outcome unit * SessionService * World) :=
    write.1.1 = Return tt
    ∧ ∃ reader' found,
        getSession sessionId reader (set_clock t' write.2)
        = (Return (Some found), reader', set_clock t' write.2)
        ∧ expiresAt found = Num (1000 * (t / 1000)) in
  read_back (createSession sessionId data writer w)
  ∧ read_back (createUserSession sessionId userId data writer w)
  ∧ read_back (updateSession sessionId data writer w)
  ∧ t - 1000 < 1000 * (t / 1000) ≤ t
  ∧ (1000 * (t / 1000) = t ↔ t mod 1000 = 0)
  ∧ safe_integer (t / 1000).
Proof.
  intros Haead Hw Hr Hv Ht Hsafe Hlive Hexp read_back.
  assert (Hback : ∀ writer' w1,
            stored_session (set_clock t' w1) s sessionId (stored data) →
            read_back (Return tt, writer', w1)).
  { intros writer' w1 Hstored. split; [done|].
    by apply (getSession_truncates s sessionId data t reader (set_clock t' w1)). }
  split; [|split; [|split; [|split; [|split]]]].
  - destruct (createSession_run sessionId data writer w s Hw) as (? & -> & _).
    by apply Hback, read_session_written.
  - destruct (getUserSessionId_total userId writer w s Hw)
      as (existing & ss1 & Hindex & Hl).
    destruct (createUserSession_run sessionId userId data writer w s
                existing ss1 Hw Hindex Hl) as (? & -> & _).
    by apply Hback, read_session_created.
  - destruct (updateSession_run sessionId data writer w s Hw) as (? & -> & _).
    by apply Hback, read_session_written.
  - Base64.div_lia.
  - split; Base64.div_lia.
  - clear -Hsafe. unfold safe_integer in *.
    change (2 ^ 53) with 9007199254740992 in *. Base64.div_lia.
Qed.

Lemma expired_number kvRes e t :
  s_expiresAt kvRes = Number e → e ≠ 0 → e < t / 1000 →
  expired kvRes t = true.
Proof.
  intros He Hnz Hlt. unfold expired. rewrite He. simpl.
  apply andb_true_intro. split.
  - apply negb_true_iff. by apply Z.eqb_neq.
  - by apply Z.ltb_lt.
Qed.

Lemma or_number_positive o d :
  (∀ z, o = Some z → 0 ≤ z) → 0 < d → 0 < or_number o d.
Proof.
  intros Ho Hd. unfold or_number. destruct o as [z|]; [|done].
  destruct (Z.eqb_spec z 0) as [->|Hz]; [done|].
  specialize (Ho z eq_refl). lia.
Qed.

(** C2, as the code has it.  The store keeps the expiry in whole
    seconds and compares it with the whole second of the clock.  A
    stored record whose [expiresAt] is not 0 and whose second has
    passed, that is [expiresAt < floor(now / 1000)], or in
    milliseconds [1000 * (expiresAt + 1) <= now], is refreshed or purged
    by [getSession].  Either the provider granted new tokens: the record
    returned has a strictly later [expiresAt] than the stored one, and
    it is the record now persisted (the provider's [expires_in] is taken
    not to be negative).  Or the refresh failed: the call returns
    not-found and the namespace holds no record for the session.  A
    record whose expiry lies less than a second back, the clock being
    still in the second of [expiresAt], is returned as it is: nothing
    is requested and nothing is written. *)
Theorem expired_session_refreshed_or_purged (s sessionId : string)
    (ss : SessionService) (w : World) (kvRes : StoredSession) (e : Z) :
  AEAD_correct → ready ss s → json_ok kvRes →
  stored_session w s sessionId kvRes →
  s_expiresAt kvRes = Number e →
  e ≠ 0 →
  (∀ tokens z,
     granted (refresh_reply (s_env ss) (s_refreshToken kvRes) w) = Some tokens →
     expires_in tokens = Some z → 0 ≤ z) →
  (e < clock w / 1000 ↔ 1000 * (e + 1) ≤ clock w)
  ∧ (1000 * (e + 1) ≤ clock w →
     ∃ r ss' w',
       getSession sessionId ss w = (Return r, ss', w')
       ∧ ((∃ data x e',
             r = Some data
             ∧ expiresAt data = Num x ∧ 1000 * e < x
             ∧ persisted w' s sessionId (stored data)
             ∧ s_expiresAt (stored data) = Number e' ∧ e < e')
          ∨ (r = None ∧ store w' !! ("session:" +:+ sessionId) = None)))
  ∧ (clock w < 1000 * (e + 1) →
     ∃ ss' data,
       getSession sessionId ss w = (Return (Some data), ss', w)
       ∧ userId data = s_userId kvRes
       ∧ accessToken data = s_accessToken kvRes
       ∧ refreshToken data = s_refreshToken kvRes
       ∧ expiresAt data = Num (e * 1000)).
Proof.
  intros Haead Hr Hv (iv & Hread) He Hnz Hlifetime.
  assert (Hsecond : e < clock w / 1000 ↔ 1000 * (e + 1) ≤ clock w)
    by Base64.div_lia.
  split; [exact Hsecond|]. split.
  - intros Hpast%Hsecond.
    pose proof (expired_number kvRes e (clock w) He Hnz Hpast) as Hexp.
    destruct (granted (refresh_reply (s_env ss) (s_refreshToken kvRes) w))
      as [tokens|] eqn:Hgrant.
    + destruct (getSession_refreshed sessionId iv kvRes tokens ss w s)
        as (ss' & Hrun & _); try done.
      eexists _, ss', _. split; [exact Hrun|]. left.
      pose proof (or_number_positive (expires_in tokens) 3600
                    (λ z, Hlifetime tokens z eq_refl) ltac:(lia)) as Hpos.
      eexists _, _, _. split; [reflexivity|].
      split; [reflexivity|]. split; [lia|].
      split; [apply persisted_written_eq|].
      split; [reflexivity|].
      rewrite Z.div_mul by lia. lia.
    + destruct (getSession_purged sessionId iv kvRes ss w s)
        as (ss' & Hrun & _); try done.
      eexists _, ss', _. split; [exact Hrun|]. right.
      split; [done|]. simpl. apply lookup_delete_eq.
  - intros Hrecent.
    assert (Hexp : expired kvRes (clock w) = false).
    { unfold expired. rewrite He. simpl. apply andb_false_iff. right.
      apply Z.ltb_ge. Base64.div_lia. }
    destruct (getSession_current sessionId iv kvRes ss w s)
      as (ss' & Hrun & _); try done.
    exists ss', (returned kvRes). split; [exact Hrun|].
    unfold returned. simpl. by rewrite He.
Qed.




(** The index entry and the session entry that [createUserSession]
    leaves. *)
Lemma created_index s existing sessionId userId data w :
  store (created s existing sessionId userId data w) !! ("user_session:" +:+ userId)
  = Some {| kv_value :=
              sealed s
                (fresh (written s ("session:" +:+ sessionId) (stored data)
                          (expiry_of w) (cleaned existing sessionId w)) 12)
                (JSON_stringify sessionId);
            kv_expiration := expiry_of w |}.
Proof. unfold created, written. simpl. by rewrite lookup_insert_eq. Qed.

Lemma created_session s existing sessionId userId data w :
  store (created s existing sessionId userId data w) !! ("session:" +:+ sessionId)
  = Some {| kv_value :=
              sealed s (fresh (cleaned existing sessionId w) 12)
                (JSON_stringify (stored data));
            kv_expiration := expiry_of w |}.
Proof.
  unfold created, written. simpl.
  rewrite lookup_insert_ne by (by apply not_eq_sym, session_user_key_ne).
  by rewrite lookup_insert_eq.
Qed.

Lemma created_other s existing sessionId userId data w other :
  other ≠ sessionId →
  store (created s existing sessionId userId data w) !! ("session:" +:+ other)
  = store (cleaned existing sessionId w) !! ("session:" +:+ other).
Proof.
  intros Hne. unfold created, written. simpl.
  rewrite lookup_insert_ne by (by apply not_eq_sym, session_user_key_ne).
  by rewrite lookup_insert_ne by (by apply not_eq_sym, session_key_ne).
Qed.

Lemma clock_created s existing sessionId userId data w :
  clock (created s existing sessionId userId data w) = clock w.
Proof.
  unfold created, written, cleaned. simpl.
  destruct existing as [e|]; [|done].
  by destruct (truthy_string e && negb (String.eqb e sessionId)).
Qed.

Lemma read_set_clock t w key :
  read (set_clock t w) key
  = match store w !! key with
    | Some e => if live e t then Some (kv_value e) else None
    | None => None
    end.
Proof. reflexivity. Qed.

Lemma live_expiry v w t :
  live {| kv_value := v; kv_expiration := expiry_of w |} t
  = (t / 1000 <? clock w / 1000 + thirty_days).
Proof. reflexivity. Qed.

Lemma store_cleaned_some e sessionId w key :
  e ≠ EmptyString → e ≠ sessionId →
  store (cleaned (Some e) sessionId w) !! key
  = base.delete ("session:" +:+ e) (store w) !! key.
Proof.
  intros He Hne. unfold cleaned, truthy_string.
  apply String.eqb_neq in He as ->. by apply String.eqb_neq in Hne as ->.
Qed.

(** When nothing renews the first record between the two creations,
    the clean-up of [createUserSession] works.  The first session of a
    user has a non-empty identifier [id1]; after a second session
    [id2], another identifier, is created for the same user, reading
    [id1] gives not-found and the index answers [id2].  The reads
    happen no earlier than the second creation and before its entries
    expire.  (Once the record of [id1] was renewed it outlives its
    entry in the index, and the clean-up misses it.) *)
Lemma consecutive_sessions_replace
    (s userId id1 id2 : string) (r1 r2 : SessionData)
    (ss1 ss2 ss3 ss4 : SessionService) (w : World) (t2 t3 : Z) :
  AEAD_correct →
  ready ss1 s → ready ss2 s → ready ss3 s → ready ss4 s →
  json_ok id1 → json_ok id2 →
  id1 ≠ EmptyString →
  id2 ≠ id1 →
  t2 ≤ t3 →
  t3 / 1000 < t2 / 1000 + thirty_days →
  let first := createUserSession id1 userId r1 ss1 w in
  let second := createUserSession id2 userId r2 ss2 (set_clock t2 first.2) in
  first.1.1 = Return tt
  ∧ second.1.1 = Return tt
  ∧ (getSession id1 ss3 (set_clock t3 second.2)).1.1 = Return None
  ∧ (getUserSessionId userId ss4 (set_clock t3 second.2)).1.1 = Return (Some id2).
Proof.
  intros Haead Hr1 Hr2 Hr3 Hr4 Hj1 Hj2 Hne1 Hne Ht23 Hlive first second.
  (* the first creation *)
  destruct (getUserSessionId_total userId ss1 w s Hr1)
    as (ex1 & ss1a & Hindex1 & Hl1).
  destruct (createUserSession_run id1 userId r1 ss1 w s ex1 ss1a Hr1 Hindex1 Hl1)
    as (ss1' & Hrun1 & _).
  assert (Hfirst : first = (Return tt, ss1', created s ex1 id1 userId r1 w))
    by exact Hrun1.
  clearbody first. subst first. cbn [fst snd] in second |- *.
  set (w1 := created s ex1 id1 userId r1 w) in *.
  (* what the second creation finds in the index *)
  assert (∃ ex2 ss2a,
            getUserSessionId userId ss2 (set_clock t2 w1)
            = (Return ex2, ss2a, set_clock t2 w1)
            ∧ later ss2 ss2a
            ∧ read (set_clock t3 (cleaned ex2 id2 (set_clock t2 w1)))
                   ("session:" +:+ id1) = None)
    as (ex2 & ss2a & Hindex2 & Hl2 & Hgone).
  { destruct (Z.ltb_spec (t2 / 1000) (clock w / 1000 + thirty_days)) as [Hin|Hout].
    - (* the index entry is readable: it names [id1], which is deleted *)
      destruct (getUserSessionId_sealed userId
                  (fresh (written s ("session:" +:+ id1) (stored r1)
                            (expiry_of w) (cleaned ex1 id1 w)) 12)
                  id1 ss2 (set_clock t2 w1) s) as (ss2a & Hrun & Hl);
        try done.
      { rewrite read_set_clock. unfold w1. rewrite created_index, live_expiry.
        by apply Z.ltb_lt in Hin as ->. }
      exists (Some id1), ss2a. split; [done|]. split; [done|].
      rewrite read_set_clock, store_cleaned_some by congruence.
      by rewrite lookup_delete_eq.
    - (* the entries of the first creation have expired *)
      destruct (getUserSessionId_missing userId ss2 (set_clock t2 w1) s)
        as (ss2a & Hrun & Hl); try done.
      { rewrite read_set_clock. unfold w1. rewrite created_index, live_expiry.
        by apply Z.ltb_ge in Hout as ->. }
      exists None, ss2a. split; [done|]. split; [done|].
      rewrite read_set_clock. unfold cleaned.
      change (store (set_clock t2 w1)) with (store w1).
      unfold w1. rewrite created_session, live_expiry.
      assert (t2 / 1000 ≤ t3 / 1000) by (apply Z.div_le_mono; lia).
      assert (Hge : clock w / 1000 + thirty_days ≤ t3 / 1000) by lia.
      by apply Z.ltb_ge in Hge as ->. }
  (* the second creation *)
  destruct (createUserSession_run id2 userId r2 ss2 (set_clock t2 w1) s
              ex2 ss2a Hr2 Hindex2 Hl2) as (ss2' & Hrun2 & _).
  assert (Hsecond : second
                    = (Return tt, ss2',
                       created s ex2 id2 userId r2 (set_clock t2 w1)))
    by exact Hrun2.
  clearbody second. subst second. cbn [fst snd].
  split; [done|]. split; [done|]. split.
  - destruct (getSession_missing id1 ss3
                (set_clock t3 (created s ex2 id2 userId r2 (set_clock t2 w1))) s)
      as (ss3' & -> & _); [done| |done].
    rewrite read_set_clock in Hgone |- *.
    by rewrite created_other by congruence.
  - destruct (getUserSessionId_sealed userId
                (fresh (written s ("session:" +:+ id2) (stored r2)
                          (expiry_of (set_clock t2 w1))
                          (cleaned ex2 id2 (set_clock t2 w1))) 12)
                id2 ss4
                (set_clock t3 (created s ex2 id2 userId r2 (set_clock t2 w1))) s)
      as (ss4' & -> & _); try done.
    rewrite read_set_clock, created_index, live_expiry.
    change (clock (set_clock t2 w1)) with t2.
    by apply Z.ltb_lt in Hlive as ->.
Qed.

End claims.

End SessionClaims.

(** ** The session store on the sample platform *)

Module SessionRuns.
Import JS Data World Monad MonadFacts KV KVFacts Session SessionFacts.
Import SessionClaims Sample.

Lemma service_new :
  Session.new (SESSIONS_KV bindings) (SESSION_ENC_SECRET bindings) bindings
  = Return service.
Proof. reflexivity. Qed.

Lemma service_ready : ready service "k1".
Proof. by destruct (new_ready _ _ _ _ service_new) as (? & _). Qed.

(** The namespace after a session was created at noon. *)
Definition after_create (data : SessionData) : World :=
  (createSession "sid" data service (world_at noon)).2.

Lemma after_create_stored data :
  stored_session (after_create data) "k1" "sid" (stored data).
Proof. exists (fresh (world_at noon) 12). reflexivity. Qed.

Lemma falsy_expiry_never_refreshes_witness :
  ∃ ss' data,
    getSession "sid" service (set_clock (noon + 5000) (after_create (session "rt-keep" 0)))
    = (Return (Some data), ss', set_clock (noon + 5000) (after_create (session "rt-keep" 0)))
    ∧ userId data = "u"
    ∧ accessToken data = "at"
    ∧ refreshToken data = Some "rt-keep"
    ∧ expiresAt data = Num 0
    ∧ (Number 0 = Number 0 → expiresAt data = Num 0)
    ∧ (Number 0 = Undefined → expiresAt data = NaN).
Proof.
  apply (falsy_expiry_never_refreshes "k1" "sid" service
           (set_clock (noon + 5000) (after_create (session "rt-keep" 0)))
           (stored (session "rt-keep" 0))).
  - exact StoreClaims.sample_AEAD_correct.
  - exact service_ready.
  - reflexivity.
  - exists (fresh (world_at noon) 12). reflexivity.
  - reflexivity.
Defined.

(** C6 fails as stated: an expiry of half a second past a second comes
    back as the second. *)
Lemma expiry_exact_counterexample :
  ∃ found,
    (getSession "sid" service (after_create (session "rt-keep" 1700000000500))).1.1
    = Return (Some found)
    ∧ expiresAt found = Num 1700000000000
    ∧ expiresAt found ≠ Num 1700000000500.
Proof.
  eexists. split; [vm_compute; reflexivity|]. split; [reflexivity|discriminate].
Defined.

Lemma expiry_truncated_to_seconds_witness :
  let t := 1700000000500 in
  let read_back (write : Outcome unit * SessionService * World) :=
    write.1.1 = Return tt
    ∧ ∃ reader' found,
        getSession "sid" service (set_clock (noon + 5000) write.2)
        = (Return (Some found), reader', set_clock (noon + 5000) write.2)
        ∧ expiresAt found = Num (1000 * (t / 1000)) in
  read_back (createSession "sid" (session "rt-keep" t) service (world_at noon))
  ∧ read_back (createUserSession "sid" "u" (session "rt-keep" t) service (world_at noon))
  ∧ read_back (updateSession "sid" (session "rt-keep" t) service (world_at noon))
  ∧ t - 1000 < 1000 * (t / 1000) ≤ t
  ∧ (1000 * (t / 1000) = t ↔ t mod 1000 = 0)
  ∧ safe_integer (t / 1000).
Proof.
  apply (expiry_truncated_to_seconds "k1" "sid" "u"
           (session "rt-keep" 1700000000500) 1700000000500 (noon + 5000)
           service service (world_at noon)).
  - exact StoreClaims.sample_AEAD_correct.
  - exact service_ready.
  - exact service_ready.
  - reflexivity.
  - reflexivity.
  - unfold safe_integer. lia.
  - reflexivity.
  - reflexivity.
Defined.

(** A session that expired ten seconds before noon. *)
Definition stale (rt : string) : SessionData := session rt (noon - 10000).

(** C2 fails as stated in three ways.  A stored expiry of 0 is in the
    past, yet the record comes back as it is, with the same expiry, and
    stays in the namespace.  A provider that answers a negative
    [expires_in] makes the refreshed record expire earlier than the
    stored one.  And a record whose expiry passed 999 ms ago comes back as
    it is as well, without a request to the provider. *)
Lemma expired_session_counterexample :
  (∃ found ss' w',
     getSession "sid" service (after_create (session "rt-keep" 0))
     = (Return (Some found), ss', w')
     ∧ s_expiresAt (stored (session "rt-keep" 0)) = Number 0
     ∧ 0 < clock (after_create (session "rt-keep" 0)) / 1000
     ∧ expiresAt found = Num 0
     ∧ is_Some (store w' !! "session:sid"))
  ∧ (∃ found ss' w' x,
       getSession "sid" service (after_create (stale "rt-negative"))
       = (Return (Some found), ss', w')
       ∧ s_expiresAt (stored (stale "rt-negative")) = Number (noon_s - 10)
       ∧ expiresAt found = Num x
       ∧ x < 1000 * (noon_s - 10))
  ∧ (let w := set_clock (noon + 999) (after_create (session "rt-keep" noon)) in
     ∃ found ss',
       getSession "sid" service w = (Return (Some found), ss', w)
       ∧ s_expiresAt (stored (session "rt-keep" noon)) = Number noon_s
       ∧ 1000 * noon_s < clock w
       ∧ expiresAt found = Num (1000 * noon_s)
       ∧ requests w = []
       ∧ is_Some (store w !! "session:sid")).
Proof.
  split; [|split].
  - eexists _, _, _. split; [vm_compute; reflexivity|].
    split; [reflexivity|]. split; [reflexivity|]. split; [reflexivity|].
    vm_compute. by eexists.
  - eexists _, _, _, _. split; [vm_compute; reflexivity|].
    split; [reflexivity|]. split; [reflexivity|]. reflexivity.
  - eexists _, _. split; [vm_compute; reflexivity|].
    split; [reflexivity|]. split; [reflexivity|]. split; [reflexivity|].
    split; [reflexivity|]. vm_compute. by eexists.
Defined.

Lemma sample_stale_expired rt : expired (stored (stale rt)) noon = true.
Proof. reflexivity. Qed.

Lemma expired_session_refreshed_or_purged_witness :
  (∃ r ss' w',
     getSession "sid" service (after_create (stale "rt-rotate")) = (Return r, ss', w')
     ∧ ((∃ data x e',
           r = Some data
           ∧ expiresAt data = Num x ∧ 1000 * (noon_s - 10) < x
           ∧ persisted w' "k1" "sid" (stored data)
           ∧ s_expiresAt (stored data) = Number e' ∧ noon_s - 10 < e')
        ∨ (r = None ∧ store w' !! ("session:" +:+ "sid") = None)))
  ∧ (let w := set_clock (noon + 999) (after_create (session "rt-keep" noon)) in
     ∃ ss' data,
       getSession "sid" service w = (Return (Some data), ss', w)
       ∧ userId data = "u"
       ∧ accessToken data = "at"
       ∧ refreshToken data = Some "rt-keep"
       ∧ expiresAt data = Num (noon_s * 1000)).
Proof.
  assert (Hpositive : ∀ w rt tokens z,
            granted (refresh_reply (s_env service) (Some rt) w) = Some tokens →
            expires_in tokens = Some z → rt = "rt-rotate" ∨ rt = "rt-keep" → 0 ≤ z).
  { intros w rt tokens z Hgrant Hz [-> | ->];
      vm_compute in Hgrant; injection Hgrant as <-; simpl in Hz; [|done].
    injection Hz as <-. lia. }
  split.
  - refine (proj1 (proj2 (expired_session_refreshed_or_purged "k1" "sid" service
               (after_create (stale "rt-rotate")) (stored (stale "rt-rotate"))
               (noon_s - 10) StoreClaims.sample_AEAD_correct service_ready
               eq_refl (after_create_stored _) eq_refl _ _)) _).
    + discriminate.
    + intros tokens z Hgrant Hz. eapply Hpositive; eauto.
    + vm_compute. discriminate.
  - refine (proj2 (proj2 (expired_session_refreshed_or_purged "k1" "sid" service
               (set_clock (noon + 999) (after_create (session "rt-keep" noon)))
               (stored (session "rt-keep" noon)) noon_s
               StoreClaims.sample_AEAD_correct service_ready
               eq_refl _ eq_refl _ _)) _).
    + exists (fresh (world_at noon) 12). reflexivity.
    + discriminate.
    + intros tokens z Hgrant Hz. eapply Hpositive; eauto.
    + reflexivity.
Defined.



(** A day, in milliseconds. *)
Definition day : Z := 86400000.

(** Two session identifiers, as [crypto.randomUUID()] gives them. *)
Definition session_one : string := "0b9f6c1e-5a3d-4e7b-8f21-6d4c2a9e1b70".
Definition session_two : string := "c47a1d02-93be-4f56-a1c8-2e7d5b0f6a39".

(** C1.  The clean-up misses a session that was renewed.  A first
    session of the user is created at noon; 29 days later it is read, its
    tokens have expired and the provider refreshes them: the record is
    written again and lives 30 days from then, the entry of the user in
    the index is not and still ends 30 days after noon.  On day 31 a
    second session is created for the user: the index answers nothing,
    nothing is deleted, and from then on both identifiers give a session
    of the user. *)
Theorem stale_index_leaves_two_sessions :
  let first :=
    createUserSession session_one "u" (session "rt-keep" (noon + 3600000))
      service (world_at noon) in
  let renewal :=
    getSession session_one service (set_clock (noon + 29 * day) first.2) in
  let second :=
    createUserSession session_two "u"
      (session "rt-keep" (noon + 31 * day + 3600000))
      service (set_clock (noon + 31 * day) renewal.2) in
  first.1.1 = Return tt
  ∧ (∃ renewed, renewal.1.1 = Return (Some renewed) ∧ accessToken renewed = "at-new")
  ∧ read (set_clock (noon + 31 * day) renewal.2) ("user_session:" +:+ "u") = None
  ∧ second.1.1 = Return tt
  ∧ (getUserSessionId "u" service second.2).1.1 = Return (Some session_two)
  ∧ (∃ two, (getSession session_two service second.2).1.1 = Return (Some two)
            ∧ userId two = "u")
  ∧ (∃ one, (getSession session_one service second.2).1.1 = Return (Some one)
            ∧ userId one = "u")
  ∧ (getSession session_one service second.2).1.1 ≠ Return None.
Proof.
  split; [vm_compute; reflexivity|].
  split; [eexists; split; vm_compute; reflexivity|].
  split; [vm_compute; reflexivity|].
  split; [vm_compute; reflexivity|].
  split; [vm_compute; reflexivity|].
  split; [eexists; split; vm_compute; reflexivity|].
  split; [eexists; split; vm_compute; reflexivity|].
  vm_compute. discriminate.
Qed.

End SessionRuns.

(** ** PKCE parameters, state tokens and the callback route *)

Module AuthClaims.
Import JS Data World Monad MonadFacts KV KVFacts Auth AuthFacts QueryFacts.

Section claims.
Context `{Platform}.

Lemma state_store_cache_ok env : cache_ok (state_store env).
Proof. intros s key. simpl. by rewrite lookup_empty. Qed.

(** C9.  The auth-initiation operation draws 32 random bytes for the
    code verifier and 16 for the state, and returns each as its
    base64url text: 43 and 22 characters of the base64url alphabet,
    without padding, from which the bytes can be decoded again.  The
    URL is the authorize endpoint of the provider followed by a query
    that reads, as the receiver parses it (split at [&] and [=],
    escapes decoded), as exactly seven parameters, in this order:
    [client_id], [response_type=code], [scope] (the fixed scopes joined
    by a space), [redirect_uri], [code_challenge] (the base64url text
    of the SHA-256 digest of the verifier), [code_challenge_method=S256]
    and [state], with the values of the deployment as they are;
    challenge and state stand in the query unescaped. *)
Theorem auth_url_parameters {S} (env : Bindings) (s : S) (w : World) :
  let verifier_bytes := map random_byte (seq (drawn w) 32) in
  let state_bytes := map random_byte (seq (drawn w + 32) 16) in
  let codeVerifier := base64UrlEncode verifier_bytes in
  let state := base64UrlEncode state_bytes in
  let codeChallenge := base64UrlEncode (SHA256 (TextEncoder_encode codeVerifier)) in
  let parameters :=
    [("client_id", CLIENT_ID env);
     ("response_type", "code");
     ("scope", String.concat " " SCOPES);
     ("redirect_uri", REDIRECT_URI env);
     ("code_challenge", codeChallenge);
     ("code_challenge_method", "S256");
     ("state", state)] in
  ∃ query,
    generateAuthUrl env s w
    = (Return {| url := ENV_URI env +:+ "/a/consumer/api/v0/oidc/auth?" +:+ query;
                 ar_codeVerifier := codeVerifier;
                 ar_state := state |},
       s, set_drawn (drawn w + 32 + 16) w)
    ∧ query = URLSearchParams_toString parameters
    ∧ query_parameters query = parameters
    ∧ map (λ part, map string_of_list_ascii (Chars.split "=" part))
          (Chars.split "&" (list_ascii_of_string query))
      = map (λ p, [form_encode (fst p); form_encode (snd p)]) parameters
    ∧ length verifier_bytes = 32%nat
    ∧ length state_bytes = 16%nat
    ∧ String.length codeVerifier = 43%nat
    ∧ String.length state = 22%nat
    ∧ base64url codeVerifier ∧ base64url state ∧ base64url codeChallenge
    ∧ Base64.atob (string_of_list_ascii
                     (map Callback.url_unsafe (list_ascii_of_string codeVerifier)))
      = Some verifier_bytes
    ∧ Base64.atob (string_of_list_ascii
                     (map Callback.url_unsafe (list_ascii_of_string state)))
      = Some state_bytes
    ∧ form_encode codeChallenge = codeChallenge
    ∧ form_encode state = state.
Proof.
  intros verifier_bytes state_bytes codeVerifier state codeChallenge parameters.
  assert (Hv : length verifier_bytes = 32%nat)
    by (unfold verifier_bytes; by rewrite length_map, length_seq).
  assert (Hs : length state_bytes = 16%nat)
    by (unfold state_bytes; by rewrite length_map, length_seq).
  exists (URLSearchParams_toString parameters).
  split; [reflexivity|]. split; [reflexivity|].
  split; [apply query_parameters_toString|].
  split.
  { unfold parameters at 1. rewrite split_query, !map_map.
    apply map_ext. intros p. rewrite split_pair_text. cbn [map].
    by rewrite !string_of_list_ascii_of_string. }
  split; [done|]. split; [done|].
  split; [unfold codeVerifier; by rewrite length_base64UrlEncode, length_sextets_32|].
  split; [unfold state; by rewrite length_base64UrlEncode, length_sextets_16|].
  split; [apply base64UrlEncode_base64url|].
  split; [apply base64UrlEncode_base64url|].
  split; [apply base64UrlEncode_base64url|].
  split; [apply base64UrlEncode_decodes|].
  split; [apply base64UrlEncode_decodes|].
  split; apply form_encode_base64UrlEncode.
Qed.

(** C3.  A state token is used once.  A callback that carries a code and
    the state [state], and whose lookup finds the entry stored for it,
    leaves the namespace without that entry, whether the exchange that
    follows succeeds or fails.  A second callback with the same state,
    at any later time, throws the invalid-or-expired-state error and
    changes nothing; and any request at all that presents this state
    throws before a token request is made. *)
Theorem state_token_single_use {S} (first second : Context) (state : string)
    (s1 s2 : S) (w : World) (entry : AuthState) (k' : KVService) (t : Z) :
  well_formed first state →
  KV.get ("auth_state:" +:+ state) (state_store (env first)) w
  = (Return (Some entry), k', w) →
  well_formed second state →
  ∃ r1 w1,
    processAuthCallback first s1 w = (r1, s1, w1)
    ∧ store w1 = base.delete ("auth_state:" +:+ state) (store w)
    ∧ store w1 !! ("auth_state:" +:+ state) = None
    ∧ processAuthCallback second s2 (set_clock t w1)
      = (Throw "Invalid or expired OAuth state", s2, set_clock t w1)
    ∧ (∀ other : Context,
         query_state other = Some state →
         ∃ e, processAuthCallback other s2 (set_clock t w1)
              = (Throw e, s2, set_clock t w1)).
Proof.
  intros Hfirst Hget Hsecond.
  assert (Hk : cached (state_store (env first)) k').
  { destruct Hfirst as (_ & _ & _ & _ & Hns).
    destruct (get_total (T:=AuthState) ("auth_state:" +:+ state)
                (state_store (env first)) w
                (state_store_cache_ok _) (state_store_kv _ Hns))
      as (r & k'' & Hrun & Hc).
    rewrite Hrun in Hget. by injection Hget as _ <-. }
  destruct (processAuthCallback_consumes first state s1 w entry k')
    as (r1 & w1 & Hrun & Hstore); try done.
  exists r1, w1. split; [done|]. split; [done|].
  assert (Hgone : store w1 !! ("auth_state:" +:+ state) = None)
    by (rewrite Hstore; apply lookup_delete_eq).
  split; [done|].
  assert (Hread : read (set_clock t w1) ("auth_state:" +:+ state) = None)
    by (unfold read; simpl; by rewrite Hgone).
  split.
  - by apply processAuthCallback_unknown with (state := state).
  - intros other Hother. by apply processAuthCallback_rejects with (state := state).
Qed.

Lemma handleOAuthCallback_throw {S} c (s : S) w e w' :
  processAuthCallback c s w = (Throw e, s, w') →
  Callback.handleOAuthCallback c s w = (Throw e, s, w').
Proof. intros Hrun. unfold Callback.handleOAuthCallback. by eapply bind_throw. Qed.

Lemma callback_throw c w e w' :
  truthy_opt (query_error c) = false → truthy_opt (query_code c) = true →
  processAuthCallback c tt w = (Throw e, tt, w') →
  Routes.callback c tt w
  = (Return (Text ("Error during authentication: " +:+ e) 500), tt, w').
Proof.
  intros Herr Hcode Hrun. unfold Routes.callback. rewrite Herr, Hcode. simpl.
  erewrite try_catch_throw; [reflexivity|].
  eapply bind_throw. by apply handleOAuthCallback_throw.
Qed.

(** C7, as the code has it.  For a callback without an [error]
    parameter: when the [code] is missing the outcome is a redirect to
    the login flow; when a [code] is there and the [state] is missing,
    or has no stored entry (absent or expired), the outcome is the
    text response "Error during authentication: ..." with status 500,
    and the world is as before. *)
Theorem state_errors_are_error_pages (c : Context) (w : World) :
  truthy_opt (query_error c) = false →
  (truthy_opt (query_code c) = false →
   Routes.callback c tt w = (Return (Redirect "/auth/login"), tt, w))
  ∧ (truthy_opt (query_code c) = true →
     truthy_opt (query_state c) = false →
     Routes.callback c tt w
     = (Return (Text "Error during authentication: No state provided" 500),
        tt, w))
  ∧ (truthy_opt (query_code c) = true →
     ∀ state,
       query_state c = Some state → state ≠ EmptyString →
       is_Some (SESSIONS_KV (env c)) →
       read w ("auth_state:" +:+ state) = None →
       Routes.callback c tt w
       = (Return (Text "Error during authentication: Invalid or expired OAuth state" 500),
          tt, w)).
Proof.
  intros Herr. split; [|split].
  - intros Hcode. unfold Routes.callback. by rewrite Herr, Hcode.
  - intros Hcode Hstate.
    apply (callback_throw c w "No state provided" w); try done.
    unfold processAuthCallback. by rewrite Herr, Hcode, Hstate.
  - intros Hcode state Hstate Hne Hns Hread.
    apply (callback_throw c w "Invalid or expired OAuth state" w); try done.
    by apply processAuthCallback_unknown with (state := state).
Qed.

End claims.

Import Sample.

(** A callback on the sample deployment. *)
Definition request (code state : option string) : Context :=
  {| query_code := code; query_error := None;
     query_error_description := None; query_state := state;
     env := bindings |}.

(** The namespace after a login was started: the state ["S1"] is bound to
    a verifier for ten minutes. *)
Definition login_started : World :=
  (KV.put ("auth_state:" +:+ "S1") {| codeVerifier := "verifier" |}
     (Some (noon / 1000 + 600)) (state_store bindings) (world_at noon)).2.

Lemma state_token_single_use_witness :
  ∃ r1 w1,
    processAuthCallback (request (Some "code-ok") (Some "S1")) tt login_started
    = (r1, tt, w1)
    ∧ store w1 = base.delete ("auth_state:" +:+ "S1") (store login_started)
    ∧ store w1 !! ("auth_state:" +:+ "S1") = None
    ∧ processAuthCallback (request (Some "code-ok") (Some "S1")) tt
        (set_clock (noon + 1000) w1)
      = (Throw "Invalid or expired OAuth state", tt, set_clock (noon + 1000) w1)
    ∧ (∀ other : Context,
         query_state other = Some "S1" →
         ∃ e, processAuthCallback other tt (set_clock (noon + 1000) w1)
              = (Throw e, tt, set_clock (noon + 1000) w1)).
Proof.
  eapply (state_token_single_use
            (request (Some "code-ok") (Some "S1"))
            (request (Some "code-ok") (Some "S1")) "S1" tt tt
            login_started {| codeVerifier := "verifier" |}).
  - repeat split; [discriminate|by eexists].
  - vm_compute. reflexivity.
  - repeat split; [discriminate|by eexists].
Defined.

(** The scenario of a login: the callback presents the code and the state
    of a login that was started; the verifier stored for the state goes to
    the provider, and a session for the subject of the identity token is
    installed with the tokens granted, under the identifier that the
    cookie carries. *)
Example callback_installs_session :
  ∃ w' sessionId ss',
    Routes.callback (request (Some "code-ok") (Some "S1")) tt login_started
    = (Return (Redirect "/callback/plugin"), tt, w')
    ∧ map req_form (requests w')
      = [[("client_id", "client"); ("client_secret", "hush");
          ("grant_type", "authorization_code"); ("code", "code-ok");
          ("redirect_uri", "https://app.example/callback");
          ("code_verifier", "verifier")]]
    ∧ map cookie_value (cookies w') = [sessionId]
    ∧ Session.getSession sessionId service w'
      = (Return (Some {| userId := "user-1"; accessToken := "at-first";
                         refreshToken := Some "rt-rotate";
                         expiresAt := Num (noon + 3600000) |}), ss', w').
Proof. eexists _, _, _. repeat split; vm_compute; reflexivity. Qed.

(** C7 fails as stated: a callback with a code and no state is answered
    with an error page, status 500, not with a redirect. *)
Lemma missing_state_counterexample :
  Routes.callback (request (Some "code-ok") None) tt (world_at noon)
  = (Return (Text "Error during authentication: No state provided" 500),
     tt, world_at noon)
  ∧ ∀ location,
      (Routes.callback (request (Some "code-ok") None) tt (world_at noon)).1.1
      ≠ Return (Redirect location).
Proof. split; [reflexivity|]. intros location. discriminate. Defined.

Lemma state_errors_are_error_pages_witness :
  Routes.callback (request None (Some "S1")) tt login_started
  = (Return (Redirect "/auth/login"), tt, login_started)
  ∧ Routes.callback (request (Some "code-ok") None) tt login_started
    = (Return (Text "Error during authentication: No state provided" 500),
       tt, login_started)
  ∧ Routes.callback (request (Some "code-ok") (Some "S2")) tt login_started
    = (Return (Text "Error during authentication: Invalid or expired OAuth state" 500),
       tt, login_started).
Proof.
  split; [|split].
  - by apply (state_errors_are_error_pages (request None (Some "S1")) login_started).
  - by apply (state_errors_are_error_pages (request (Some "code-ok") None) login_started).
  - apply (state_errors_are_error_pages
             (request (Some "code-ok") (Some "S2")) login_started) with (state := "S2");
      try reflexivity; [discriminate|by eexists].
Defined.

End AuthClaims.

(** * Further properties *)

(** ** The encrypted store *)

Module StoreExtras.
Import JS Data World Monad MonadFacts KV KVFacts StoreClaims.
Import Chars CharsFacts Base64 Base64Facts.

Section store.
Context `{Platform}.

(** X1.  A buffer written as base64 by [arrayBufferToBase64] is read
    back by [base64ToArrayBuffer], without a throw; and the text has no
    colon, the separator of the stored encoding. *)
Theorem buffer_base64_round_trip (buffer : list byte) (k : KVService) (w : World) :
  base64ToArrayBuffer (arrayBufferToBase64 buffer) k w = (Return buffer, k, w)
  ∧ ":"%char ∉ list_ascii_of_string (arrayBufferToBase64 buffer).
Proof.
  unfold base64ToArrayBuffer, arrayBufferToBase64. rewrite atob_btoa.
  split; [done|]. unfold btoa.
  rewrite list_ascii_of_string_of_list_ascii. apply colon_not_in_encode.
Qed.

Lemma filter_truthy_elem (l : list string) s :
  s ∈ List.filter truthy_string l ↔ s ∈ l ∧ s ≠ EmptyString.
Proof.
  rewrite !list_elem_of_In, filter_In. unfold truthy_string.
  rewrite negb_true_iff, String.eqb_neq. done.
Qed.

Lemma filter_truthy_head (pre post : list string) s :
  Forall (λ x, x = EmptyString) pre → s ≠ EmptyString →
  List.filter truthy_string (pre ++ s :: post)
  = s :: List.filter truthy_string post.
Proof.
  intros Hpre Hs. rewrite List.filter_app, filter_truthy_empty by done.
  simpl. unfold truthy_string at 1.
  by apply String.eqb_neq in Hs as ->.
Qed.

Lemma filter_truthy_remove (l : list string) :
  List.filter truthy_string l = List.remove String.string_dec EmptyString l.
Proof.
  induction l as [|s l IH]; [done|].
  destruct s as [|a s]; simpl; [exact IH|by rewrite IH].
Qed.

(** X2.  The constructor succeeds as soon as the list holds a non-empty
    secret, or encryption is optional.  The store it builds keeps the
    list with its empty strings removed: the non-empty secrets, each as
    often as it occurs and in the order of the list, and nothing else.
    So around every non-empty secret of the list stand the non-empty
    ones of what precedes and of what follows it, and the primary
    secret is the first non-empty one. *)
Theorem constructor_keeps_nonempty_secrets (ns : option KVNamespace)
    (l : list string) (options : option (option bool)) :
  options = Some (Some false) ∨ (∃ s, s ∈ l ∧ s ≠ EmptyString) →
  ∃ k,
    KV.new ns (SecretList l) options = Return k
    ∧ kv k = ns
    ∧ derivedKeys k = ∅
    ∧ secrets k = List.remove String.string_dec EmptyString l
    ∧ (∀ s, s ∈ secrets k ↔ s ∈ l ∧ s ≠ EmptyString)
    ∧ (∀ pre s post,
         l = pre ++ s :: post → s ≠ EmptyString →
         secrets k
         = List.remove String.string_dec EmptyString pre
           ++ s :: List.remove String.string_dec EmptyString post)
    ∧ (∀ pre s post,
         l = pre ++ s :: post → Forall (λ x, x = EmptyString) pre →
         s ≠ EmptyString →
         ∃ rest, secrets k = s :: rest).
Proof.
  intros Hcase. unfold KV.new.
  assert (Hgo : (match options with
                 | Some (Some false) => false
                 | _ => true
                 end && (length (List.filter truthy_string l) =? 0)%nat) = false).
  { destruct Hcase as [->|(s & Hin & Hs)]; [done|].
    apply andb_false_iff. right. apply Nat.eqb_neq.
    assert (Hf : s ∈ List.filter truthy_string l) by by apply filter_truthy_elem.
    destruct (List.filter truthy_string l); [by apply elem_of_nil in Hf|done]. }
  rewrite Hgo. eexists. split; [reflexivity|]. simpl.
  split; [done|]. split; [done|].
  split; [apply filter_truthy_remove|]. split; [|split].
  - apply filter_truthy_elem.
  - intros pre s post -> Hs.
    rewrite <- !filter_truthy_remove, List.filter_app. simpl.
    unfold truthy_string at 2. by apply String.eqb_neq in Hs as ->.
  - intros pre s post -> Hpre Hs. eexists. by apply filter_truthy_head.
Qed.

(** X3.  [getKey] memoises without changing what it answers: on a
    store whose cache is sound the key is the SHA-256 key of the secret,
    it is in the cache afterwards, and a second call finds it there and
    changes nothing, neither the store nor the world. *)
Theorem getKey_memoises (s : string) (k : KVService) (w : World) :
  cache_ok k →
  ∃ k',
    getKey s k w = (Return (derive s), k', w)
    ∧ derivedKeys k' !! s = Some (derive s)
    ∧ secrets k' = secrets k
    ∧ cache_ok k'
    ∧ getKey s k' w = (Return (derive s), k', w).
Proof.
  intros Hk. unfold getKey, bind, this.
  destruct (derivedKeys k !! s) as [key|] eqn:Hs.
  - exists k. rewrite Hs. rewrite (Hk _ _ Hs) in *. by repeat split.
  - eexists. split; [reflexivity|]. simpl.
    rewrite lookup_insert_eq. repeat split; try done.
    intros s' key. unfold set_derivedKeys. cbn [derivedKeys].
    destruct (decide (s = s')) as [<-|Hne].
    + rewrite lookup_insert_eq. by intros [= <-].
    + rewrite lookup_insert_ne by done. apply Hk.
Qed.

(** X4.  What [put] leaves in the namespace under a configured secret:
    a text with one colon, whose two sides are the base64 of the iv, 12
    bytes drawn for this write, and of the AES-GCM ciphertext of the
    serialised value under the key of the primary secret; the entry
    expires as asked. *)
Theorem put_stores_iv_and_ciphertext {T} `{JSON T} (key : string) (v : T)
    (expiration : option Z) (k : KVService) (w : World)
    (s : string) (rest : list string) :
  usable k → secrets k = s :: rest →
  ∃ k' w' entry part0 part1 iv,
    put key v expiration k w = (Return tt, k', w')
    ∧ store w' !! key = Some entry
    ∧ kv_expiration entry = expiration
    ∧ Chars.split ":" (list_ascii_of_string (kv_value entry)) = [part0; part1]
    ∧ atob (string_of_list_ascii part0) = Some iv
    ∧ length iv = 12%nat
    ∧ iv = map random_byte (seq (drawn w) 12)
    ∧ atob (string_of_list_ascii part1)
      = Some (AES_GCM_encrypt (derive s) iv
                (TextEncoder_encode (JSON_stringify v)))
    ∧ drawn w' = (drawn w + 12)%nat
    ∧ (∀ other, other ≠ key → store w' !! other = store w !! other).
Proof.
  intros [Hkv Hok] Hs.
  destruct (put_run key v expiration k w s rest Hok Hkv Hs) as (k' & Hput & _).
  eexists k', _, _, _, _, (fresh w 12). split; [exact Hput|].
  unfold written. simpl. rewrite lookup_insert_eq.
  split; [reflexivity|]. split; [reflexivity|]. cbn [kv_value].
  split; [apply split_sealed|].
  split; [apply atob_btoa|].
  split; [reflexivity|].
  split; [reflexivity|].
  split; [apply atob_btoa|]. split; [reflexivity|].
  intros other Hne. by rewrite lookup_insert_ne.
Qed.

(** X5.  Without any secret the store keeps the serialised value as it
    is, and reads it back: the round trip of the plaintext mode. *)
Theorem plaintext_round_trip {T} `{JSON T} (key : string) (v : T)
    (expiration : option Z) (writer reader : KVService) (w : World) (t : Z) :
  is_Some (kv writer) → is_Some (kv reader) →
  secrets writer = [] → secrets reader = [] →
  json_ok v → JSON_stringify v ≠ EmptyString →
  readable_at expiration t →
  ∃ w',
    put key v expiration writer w = (Return tt, writer, w')
    ∧ read (set_clock t w') key = Some (JSON_stringify v)
    ∧ get key reader (set_clock t w') = (Return (Some v), reader, set_clock t w').
Proof.
  intros Hkvw [ns Hkvr] Hsw Hsr Hv Hne Hlive.
  eexists. split; [by apply put_plain_run|].
  assert (Hread : read (set_clock t
            (set_store (insert key {| kv_value := JSON_stringify v;
                                      kv_expiration := expiration |}) w)) key
          = Some (JSON_stringify v)).
  { unfold read. simpl. rewrite lookup_insert_eq. unfold live. simpl.
    destruct expiration as [x|]; [|done].
    simpl in Hlive. by apply Z.ltb_lt in Hlive as ->. }
  split; [exact Hread|].
  unfold get, namespace, bind, this, kv_get. rewrite Hkvr, Hread.
  unfold truthy_string. apply String.eqb_neq in Hne as ->. simpl.
  rewrite Hsr. simpl. unfold parse_or. by rewrite Hv.
Qed.

(** The text is not of the stored encoding: it does not split into two
    base64 texts at a colon. *)
Definition not_sealed (text : string) : Prop :=
  match Chars.split ":" (list_ascii_of_string text) with
  | [part0; part1] =>
      atob (string_of_list_ascii part0) = None
      ∨ atob (string_of_list_ascii part1) = None
  | _ => True
  end.

Lemma try_secret_not_sealed {T} `{JSON T} text s k w :
  not_sealed text → try_secret (T:=T) text s k w = (Return None, k, w).
Proof.
  unfold not_sealed, try_secret, try_catch, base64ToArrayBuffer.
  destruct (Chars.split ":" _) as [|part0 [|part1 [|part2 parts]]]; try done.
  intros [Hno|Hno].
  - by rewrite Hno.
  - destruct (atob (string_of_list_ascii part0)); by rewrite Hno.
Qed.

Lemma try_secrets_not_sealed {T} `{JSON T} text l k w :
  not_sealed text → try_secrets (T:=T) text l k w = (Return None, k, w).
Proof.
  intros Hno. induction l as [|s l IH]; simpl; [done|].
  erewrite bind_return by by apply try_secret_not_sealed.
  exact IH.
Qed.

(** X6.  The migration path: a text in the namespace that is not of the
    stored encoding (written before encryption was configured) is read
    as plaintext by a store with secrets, whatever they are; the store
    and the world stay as they are. *)
Theorem plaintext_is_read_by_encrypted_store {T} `{JSON T} (key text : string)
    (r : option T) (reader : KVService) (w : World) :
  is_Some (kv reader) →
  read w key = Some text → text ≠ EmptyString →
  not_sealed text →
  JSON_parse text = Some r →
  get key reader w = (Return r, reader, w).
Proof.
  intros [ns Hkv] Hread Hne Hno Hparse.
  unfold get, namespace, bind at 1 2, this at 1, kv_get. rewrite Hkv, Hread.
  unfold truthy_string. apply String.eqb_neq in Hne as ->. simpl.
  unfold bind at 1. unfold this at 1.
  destruct (length (secrets reader) =? 0)%nat.
  - unfold parse_or. by rewrite Hparse.
  - erewrite bind_return by by apply try_secrets_not_sealed.
    unfold parse_or. by rewrite Hparse.
Qed.

(** X7.  [get] never throws on a store with a namespace, whatever the
    namespace holds: a text that does not decrypt or does not parse
    ends as an answer, not as an exception.  And [get] only reads: the
    world is the same afterwards, and so are the secrets of the
    store. *)
Theorem get_never_throws_never_writes {T} `{JSON T} (key : string)
    (k : KVService) (w : World) :
  usable k →
  ∃ r k',
    get (T:=T) key k w = (Return r, k', w)
    ∧ secrets k' = secrets k ∧ kv k' = kv k ∧ cache_ok k'
    ∧ (read w key = None → r = None).
Proof.
  intros [Hkv Hok].
  destruct (get_total (T:=T) key k w Hok Hkv) as (r & k' & Hrun & Hk' & Hs & _ & Hc).
  exists r, k'. repeat split; try done.
  intros Hread. rewrite get_missing in Hrun by done. by injection Hrun as <-.
Qed.

(** AES-GCM rejects the entry sealed under [s] with the key of each
    secret of [l]. *)
Definition rejected (l : list string) (s : string) (iv : list byte)
    (text : string) : Prop :=
  ∀ s', s' ∈ l →
    AES_GCM_decrypt (derive s') iv
      (AES_GCM_encrypt (derive s) iv (TextEncoder_encode text)) = None.

Lemma rejected_authentic l s iv text :
  AEAD_authentic → (∀ s', s' ∈ l → derive s' ≠ derive s) →
  rejected l s iv text.
Proof. intros Hauth Hl s' Hin. by apply Hauth, Hl. Qed.

Lemma try_secrets_rejected {T} `{JSON T} s iv text l k w :
  cache_ok k → rejected l s iv text →
  ∃ k', try_secrets (T:=T) (sealed s iv text) l k w = (Return None, k', w)
        ∧ cached k k'.
Proof.
  intros Hk Hl. revert k Hk.
  induction l as [|s' l IH]; intros k Hk; simpl.
  { exists k. by split; [|apply cached_refl]. }
  destruct (try_secret_sealed (T:=T) s s' iv text k w Hk) as (k1 & Hrun & Hc).
  erewrite bind_return by exact Hrun.
  unfold opened. rewrite Hl by left.
  destruct IH with (k := k1) as (k2 & Hrun2 & Hc2).
  { intros s'' Hin. apply Hl. by right. }
  { by eapply cached_ok. }
  exists k2. split; [done|]. by eapply cached_trans.
Qed.

(** X8.  A store that does not know the secret of a sealed entry reads
    it as not-found: when AES-GCM rejects the ciphertext under each of
    its keys (as it does under every key but the one that sealed it),
    and the sealed text is no JSON, [get] answers [null], without a
    throw and without touching the entry. *)
Theorem unknown_secret_reads_not_found {T} `{JSON T} (key s : string)
    (iv : list byte) (text : string) (reader : KVService) (w : World) :
  usable reader →
  rejected (secrets reader) s iv text →
  read w key = Some (sealed s iv text) →
  JSON_parse (T:=T) (sealed s iv text) = None →
  ∃ reader', get (T:=T) key reader w = (Return None, reader', w).
Proof.
  intros [[ns Hkv] Hok] Hother Hread Hjson.
  destruct (try_secrets_rejected (T:=T) s iv text (secrets reader) reader w)
    as (k' & Hrun & _); try done.
  unfold get.
  assert (Hget : namespace (kv_get key) reader w
                 = (Return (Some (sealed s iv text)), reader, w)).
  { unfold namespace, bind, this, kv_get. by rewrite Hkv, Hread. }
  erewrite bind_return by exact Hget.
  cbv beta iota. rewrite truthy_sealed. cbn [negb].
  unfold bind at 1. unfold this at 1.
  destruct (length (secrets reader) =? 0)%nat.
  - exists reader. unfold parse_or. by rewrite Hjson.
  - exists k'. erewrite bind_return by exact Hrun.
    unfold parse_or. by rewrite Hjson.
Qed.

(** X9.  After [delete] the key reads as not-found, for every store and
    at every time, and no other key is touched. *)
Theorem delete_then_get_not_found {T} `{JSON T} (key : string)
    (k reader : KVService) (w : World) (t : Z) :
  is_Some (kv k) → is_Some (kv reader) →
  ∃ w',
    KV.delete key k w = (Return tt, k, w')
    ∧ get (T:=T) key reader (set_clock t w') = (Return None, reader, set_clock t w')
    ∧ (∀ other, other ≠ key → store w' !! other = store w !! other).
Proof.
  intros Hk Hr. eexists. split; [by apply delete_run|]. split.
  - apply get_missing; [done|]. unfold read. simpl.
    by rewrite lookup_delete_eq.
  - intros other Hne. simpl. by rewrite lookup_delete_ne.
Qed.

(** X10.  A store without a namespace: [delete] returns and does
    nothing; [get] throws; [put] throws as well, but only after it has
    drawn the iv of the encryption it then cannot store. *)
Theorem store_without_namespace {T} `{JSON T} (key : string) (v : T)
    (expiration : option Z) (k : KVService) (w : World) :
  kv k = None → cache_ok k →
  KV.delete key k w = (Return tt, k, w)
  ∧ get (T:=T) key k w = (Throw "TypeError", k, w)
  ∧ (secrets k = [] → put key v expiration k w = (Throw "TypeError", k, w))
  ∧ (secrets k ≠ [] →
     ∃ k', put key v expiration k w
           = (Throw "TypeError", k', set_drawn (drawn w + 12) w)).
Proof.
  intros Hkv Hok. split; [|split; [|split]].
  - unfold KV.delete, bind, this. by rewrite Hkv.
  - unfold get, namespace, bind, this. by rewrite Hkv.
  - intros Hs. unfold put, namespace, bind, this, ret. by rewrite Hs, Hkv.
  - intros Hs. destruct (secrets k) as [|s rest] eqn:Hsec; [done|].
    destruct (getKey_run s k w Hok) as (k' & Hrun & (Hkv' & _)).
    exists k'. unfold put. unfold bind at 1. unfold this at 1. rewrite Hsec.
    erewrite bind_return; [|by erewrite bind_return by exact Hrun].
    unfold namespace, bind, this. by rewrite Hkv', Hkv.
Qed.

End store.

Import Sample.

Lemma constructor_keeps_nonempty_secrets_witness :
  let l := ["a"; EmptyString; "b"; "c"; EmptyString; "a"] in
  ∃ k,
    KV.new (Some SESSIONS_KV_namespace) (SecretList l) None = Return k
    ∧ kv k = Some SESSIONS_KV_namespace
    ∧ derivedKeys k = ∅
    ∧ secrets k = ["a"; "b"; "c"; "a"]
    ∧ (∀ s, s ∈ secrets k ↔ s ∈ l ∧ s ≠ EmptyString)
    ∧ (∀ pre s post,
         l = pre ++ s :: post → s ≠ EmptyString →
         secrets k
         = List.remove String.string_dec EmptyString pre
           ++ s :: List.remove String.string_dec EmptyString post)
    ∧ (∀ pre s post,
         l = pre ++ s :: post → Forall (λ x, x = EmptyString) pre →
         s ≠ EmptyString →
         ∃ rest, secrets k = s :: rest).
Proof.
  apply (constructor_keeps_nonempty_secrets (Some SESSIONS_KV_namespace)
           ["a"; EmptyString; "b"; "c"; EmptyString; "a"] None).
  right. exists "b". split; [|discriminate]. do 2 right. left.
Defined.

Lemma store_with_usable l : usable (store_with l).
Proof.
  split; [by eexists|]. intros s key Hs. cbn [derivedKeys store_with] in Hs.
  by rewrite lookup_empty in Hs.
Qed.

Lemma getKey_memoises_witness :
  ∃ k',
    getKey "k1" (store_with ["k1"]) (world_at 0)
      = (Return (derive "k1"), k', world_at 0)
    ∧ derivedKeys k' !! "k1" = Some (derive "k1")
    ∧ secrets k' = ["k1"]
    ∧ cache_ok k'
    ∧ getKey "k1" k' (world_at 0) = (Return (derive "k1"), k', world_at 0).
Proof.
  apply (getKey_memoises "k1" (store_with ["k1"]) (world_at 0)).
  apply store_with_usable.
Defined.

Lemma put_stores_iv_and_ciphertext_witness :
  ∃ k' w' entry part0 part1 iv,
    put "k" "v" (Some 600) (store_with ["k1"]) (world_at 0) = (Return tt, k', w')
    ∧ store w' !! "k" = Some entry
    ∧ kv_expiration entry = Some 600
    ∧ Chars.split ":" (list_ascii_of_string (kv_value entry)) = [part0; part1]
    ∧ atob (string_of_list_ascii part0) = Some iv
    ∧ length iv = 12%nat
    ∧ iv = map random_byte (seq 0 12)
    ∧ atob (string_of_list_ascii part1)
      = Some (AES_GCM_encrypt (derive "k1") iv
                (TextEncoder_encode (JSON_stringify "v")))
    ∧ drawn w' = 12%nat
    ∧ (∀ other, other ≠ "k" → store w' !! other = store (world_at 0) !! other).
Proof.
  apply (put_stores_iv_and_ciphertext "k" "v" (Some 600) (store_with ["k1"])
           (world_at 0) "k1" []).
  - apply store_with_usable.
  - reflexivity.
Defined.

Lemma plaintext_round_trip_witness :
  ∃ w',
    put "k" "v" (Some 600) (store_with []) (world_at 0)
      = (Return tt, store_with [], w')
    ∧ read (set_clock 599999 w') "k" = Some (JSON_stringify "v")
    ∧ get "k" (store_with []) (set_clock 599999 w')
      = (Return (Some "v"), store_with [], set_clock 599999 w').
Proof.
  apply (plaintext_round_trip "k" "v" (Some 600) (store_with []) (store_with [])
           (world_at 0) 599999).
  - by eexists.
  - by eexists.
  - reflexivity.
  - reflexivity.
  - reflexivity.
  - discriminate.
  - reflexivity.
Defined.

(** A namespace that holds [text] under the key k. *)
Definition holding (text : string) : World :=
  set_store (insert "k" {| kv_value := text; kv_expiration := None |}) (world_at 0).

Lemma plaintext_is_read_by_encrypted_store_witness :
  get "k" (store_with ["k1"]) (holding (JSON_stringify "a:b"))
  = (Return (Some "a:b"), store_with ["k1"], holding (JSON_stringify "a:b")).
Proof.
  apply (plaintext_is_read_by_encrypted_store "k" (JSON_stringify "a:b")
           (Some "a:b") (store_with ["k1"]) (holding (JSON_stringify "a:b"))).
  - by eexists.
  - reflexivity.
  - discriminate.
  - left. reflexivity.
  - reflexivity.
Defined.

Lemma get_never_throws_never_writes_witness :
  ∃ (r : option string) k',
    get "k" (store_with ["k1"]) (holding "QUJD:QUJD")
      = (Return r, k', holding "QUJD:QUJD")
    ∧ secrets k' = ["k1"] ∧ kv k' = Some SESSIONS_KV_namespace ∧ cache_ok k'
    ∧ (read (holding "QUJD:QUJD") "k" = None → r = None).
Proof.
  apply (get_never_throws_never_writes "k" (store_with ["k1"]) (holding "QUJD:QUJD")).
  apply store_with_usable.
Defined.

Lemma unknown_secret_reads_not_found_witness :
  ∃ reader',
    get (T:=string) "k" (store_with ["new"])
      (written "old" "k" "v" None (world_at 0))
    = (Return None, reader', written "old" "k" "v" None (world_at 0)).
Proof.
  apply (unknown_secret_reads_not_found "k" "old" (fresh (world_at 0) 12)
           (JSON_stringify "v") (store_with ["new"])
           (written "old" "k" "v" None (world_at 0))).
  - apply store_with_usable.
  - intros s' Hin. apply list_elem_of_singleton in Hin as ->. reflexivity.
  - reflexivity.
  - reflexivity.
Defined.

Lemma delete_then_get_not_found_witness :
  ∃ w',
    KV.delete "k" (store_with ["k1"]) (holding "QUJD:QUJD")
      = (Return tt, store_with ["k1"], w')
    ∧ get (T:=string) "k" (store_with ["k1"]) (set_clock 7 w')
      = (Return None, store_with ["k1"], set_clock 7 w')
    ∧ (∀ other, other ≠ "k" →
         store w' !! other = store (holding "QUJD:QUJD") !! other).
Proof.
  apply (delete_then_get_not_found "k" (store_with ["k1"]) (store_with ["k1"])
           (holding "QUJD:QUJD") 7); by eexists.
Defined.

(** A store over a binding that is missing. *)
Definition unbound (l : list string) : KVService :=
  {| kv := None; secrets := l; derivedKeys := ∅; requireSecret := true |}.

Lemma store_without_namespace_witness :
  KV.delete "k" (unbound ["k1"]) (world_at 0)
    = (Return tt, unbound ["k1"], world_at 0)
  ∧ get (T:=string) "k" (unbound ["k1"]) (world_at 0)
    = (Throw "TypeError", unbound ["k1"], world_at 0)
  ∧ (secrets (unbound ["k1"]) = [] →
     put "k" "v" None (unbound ["k1"]) (world_at 0)
     = (Throw "TypeError", unbound ["k1"], world_at 0))
  ∧ (secrets (unbound ["k1"]) ≠ [] →
     ∃ k', put "k" "v" None (unbound ["k1"]) (world_at 0)
           = (Throw "TypeError", k', set_drawn (drawn (world_at 0) + 12) (world_at 0))).
Proof.
  apply (store_without_namespace "k" "v" None (unbound ["k1"]) (world_at 0)).
  - reflexivity.
  - intros s key Hs. cbn [derivedKeys unbound] in Hs.
    by rewrite lookup_empty in Hs.
Defined.

End StoreExtras.
(** ** The authorization flow *)

Module AuthExtras.
Import JS Data World Monad MonadFacts KV KVFacts Auth AuthFacts StoreClaims.
Import Chars CharsFacts Base64 Base64Facts QueryFacts.

(** X11.  [base64UrlEncode] on any bytes: the text is of the base64url
    alphabet, without padding, of [ceil(4n/3)] characters; it stands in a
    query string as it is; the bytes are decoded from it again (after the
    two replacements are undone), so the encoding is injective. *)
Theorem base64UrlEncode_any_bytes (array : list byte) :
  base64url (base64UrlEncode array)
  ∧ String.length (base64UrlEncode array) = ((4 * length array + 2) / 3)%nat
  ∧ form_encode (base64UrlEncode array) = base64UrlEncode array
  ∧ atob (string_of_list_ascii
            (map Callback.url_unsafe (list_ascii_of_string (base64UrlEncode array))))
    = Some array
  ∧ (∀ other, base64UrlEncode other = base64UrlEncode array → other = array).
Proof.
  split; [apply base64UrlEncode_base64url|].
  split.
  { rewrite length_base64UrlEncode.
    destruct (length_sextets array) as (k & [[-> ->]|[[-> ->]|[-> ->]]]); div_lia. }
  split; [apply form_encode_base64UrlEncode|].
  split; [apply base64UrlEncode_decodes|].
  intros other. apply base64UrlEncode_inj.
Qed.

Section flow.
Context `{Platform}.

(** X12.  The query of the authorization URL cannot be misread:
    whatever the client identifier and the redirect URI of the
    deployment contain, splitting the query at [&] and each part at [=]
    gives the seven parameters, names and encoded values, and nothing
    else. *)
Theorem auth_url_query_cannot_be_misread {S} (env : Bindings) (s : S) (w : World) :
  ∃ r w' query,
    generateAuthUrl env s w = (Return r, s, w')
    ∧ url r = ENV_URI env +:+ "/a/consumer/api/v0/oidc/auth?" +:+ query
    ∧ map (λ part, map string_of_list_ascii (split "=" part))
          (split "&" (list_ascii_of_string query))
      = [["client_id"; form_encode (CLIENT_ID env)];
         ["response_type"; "code"];
         ["scope"; form_encode (String.concat " " SCOPES)];
         ["redirect_uri"; form_encode (REDIRECT_URI env)];
         ["code_challenge";
          base64UrlEncode (SHA256 (TextEncoder_encode (ar_codeVerifier r)))];
         ["code_challenge_method"; "S256"];
         ["state"; ar_state r]].
Proof.
  set (verifier := base64UrlEncode (map random_byte (seq (drawn w) 32))).
  set (state := base64UrlEncode (map random_byte (seq (drawn w + 32) 16))).
  set (challenge := base64UrlEncode (SHA256 (TextEncoder_encode verifier))).
  exists {| url := ENV_URI env +:+ "/a/consumer/api/v0/oidc/auth?"
                   +:+ URLSearchParams_toString (auth_params env challenge state);
            ar_codeVerifier := verifier; ar_state := state |},
    (set_drawn (drawn w + 32 + 16) w),
    (URLSearchParams_toString (auth_params env challenge state)).
  split; [reflexivity|]. split; [reflexivity|].
  unfold auth_params. rewrite split_query.
  cbn [map]. rewrite !split_pair_text. cbn [map fst snd].
  rewrite !string_of_list_ascii_of_string. cbn [ar_codeVerifier ar_state].
  unfold challenge at 1. unfold state at 1.
  rewrite !form_encode_base64UrlEncode.
  reflexivity.
Qed.

Lemma state_store_usable env : is_Some (SESSIONS_KV env) → usable (state_store env).
Proof.
  intros Hns. split; [done|]. intros s key. simpl. by rewrite lookup_empty.
Qed.

Lemma state_store_secrets env :
  secrets (state_store env) = [] ∨ ∃ s, secrets (state_store env) = [s].
Proof.
  simpl. destruct (SESSION_ENC_SECRET env) as [s|]; [|by left].
  destruct (truthy_string s); [right; by exists s|by left].
Qed.

(** What a store with at most one secret reads after its own write. *)
Lemma put_then_get {T} `{JSON T} key (v : T) expiration k w t :
  usable k → (secrets k = [] ∨ ∃ s, secrets k = [s]) →
  AEAD_correct → json_ok v → JSON_stringify v ≠ EmptyString →
  ∃ k1 w1 entry,
    put key v expiration k w = (Return tt, k1, w1)
    ∧ store w1 = <[key := entry]> (store w)
    ∧ kv_expiration entry = expiration
    ∧ requests w1 = requests w ∧ clock w1 = clock w ∧ cookies w1 = cookies w
    ∧ (readable_at expiration t →
       ∃ k2, get key k (set_clock t w1) = (Return (Some v), k2, set_clock t w1)
             ∧ cached k k2)
    ∧ (¬ readable_at expiration t → read (set_clock t w1) key = None).
Proof.
  intros [Hkv Hok] Hsecrets Haead Hv Hne.
  assert (Hdead : ∀ text (w0 : World),
            ¬ readable_at expiration t →
            read (set_clock t
                    (set_store (insert key {| kv_value := text;
                                              kv_expiration := expiration |}) w0))
                 key = None).
  { intros text w0 Hlive. unfold read. simpl. rewrite lookup_insert_eq.
    unfold live. simpl. destruct expiration as [x|]; simpl in Hlive; [|done].
    by apply Z.ltb_nlt in Hlive as ->. }
  destruct Hsecrets as [Hs|[s Hs]].
  - eexists k, _, _. split; [by apply put_plain_run|].
    split; [reflexivity|]. repeat split.
    + intros Hlive. exists k. split; [|by apply cached_refl].
      destruct Hkv as [ns Hkv].
      assert (Hread : read (set_clock t
                (set_store (insert key {| kv_value := JSON_stringify v;
                                          kv_expiration := expiration |}) w)) key
              = Some (JSON_stringify v)).
      { unfold read. simpl. rewrite lookup_insert_eq. unfold live. simpl.
        destruct expiration as [x|]; [|done].
        simpl in Hlive. by apply Z.ltb_lt in Hlive as ->. }
      unfold get, namespace, bind, this, kv_get. rewrite Hkv, Hread.
      unfold truthy_string. apply String.eqb_neq in Hne as ->. simpl.
      rewrite Hs. simpl. unfold parse_or. by rewrite Hv.
    + apply Hdead.
  - destruct (put_run key v expiration k w s [] Hok Hkv Hs) as (k1 & Hput & _).
    eexists k1, _, _. split; [exact Hput|].
    split; [reflexivity|]. repeat split.
    + intros Hlive.
      apply (get_sealed key s (fresh w 12) (JSON_stringify v) (Some v) k
               (set_clock t (written s key v expiration w))); try done.
      * by apply read_written.
      * rewrite Hs. left.
      * rewrite Hs. by apply unforged_single.
    + apply Hdead.
Qed.

(** X13.  The verifier of a login reaches the token endpoint, and only
    through the state of that login.  [initiateAuth] answers with the
    authorization URL whose query carries the state and the challenge
    of the verifier, and keeps the verifier under that state until the
    clock reaches the whole second [floor(now / 1000) + 600]: for 600
    seconds less the milliseconds of the login time.  A callback that
    presents this state and a code before that second (always when at
    most 599 seconds have passed) exchanges the code with exactly that
    verifier, the entry being deleted first; from that second on
    (always when 600 seconds have passed) the callback is refused and
    nothing is requested. *)
Theorem callback_presents_the_verifier_of_the_login {S}
    (login back : Context) (s : S) (w : World) (t : Z) :
  let verifier := base64UrlEncode (map random_byte (seq (drawn w) 32)) in
  let state := base64UrlEncode (map random_byte (seq (drawn w + 32) 16)) in
  let challenge := base64UrlEncode (SHA256 (TextEncoder_encode verifier)) in
  let key := "auth_state:" +:+ state in
  is_Some (SESSIONS_KV (env login)) →
  env back = env login →
  truthy_opt (query_error back) = false →
  truthy_opt (query_code back) = true →
  query_state back = Some state →
  AEAD_correct →
  json_ok {| codeVerifier := verifier |} →
  JSON_stringify {| codeVerifier := verifier |} ≠ EmptyString →
  ∃ query w1 entry,
    initiateAuth login s w
    = (Return (ENV_URI (env login) +:+ "/a/consumer/api/v0/oidc/auth?" +:+ query),
       s, w1)
    ∧ query_parameters query
      = [("client_id", CLIENT_ID (env login));
         ("response_type", "code");
         ("scope", String.concat " " SCOPES);
         ("redirect_uri", REDIRECT_URI (env login));
         ("code_challenge", challenge);
         ("code_challenge_method", "S256");
         ("state", state)]
    ∧ store w1 = <[key := entry]> (store w)
    ∧ kv_expiration entry = Some (clock w / 1000 + 600)
    ∧ requests w1 = requests w
    ∧ let accepted :=
        processAuthCallback back s (set_clock t w1)
        = exchangeCodeForToken (to_string (query_code back)) verifier (env back) s
            (set_store (base.delete key) (set_clock t w1)) in
      let refused :=
        processAuthCallback back s (set_clock t w1)
        = (Throw "Invalid or expired OAuth state", s, set_clock t w1) in
      (t / 1000 < clock w / 1000 + 600 → accepted)
      ∧ (clock w / 1000 + 600 ≤ t / 1000 → refused)
      ∧ (t ≤ clock w + 599000 → accepted)
      ∧ (clock w + 600000 ≤ t → refused).
Proof.
  intros verifier state challenge key Hns Henv Herr Hcode Hstate Haead Hv Hne.
  assert (Hstate_ne : state ≠ EmptyString).
  { intros Heq. pose proof (length_base64UrlEncode
                              (map random_byte (seq (drawn w + 32) 16))) as Hlen.
    fold state in Hlen. rewrite Heq, length_sextets_16 in Hlen; [done|].
    by rewrite length_map, length_seq. }
  assert (Hverifier : truthy_string verifier = true).
  { unfold truthy_string. apply negb_true_iff, String.eqb_neq. intros Heq.
    pose proof (length_base64UrlEncode
                  (map random_byte (seq (drawn w) 32))) as Hlen.
    fold verifier in Hlen. rewrite Heq, length_sextets_32 in Hlen; [done|].
    by rewrite length_map, length_seq. }
  destruct (put_then_get key {| codeVerifier := verifier |}
              (Some (clock w / 1000 + 600)) (state_store (env login))
              (set_drawn (drawn w + 32 + 16) w) t
              (state_store_usable _ Hns) (state_store_secrets _) Haead Hv Hne)
    as (k1 & w1 & entry & Hput & Hstore & Hexp & Hreq & Hclock & _ & Hlive & Hdead).
  assert (Hwf : well_formed back state).
  { repeat split; try done. by rewrite Henv. }
  exists (URLSearchParams_toString (auth_params (env login) challenge state)),
    w1, entry.
  split.
  { unfold initiateAuth.
    erewrite bind_return by (unfold generateAuthUrl; reflexivity).
    destruct Hns as [ns Hns]. rewrite Hns.
    cbn [ar_state ar_codeVerifier url].
    erewrite bind_return; [reflexivity|].
    unfold lift. rewrite (new_state_store _ _ Hns).
    erewrite bind_return by reflexivity.
    eapply with_object_run.
    erewrite bind_return by reflexivity.
    exact Hput. }
  split; [apply query_parameters_toString|].
  split; [exact Hstore|]. split; [exact Hexp|]. split; [exact Hreq|].
  intros accepted refused.
  assert (Hearly : t / 1000 < clock w / 1000 + 600 → accepted);
    [|assert (Hlate : clock w / 1000 + 600 ≤ t / 1000 → refused);
      [|split; [exact Hearly|]; split; [exact Hlate|]; split;
        [intros Ht; apply Hearly; div_lia|intros Ht; apply Hlate; div_lia]]].
  - intros Ht. unfold accepted. destruct (Hlive Ht) as (k2 & Hget & Hk2).
    rewrite (processAuthCallback_lookup back state) by done.
    rewrite Henv.
    erewrite bind_return.
    2:{ eapply with_object_run. erewrite bind_return by exact Hget.
        cbv beta iota. erewrite bind_return
          by (apply delete_run; destruct Hk2 as (-> & _); by apply state_store_kv).
        reflexivity. }
    cbn [codeVerifier]. by rewrite Hverifier.
  - intros Ht. unfold refused.
    apply processAuthCallback_unknown with (state := state); [done|].
    apply Hdead. simpl. lia.
Qed.

(** X24.  A deployment without the namespace: the login still answers
    with an authorization URL, having kept nothing; no callback can
    then succeed, whatever it presents, and none reaches the token
    endpoint. *)
Theorem login_without_namespace_cannot_complete {S}
    (login back : Context) (s : S) (w : World) :
  SESSIONS_KV (env login) = None →
  env back = env login →
  (∃ location,
     initiateAuth login s w
     = (Return location, s, set_drawn (drawn w + 32 + 16) w))
  ∧ (∀ w', ∃ e, processAuthCallback back s w' = (Throw e, s, w')).
Proof.
  intros Hns Henv. split.
  - eexists. unfold initiateAuth.
    erewrite bind_return by (unfold generateAuthUrl; reflexivity).
    by rewrite Hns.
  - intros w'. unfold processAuthCallback. rewrite Henv, Hns.
    destruct (truthy_opt (query_error back)); [by eexists|].
    destruct (truthy_opt (query_code back)); [|by eexists].
    destruct (truthy_opt (query_state back)); by eexists.
Qed.

End flow.

Import Sample.

(** The state that a login started on [world_at noon] puts into its URL. *)
Definition first_state : string :=
  base64UrlEncode (map random_byte (seq 32 16)).

Lemma callback_presents_the_verifier_of_the_login_witness :
  let verifier := base64UrlEncode (map random_byte (seq 0 32)) in
  let challenge := base64UrlEncode (SHA256 (TextEncoder_encode verifier)) in
  let back := AuthClaims.request (Some "code-ok") (Some first_state) in
  let t := noon + 599000 in
  ∃ query w1 entry,
    initiateAuth (AuthClaims.request None None) tt (world_at noon)
    = (Return ("https://idp.example" +:+ "/a/consumer/api/v0/oidc/auth?" +:+ query),
       tt, w1)
    ∧ query_parameters query
      = [("client_id", "client");
         ("response_type", "code");
         ("scope", String.concat " " SCOPES);
         ("redirect_uri", "https://app.example/callback");
         ("code_challenge", challenge);
         ("code_challenge_method", "S256");
         ("state", first_state)]
    ∧ store w1 = <[("auth_state:" +:+ first_state) := entry]> (store (world_at noon))
    ∧ kv_expiration entry = Some (noon / 1000 + 600)
    ∧ requests w1 = []
    ∧ let accepted :=
        processAuthCallback back tt (set_clock t w1)
        = exchangeCodeForToken "code-ok" verifier bindings tt
            (set_store (base.delete ("auth_state:" +:+ first_state))
               (set_clock t w1)) in
      let refused :=
        processAuthCallback back tt (set_clock t w1)
        = (Throw "Invalid or expired OAuth state", tt, set_clock t w1) in
      (t / 1000 < noon / 1000 + 600 → accepted)
      ∧ (noon / 1000 + 600 ≤ t / 1000 → refused)
      ∧ (t ≤ noon + 599000 → accepted)
      ∧ (noon + 600000 ≤ t → refused).
Proof.
  assert (Hns : is_Some (SESSIONS_KV (env (AuthClaims.request None None))))
    by (by eexists).
  assert (Hjson : json_ok {| codeVerifier := base64UrlEncode (map random_byte (seq 0 32)) |})
    by (vm_compute; reflexivity).
  assert (Hne : JSON_stringify
                  {| codeVerifier := base64UrlEncode (map random_byte (seq 0 32)) |}
                ≠ EmptyString)
    by (intros Heq; vm_compute in Heq; discriminate).
  exact (callback_presents_the_verifier_of_the_login
           (AuthClaims.request None None)
           (AuthClaims.request (Some "code-ok") (Some first_state))
           tt (world_at noon) (noon + 599000)
           Hns eq_refl eq_refl eq_refl eq_refl sample_AEAD_correct Hjson Hne).
Defined.

(** The life of the entry is cut at a whole second: a login 999 ms after
    noon is refused 599 001 ms later, less than 600 seconds after it. *)
Example late_login_is_refused_early :
  let login := initiateAuth (AuthClaims.request None None) tt (world_at (noon + 999)) in
  let back := AuthClaims.request (Some "code-ok") (Some first_state) in
  (∃ location, login.1.1 = Return location)
  ∧ processAuthCallback back tt (set_clock (noon + 999 + 599001) login.2)
    = (Throw "Invalid or expired OAuth state", tt,
       set_clock (noon + 999 + 599001) login.2)
  ∧ ∃ tokens, (processAuthCallback back tt (set_clock (noon + 999 + 599000) login.2)).1.1
              = Return tokens.
Proof.
  split; [eexists; vm_compute; reflexivity|].
  split; [vm_compute; reflexivity|]. eexists; vm_compute; reflexivity.
Qed.

(** The sample deployment without its namespace. *)
Definition unbound_request (code state : option string) : Context :=
  {| query_code := code; query_error := None;
     query_error_description := None; query_state := state;
     env := {| CLIENT_ID := "client"; CLIENT_SECRET := "hush";
               REDIRECT_URI := "https://app.example/callback";
               ENV_URI := "https://idp.example";
               SESSION_ENC_SECRET := Some "k1";
               SESSIONS_KV := None |} |}.

Lemma login_without_namespace_cannot_complete_witness :
  (∃ location,
     initiateAuth (unbound_request None None) tt (world_at noon)
     = (Return location, tt, set_drawn (drawn (world_at noon) + 32 + 16) (world_at noon)))
  ∧ (∀ w', ∃ e,
       processAuthCallback (unbound_request (Some "code-ok") (Some first_state)) tt w'
       = (Throw e, tt, w')).
Proof.
  exact (login_without_namespace_cannot_complete
           (unbound_request None None)
           (unbound_request (Some "code-ok") (Some first_state))
           tt (world_at noon) eq_refl eq_refl).
Defined.

End AuthExtras.

(** ** Identifiers and identity tokens *)

Module CryptoExtras.
Import JS Data World Monad MonadFacts KV KVFacts Auth AuthFacts AuthExtras QueryFacts.
Import Chars CharsFacts Base64 Base64Facts CryptoUtils.

(** A digit of lower-case hexadecimal. *)
Definition is_hex_lower (c : ascii) : bool :=
  let n := N_of_ascii c in
  (((48 <=? n) && (n <=? 57)) || ((97 <=? n) && (n <=? 102)))%N.

Definition hex_value (c : ascii) : N :=
  let n := N_of_ascii c in
  (if n <? 58 then n - 48 else n - 87)%N.

Definition digits_ok (b : byte) : bool :=
  match padStart2 (toString16 b) with
  | [hi; lo] =>
      is_hex_lower hi && is_hex_lower lo
      && Byte.eqb (byte_of (hex_value hi * 16 + hex_value lo)) b
  | _ => false
  end.

Lemma digits_table b : digits_ok b = true.
Proof.
  assert (Hall : forallb (λ n, digits_ok (byte_of (N.of_nat n))) (seq 0 256) = true)
    by (vm_compute; reflexivity).
  rewrite forallb_forall in Hall.
  rewrite <- (byte_of_to_N b _ eq_refl), <- (N2Nat.id (Byte.to_N b)).
  apply Hall, in_seq. pose proof (Byte.to_N_bounded b). lia.
Qed.

Lemma digits_of b :
  ∃ hi lo,
    padStart2 (toString16 b) = [hi; lo]
    ∧ is_hex_lower hi = true ∧ is_hex_lower lo = true
    ∧ byte_of (hex_value hi * 16 + hex_value lo) = b.
Proof.
  pose proof (digits_table b) as Hb. unfold digits_ok in Hb.
  destruct (padStart2 (toString16 b)) as [|hi [|lo [|c l]]]; try done.
  apply andb_prop in Hb as [Hb Hbyte]. apply andb_prop in Hb as [Hhi Hlo].
  exists hi, lo. repeat split; try done.
  by apply Byte.byte_dec_bl.
Qed.

Definition hex_chars (array : list byte) : list ascii :=
  concat (map (λ b, padStart2 (toString16 b)) array).

Lemma hex_chars_inj a b : hex_chars a = hex_chars b → a = b.
Proof.
  revert b. induction a as [|x a IH]; intros [|y b]; unfold hex_chars; simpl.
  - done.
  - destruct (digits_of y) as (hi & lo & -> & _). discriminate.
  - destruct (digits_of x) as (hi & lo & -> & _). discriminate.
  - destruct (digits_of x) as (hi & lo & -> & _ & _ & Hx).
    destruct (digits_of y) as (hi' & lo' & -> & _ & _ & Hy).
    simpl. intros [= -> -> Hrest]. rewrite <- Hx, <- Hy. f_equal.
    by apply IH.
Qed.

(** X14.  The random identifiers of [utils/crypto.ts].  [generateState]
    writes 32 random bytes, [generateSessionId] 16, in hexadecimal: two
    lower-case digits for every byte, so 64 and 32 characters, and
    different bytes give different identifiers. *)
Theorem random_identifiers_are_hexadecimal `{Platform} {S} (s : S) (w : World) :
  generateState s w
    = (Return (hex (map random_byte (seq (drawn w) 32))), s,
       set_drawn (drawn w + 32) w)
  ∧ generateSessionId s w
    = (Return (hex (map random_byte (seq (drawn w) 16))), s,
       set_drawn (drawn w + 16) w)
  ∧ ∀ array : list byte,
      String.length (hex array) = (2 * length array)%nat
      ∧ Forall (λ c, is_hex_lower c = true) (list_ascii_of_string (hex array))
      ∧ (∀ other, hex other = hex array → other = array).
Proof.
  split; [reflexivity|]. split; [reflexivity|].
  intros array. unfold hex. fold (hex_chars array).
  rewrite length_string_of_list_ascii, list_ascii_of_string_of_list_ascii.
  split; [|split].
  - induction array as [|b array IH]; [done|].
    unfold hex_chars in *. simpl.
    destruct (digits_of b) as (hi & lo & -> & _). simpl. lia.
  - induction array as [|b array IH]; [constructor|].
    unfold hex_chars in *. simpl.
    destruct (digits_of b) as (hi & lo & -> & Hhi & Hlo & _). simpl.
    by repeat constructor.
  - intros other Heq. fold (hex_chars other) in Heq.
    apply hex_chars_inj.
    by rewrite <- (list_ascii_of_string_of_list_ascii (hex_chars other)), Heq,
      list_ascii_of_string_of_list_ascii.
Qed.

(** *** Identity tokens *)

(** The token with the three parts [header], [payload] and [signature]. *)
Definition jwt (header payload signature : string) : string :=
  header +:+ "." +:+ payload +:+ "." +:+ signature.

Definition dotless (s : string) : Prop := "."%char ∉ list_ascii_of_string s.

Lemma jwt_parts header payload signature :
  dotless header → dotless payload →
  split "." (list_ascii_of_string (jwt header payload signature))
  = list_ascii_of_string header :: list_ascii_of_string payload
      :: split "." (list_ascii_of_string signature).
Proof.
  intros Hh Hp. unfold jwt.
  rewrite list_ascii_of_string_app.
  change (list_ascii_of_string ("." +:+ ?s)) with ("."%char :: list_ascii_of_string s).
  rewrite split_cons by done.
  rewrite list_ascii_of_string_app.
  change (list_ascii_of_string ("." +:+ ?s)) with ("."%char :: list_ascii_of_string s).
  by rewrite split_cons.
Qed.

Lemma split_not_nil c s : split c s ≠ [].
Proof.
  induction s as [|x xs IH]; simpl; [done|].
  destruct (Ascii.eqb x c); [done|]. by destruct (split c xs).
Qed.

Lemma base64UrlEncode_dotless bs : dotless (base64UrlEncode bs).
Proof.
  unfold dotless. intros Hin.
  pose proof (base64UrlEncode_base64url bs) as Hall. unfold base64url in Hall.
  rewrite Forall_forall in Hall. apply Hall in Hin as [Hin _].
  by vm_compute in Hin.
Qed.

Section tokens.
Context `{Platform}.

(** What the decoder answers on a token whose middle part is the
    base64url text of [bytes]. *)
Definition decoded_payload {T} `{JSON T} (bytes : list byte) : Outcome (option T) :=
  if utf8_valid bytes then
    match JSON_parse (TextDecoder_decode bytes) with
    | Some v => Return v
    | None => Throw (runtime_message "SyntaxError" (TextDecoder_decode bytes))
    end
  else Throw (runtime_message "URIError" (TextDecoder_decode bytes)).

Lemma decodeJwtPayload_as_run {T} `{JSON T} {S} header signature bytes (s : S) w :
  dotless header →
  decodeJwtPayload_as (T:=T) (jwt header (base64UrlEncode bytes) signature) s w
  = (decoded_payload bytes, s, w).
Proof.
  intros Hh. unfold decodeJwtPayload_as, decoded_payload.
  rewrite jwt_parts by (done || apply base64UrlEncode_dotless).
  assert (Hgo :
    (match atob (string_of_list_ascii
                   (map Callback.url_unsafe
                        (list_ascii_of_string (base64UrlEncode bytes)))) with
     | Some decoded =>
         bind (Callback.decodeURIComponent_escaped decoded)
           (λ text, match JSON_parse (T:=T) text with
                    | Some v => ret v
                    | None => throw (runtime_message "SyntaxError" text)
                    end)
     | None =>
         throw (runtime_message "InvalidCharacterError"
                  (string_of_list_ascii
                     (map Callback.url_unsafe
                          (list_ascii_of_string (base64UrlEncode bytes)))))
     end) s w
    = (if utf8_valid bytes then
         match JSON_parse (T:=T) (TextDecoder_decode bytes) with
         | Some v => Return v
         | None => Throw (runtime_message "SyntaxError" (TextDecoder_decode bytes))
         end
       else Throw (runtime_message "URIError" (TextDecoder_decode bytes)), s, w)).
  { rewrite base64UrlEncode_decodes.
    unfold bind, Callback.decodeURIComponent_escaped.
    destruct (utf8_valid bytes); [|done]. unfold ret.
    by destruct (JSON_parse (TextDecoder_decode bytes)). }
  by destruct (split "." (list_ascii_of_string signature)).
Qed.

(** X15.  [decodeJwtPayload] reads the payload and nothing else: for
    every header without a dot and every signature, the token whose
    middle part is the base64url text of a serialised value, in UTF-8,
    decodes to that value; a payload that is the text [null] decodes
    to [null]; a payload whose bytes are not UTF-8 makes the decoder
    throw the [URIError] of [decodeURIComponent].  So it is for the
    payload of an identity token, as the callback handler reads it. *)
Theorem decodeJwtPayload_reads_the_payload_only {T} `{JSON T} {S}
    (header signature : string) (v : T) (s : S) (w : World) :
  dotless header → json_ok v →
  utf8_valid (TextEncoder_encode (JSON_stringify v)) = true →
  let token (bytes : list byte) := jwt header (base64UrlEncode bytes) signature in
  decodeJwtPayload_as (token (TextEncoder_encode (JSON_stringify v))) s w
  = (Return (Some v), s, w)
  ∧ (∀ id : IdTokenPayload,
       json_ok id →
       utf8_valid (TextEncoder_encode (JSON_stringify id)) = true →
       Callback.decodeJwtPayload
         (token (TextEncoder_encode (JSON_stringify id))) s w
       = (Return (Some id), s, w))
  ∧ (∀ text,
       utf8_valid (TextEncoder_encode text) = true →
       JSON_parse (T:=T) text = Some None →
       decodeJwtPayload_as (T:=T) (token (TextEncoder_encode text)) s w
       = (Return None, s, w))
  ∧ (∀ bytes,
       utf8_valid bytes = false →
       decodeJwtPayload_as (T:=T) (token bytes) s w
       = (Throw (runtime_message "URIError" (TextDecoder_decode bytes)), s, w)
       ∧ Callback.decodeJwtPayload (token bytes) s w
         = (Throw (runtime_message "URIError" (TextDecoder_decode bytes)), s, w)).
Proof.
  intros Hh Hv Hutf token.
  assert (Hid : ∀ token' : string,
            Callback.decodeJwtPayload (S:=S) token'
            = decodeJwtPayload_as (T:=IdTokenPayload) token') by reflexivity.
  split; [|split; [|split]].
  - unfold token. rewrite decodeJwtPayload_as_run by done.
    unfold decoded_payload. by rewrite Hutf, decode_encode_text, Hv.
  - intros id Hjson Hvalid. unfold token.
    rewrite Hid, decodeJwtPayload_as_run by done.
    unfold decoded_payload. by rewrite Hvalid, decode_encode_text, Hjson.
  - intros text Hvalid Hnull. unfold token.
    rewrite decodeJwtPayload_as_run by done.
    unfold decoded_payload. by rewrite Hvalid, decode_encode_text, Hnull.
  - intros bytes Hinvalid. unfold token.
    rewrite Hid, !decodeJwtPayload_as_run by done.
    unfold decoded_payload. by rewrite Hinvalid.
Qed.

Context {Header : Type} `{JSON Header} `{JSON JwtPayload}.

Definition verification_prefix : string := "JWT verification failed: ".

(** X16.  [verifyJwtSignature] does not look at the signature: two
    tokens that differ in their third part only are answered alike. *)
Theorem verifyJwtSignature_ignores_the_signature {S}
    (header payload signature signature' : string) (s : S) (w : World) :
  dotless header → dotless payload →
  dotless signature → dotless signature' →
  verifyJwtSignature (Header:=Header) (jwt header payload signature) s w
  = verifyJwtSignature (Header:=Header) (jwt header payload signature') s w.
Proof.
  intros Hh Hp Hs Hs'.
  unfold verifyJwtSignature, try_catch, decodeJwtPayload_as.
  rewrite !jwt_parts by done.
  rewrite !split_none by done.
  reflexivity.
Qed.

Lemma decodeJwtPayload_as_pure {T} `{JSON T} {S} token (s : S) w :
  ∃ r, decodeJwtPayload_as (T:=T) token s w = (r, s, w).
Proof.
  unfold decodeJwtPayload_as.
  destruct (split "." (list_ascii_of_string token)) as [|part0 [|part1 parts]];
    try by eexists.
  destruct (atob _) as [decoded|]; [|by eexists].
  unfold bind, Callback.decodeURIComponent_escaped.
  destruct (utf8_valid decoded); [|by eexists].
  unfold ret. destruct (JSON_parse _) as [v|]; by eexists.
Qed.

(** X17.  What [verifyJwtSignature] answers.  A payload is returned
    only for a token of three parts, it is the payload that
    [decodeJwtPayload] reads, and its expiry, when it is truthy, is not
    before the current second.  Every failure is an error whose message
    starts with the one prefix; a token that is not of three parts is
    refused as of invalid format.  The world is never changed. *)
Theorem verifyJwtSignature_outcomes {S} (token : string) (s : S) (w : World) :
  ∃ r,
    verifyJwtSignature (Header:=Header) token s w = (r, s, w)
    ∧ match r with
      | Return payload =>
          length (split "." (list_ascii_of_string token)) = 3%nat
          ∧ decodeJwtPayload_as token s w = (Return (Some payload), s, w)
          ∧ (truthy_field (jwt_exp payload) = true →
             field_lt (jwt_exp payload) (clock w / 1000) = false)
      | Throw message => ∃ e, message = verification_prefix +:+ e
      end
    ∧ (length (split "." (list_ascii_of_string token)) ≠ 3%nat →
       r = Throw (verification_prefix +:+ "Invalid JWT format")).
Proof.
  unfold verifyJwtSignature, try_catch.
  destruct (decodeJwtPayload_as_pure (T:=JwtPayload) token s w) as (r0 & Hdec).
  destruct (split "." (list_ascii_of_string token))
    as [|part0 [|part1 [|part2 [|part3 parts]]]] eqn:Hsplit;
    try (eexists; split; [reflexivity|]; split; [by eexists|]; done).
  destruct (atob _) as [binary|];
    [|eexists; split; [reflexivity|]; split; [by eexists|]; done].
  destruct (JSON_parse _) as [header|];
    [|eexists; split; [reflexivity|]; split; [by eexists|]; done].
  unfold bind at 1. rewrite Hdec.
  destruct r0 as [[payload|]|e];
    [|eexists; split; [reflexivity|]; split; [by eexists|]; done ..].
  unfold bind, Date_now.
  destruct (truthy_field (jwt_exp payload) && field_lt (jwt_exp payload) (clock w / 1000))
    eqn:Hexp.
  - eexists; split; [reflexivity|]; split; [by eexists|]; done.
  - eexists; split; [reflexivity|]. split; [|done].
    split; [done|]. split; [done|].
    intros Ht. by rewrite Ht in Hexp.
Qed.

End tokens.

Import Sample.

#[export] Instance codec_jwt : JSON JwtPayload := {
  JSON_stringify a := print_object "jwt" [jwt_sub a; print_field (jwt_exp a)];
  JSON_parse s :=
    parse_null s
      match parse_object "jwt" s with
      | Some [u; e] =>
          match parse_field e with
          | Some e => Some {| jwt_sub := u; jwt_exp := e |}
          | None => None
          end
      | _ => None
      end
}.

(** The claims of a token for the subject user-1, valid until a hundred
    seconds after noon. *)
Definition claims : JwtPayload :=
  {| jwt_sub := "user-1"; jwt_exp := Number (noon_s + 100) |}.

Definition claims_text : string :=
  base64UrlEncode (TextEncoder_encode (JSON_stringify claims)).

Definition header_text : string :=
  base64UrlEncode (TextEncoder_encode (JSON_stringify "RS256")).

Lemma decodeJwtPayload_reads_the_payload_only_witness :
  let token (bytes : list byte) := jwt "any header" (base64UrlEncode bytes) "any.signature" in
  decodeJwtPayload_as (token (TextEncoder_encode (JSON_stringify claims)))
    tt (world_at noon)
  = (Return (Some claims), tt, world_at noon)
  ∧ (∀ id : IdTokenPayload,
       json_ok id →
       utf8_valid (TextEncoder_encode (JSON_stringify id)) = true →
       Callback.decodeJwtPayload (token (TextEncoder_encode (JSON_stringify id)))
         tt (world_at noon)
       = (Return (Some id), tt, world_at noon))
  ∧ (∀ text,
       utf8_valid (TextEncoder_encode text) = true →
       JSON_parse (T:=JwtPayload) text = Some None →
       decodeJwtPayload_as (T:=JwtPayload) (token (TextEncoder_encode text))
         tt (world_at noon)
       = (Return None, tt, world_at noon))
  ∧ (∀ bytes,
       utf8_valid bytes = false →
       decodeJwtPayload_as (T:=JwtPayload) (token bytes) tt (world_at noon)
       = (Throw (runtime_message "URIError" (TextDecoder_decode bytes)), tt,
          world_at noon)
       ∧ Callback.decodeJwtPayload (token bytes) tt (world_at noon)
         = (Throw (runtime_message "URIError" (TextDecoder_decode bytes)), tt,
            world_at noon)).
Proof.
  assert (Hdot : dotless "any header").
  { intros Hin. by vm_compute in Hin; repeat (apply elem_of_cons in Hin as [Hin|Hin];
      [discriminate|]); apply elem_of_nil in Hin. }
  exact (decodeJwtPayload_reads_the_payload_only "any header" "any.signature"
           claims tt (world_at noon) Hdot eq_refl eq_refl).
Defined.

(** A payload that is the text null, and one that is the byte ff alone:
    the first decodes to [null], the second is no UTF-8. *)
Example null_and_malformed_payloads :
  decodeJwtPayload_as (T:=JwtPayload)
    (jwt "h" (base64UrlEncode (TextEncoder_encode "null")) "s") tt (world_at noon)
  = (Return None, tt, world_at noon)
  ∧ decodeJwtPayload_as (T:=JwtPayload)
      (jwt "h" (base64UrlEncode [Byte.xff]) "s") tt (world_at noon)
    = (Throw (runtime_message "URIError" (TextDecoder_decode [Byte.xff])), tt,
       world_at noon).
Proof. split; vm_compute; reflexivity. Qed.

Lemma verifyJwtSignature_ignores_the_signature_witness :
  verifyJwtSignature (Header:=string) (jwt header_text claims_text "signed")
    tt (world_at noon)
  = verifyJwtSignature (Header:=string) (jwt header_text claims_text "forged")
      tt (world_at noon).
Proof.
  apply (verifyJwtSignature_ignores_the_signature (Header:=string)
           header_text claims_text "signed" "forged" tt (world_at noon)).
  - apply base64UrlEncode_dotless.
  - apply base64UrlEncode_dotless.
  - intros Hin. by vm_compute in Hin; repeat (apply elem_of_cons in Hin as [Hin|Hin];
      [discriminate|]); apply elem_of_nil in Hin.
  - intros Hin. by vm_compute in Hin; repeat (apply elem_of_cons in Hin as [Hin|Hin];
      [discriminate|]); apply elem_of_nil in Hin.
Defined.

(** The token is accepted while it is valid, whatever its signature, and
    refused from the second after its expiry on. *)
Example forged_token_is_accepted :
  verifyJwtSignature (Header:=string) (jwt header_text claims_text "forged")
    tt (world_at noon)
  = (Return claims, tt, world_at noon)
  ∧ verifyJwtSignature (Header:=string) (jwt header_text claims_text "forged")
      tt (world_at (noon + 101000))
    = (Throw "JWT verification failed: JWT expired", tt, world_at (noon + 101000)).
Proof. split; vm_compute; reflexivity. Qed.

End CryptoExtras.

(** ** The session store *)

Module SessionExtras.
Import JS Data World Monad MonadFacts KV KVFacts Session SessionFacts.
Import StoreClaims SessionClaims.

Section sessions.
Context `{Platform}.

(** The world after a call differs from the one before in the entry of
    [key] at most, and in what the call drew and requested. *)
Definition touches_only (key : string) (w w' : World) : Prop :=
  (∀ other, other ≠ key → store w' !! other = store w !! other)
  ∧ clock w' = clock w ∧ cookies w' = cookies w
  ∧ (requests w' = requests w ∨ ∃ request, requests w' = requests w ++ [request]).

Lemma touches_only_refl key w : touches_only key w w.
Proof. repeat split. by left. Qed.

Lemma getSession_local s sessionId ss w :
  ready ss s →
  ∃ r ss' w',
    getSession sessionId ss w = (Return r, ss', w')
    ∧ later ss ss'
    ∧ touches_only ("session:" +:+ sessionId) w w'
    ∧ (read w ("session:" +:+ sessionId) = None → r = None ∧ w' = w).
Proof.
  intros Hr.
  destruct (read w ("session:" +:+ sessionId)) as [text|] eqn:Hread.
  2:{ destruct (getSession_missing sessionId ss w s Hr Hread) as (ss' & Hrun & Hl).
      exists None, ss', w.
      split; [done|]. split; [done|]. split; [apply touches_only_refl|done]. }
  destruct (kvs_get_total (T:=StoredSession) ("session:" +:+ sessionId) ss w s Hr)
    as (r0 & ss1 & Hrun & Hl1).
  pose proof (later_ready _ _ _ Hr Hl1) as Hr1.
  unfold getSession.
  destruct r0 as [kvRes|].
  2:{ exists None, ss1, w.
      split; [|split; [done|]; split; [apply touches_only_refl|done]].
      eapply try_catch_return. by erewrite bind_return by exact Hrun. }
  destruct (expired kvRes (clock w)) eqn:Hexp.
  2:{ exists (Some (returned kvRes)), ss1, w.
      split; [|split; [done|]; split; [apply touches_only_refl|done]].
      eapply try_catch_return. erewrite bind_return by exact Hrun.
      unfold bind, Date_now. unfold expired in Hexp. by rewrite Hexp. }
  set (request := refresh_request (s_env ss1) (s_refreshToken kvRes)).
  destruct (granted (refresh_reply (s_env ss1) (s_refreshToken kvRes) w))
    as [tokens|] eqn:Hgrant.
  - destruct (updateSession_run sessionId
                (refreshed kvRes tokens (clock w / 1000)) ss1
                (add_request request w) s Hr1) as (ss2 & Hupd & Hl2).
    eexists _, ss2, _. split.
    { eapply try_catch_return. erewrite bind_return by exact Hrun.
      unfold bind at 1. unfold Date_now at 1.
      unfold expired in Hexp. rewrite Hexp.
      eapply try_catch_return.
      unfold bind at 1. unfold this at 1.
      erewrite bind_return by (by apply refreshAccessToken_granted).
      by erewrite bind_return by exact Hupd. }
    split; [by eapply later_trans|]. split; [|done].
    split; [|split; [done|]; split; [done|]; right; by exists request].
    intros other Hne. unfold written. simpl. by rewrite lookup_insert_ne.
  - destruct (refreshAccessToken_refused _ _ ss1 w Hgrant) as (e & Hthrow).
    destruct (deleteSession_run sessionId ss1 (add_request request w) s Hr1)
      as (ss2 & Hdel & Hl2).
    eexists _, ss2, _. split.
    { eapply try_catch_return. erewrite bind_return by exact Hrun.
      unfold bind at 1. unfold Date_now at 1.
      unfold expired in Hexp. rewrite Hexp.
      erewrite try_catch_throw.
      2:{ unfold bind at 1. unfold this at 1.
          by erewrite bind_throw by exact Hthrow. }
      by erewrite bind_return by exact Hdel. }
    split; [by eapply later_trans|]. split; [|done].
    split; [|split; [done|]; split; [done|]; right; by exists request].
    intros other Hne. simpl. by rewrite lookup_delete_ne.
Qed.

(** X18.  [getSession] never throws on a service that was constructed,
    whatever the namespace holds and whatever the provider answers; it
    sends at most one request to the provider, and it writes to the
    entry of the session only: every other key, the index of the user
    also when the session is purged, is left as it was.  When the
    namespace has no readable entry for the session the answer is
    not-found and nothing happens at all. *)
Theorem getSession_never_throws_and_stays_local (s sessionId : string)
    (ss : SessionService) (w : World) :
  ready ss s →
  ∃ r ss' w',
    getSession sessionId ss w = (Return r, ss', w')
    ∧ later ss ss'
    ∧ (∀ other, other ≠ sessionId →
         store w' !! ("session:" +:+ other) = store w !! ("session:" +:+ other))
    ∧ (∀ user,
         store w' !! ("user_session:" +:+ user)
         = store w !! ("user_session:" +:+ user))
    ∧ (∀ state,
         store w' !! ("auth_state:" +:+ state) = store w !! ("auth_state:" +:+ state))
    ∧ cookies w' = cookies w
    ∧ (requests w' = requests w ∨ ∃ request, requests w' = requests w ++ [request])
    ∧ (read w ("session:" +:+ sessionId) = None → r = None ∧ w' = w).
Proof.
  intros Hr.
  destruct (getSession_local s sessionId ss w Hr)
    as (r & ss' & w' & Hrun & Hl & (Hother & _ & Hcookies & Hrequests) & Hmissing).
  exists r, ss', w'. split; [exact Hrun|]. split; [exact Hl|].
  split; [|split; [|split]].
  - intros other Hne. apply Hother. intros Heq. by apply Hne, session_key_inj.
  - intros user. apply Hother. apply not_eq_sym, session_user_key_ne.
  - intros state. apply Hother. discriminate.
  - split; [exact Hcookies|]. split; [exact Hrequests|exact Hmissing].
Qed.

(** X19.  [refreshTokens] when nothing is refreshed.  Without a readable
    record the answer is not-found and the provider is not asked.  With
    a record and a refresh that the provider refuses, or that fails,
    the answer is not-found as well, but the record stays in the
    namespace: the manual refresh does not purge, unlike the refresh of
    [getSession]. *)
Theorem refreshTokens_failure_keeps_the_record (s sessionId : string)
    (ss : SessionService) (w : World) :
  ready ss s →
  (read w ("session:" +:+ sessionId) = None →
   ∃ ss', refreshTokens sessionId ss w = (Return None, ss', w))
  ∧ (∀ session,
       AEAD_correct → json_ok session →
       stored_session w s sessionId session →
       granted (refresh_reply (s_env ss) (s_refreshToken session) w) = None →
       ∃ ss',
         refreshTokens sessionId ss w
         = (Return None, ss',
            add_request (refresh_request (s_env ss) (s_refreshToken session)) w)
         ∧ stored_session
             (add_request (refresh_request (s_env ss) (s_refreshToken session)) w)
             s sessionId session).
Proof.
  intros Hr. split.
  - intros Hread.
    destruct (kvs_get_missing (T:=StoredSession) _ ss w s Hr Hread)
      as (ss' & Hrun & _).
    exists ss'. unfold refreshTokens. by erewrite bind_return by exact Hrun.
  - intros session Haead Hv (iv & Hread) Hgrant.
    destruct (kvs_get_sealed _ iv session ss w s Haead Hr Hv Hread)
      as (ss1 & Hrun & [Henv _]).
    rewrite <- Henv in Hgrant |- *.
    destruct (refreshAccessToken_refused _ _ ss1 w Hgrant) as (e & Hthrow).
    exists ss1. split; [|by exists iv].
    unfold refreshTokens. erewrite bind_return by exact Hrun.
    cbv beta iota. erewrite try_catch_throw; [reflexivity|].
    unfold bind at 1. unfold this at 1.
    by erewrite bind_throw by exact Hthrow.
Qed.

(** X23.  A session written by [createUserSession] is read back whole
    by [getSession], by any service with the same secret, while its
    entries are readable and its own expiry has not passed by a whole
    second: the user, the access token and the refresh token as
    written, the expiry (an integer below 2^53 in magnitude) cut to the
    second, and the index answers the identifier.  An expiry that is
    not a number (the provider gave no lifetime) is stored as [null]
    and read as 0: such a session never counts as expired.  (Once the
    expiry has passed, the read refreshes or purges the session
    instead.) *)
Theorem created_session_reads_back (s sessionId user : string)
    (data : SessionData) (writer reader : SessionService) (w : World) (t : Z) :
  AEAD_correct → ready writer s → ready reader s →
  json_ok (stored data) → json_ok sessionId →
  (∀ x, expiresAt data = Num x → safe_integer x) →
  t / 1000 < clock w / 1000 + thirty_days →
  expired (stored data) t = false →
  ∃ writer' w' reader1 reader2,
    createUserSession sessionId user data writer w = (Return tt, writer', w')
    ∧ getSession sessionId reader (set_clock t w')
      = (Return (Some {| userId := userId data;
                         accessToken := accessToken data;
                         refreshToken := refreshToken data;
                         expiresAt := match expiresAt data with
                                      | Num x => Num (1000 * (x / 1000))
                                      | NaN => Num 0
                                      end |}),
         reader1, set_clock t w')
    ∧ getUserSessionId user reader (set_clock t w')
      = (Return (Some sessionId), reader2, set_clock t w')
    ∧ (expired (stored data) t = false
       ↔ ∀ x, expiresAt data = Num x → x / 1000 = 0 ∨ t / 1000 ≤ x / 1000)
    ∧ (expiresAt data = NaN → ∀ t', expired (stored data) t' = false).
Proof.
  intros Haead Hw Hrd Hjson Hid Hsafe Hlive Hexp.
  destruct (getUserSessionId_total user writer w s Hw)
    as (existing & ss1 & Hindex & Hl1).
  destruct (createUserSession_run sessionId user data writer w s existing ss1
              Hw Hindex Hl1) as (writer' & Hcreate & _).
  set (w' := created s existing sessionId user data w) in *.
  destruct (read_session_created s existing sessionId user data w t Hlive)
    as (iv & Hread).
  destruct (getSession_current sessionId iv (stored data) reader
              (set_clock t w') s Haead Hrd Hjson Hread Hexp)
    as (reader1 & Hget & _).
  destruct (getUserSessionId_sealed user
              (fresh (written s ("session:" +:+ sessionId) (stored data)
                        (expiry_of w) (cleaned existing sessionId w)) 12)
              sessionId reader (set_clock t w') s Haead Hrd Hid)
    as (reader2 & Huser & _).
  { rewrite read_set_clock. unfold w'. rewrite created_index, live_expiry.
    by apply Z.ltb_lt in Hlive as ->. }
  exists writer', w', reader1, reader2.
  split; [exact Hcreate|]. split.
  - rewrite Hget. unfold returned, stored. simpl.
    destruct (expiresAt data) as [x|]; simpl; [|done].
    by rewrite (Z.mul_comm (x / 1000)).
  - split; [exact Huser|]. split.
    + unfold expired, stored. simpl.
      destruct (expiresAt data) as [x|]; simpl.
      * rewrite andb_false_iff, negb_false_iff, Z.eqb_eq, Z.ltb_ge. split.
        { intros Hx y [= <-]. exact Hx. }
        { intros Hx. by apply Hx. }
      * split; [by intros _ x|done].
    + intros Hnan t'. unfold expired, stored. by rewrite Hnan.
Qed.

End sessions.

Import Sample SessionRuns.

Lemma getSession_never_throws_and_stays_local_witness :
  let w := after_create (stale "rt-unknown") in
  ∃ r ss' w',
    getSession "sid" service w = (Return r, ss', w')
    ∧ later service ss'
    ∧ (∀ other, other ≠ "sid" →
         store w' !! ("session:" +:+ other) = store w !! ("session:" +:+ other))
    ∧ (∀ user,
         store w' !! ("user_session:" +:+ user)
         = store w !! ("user_session:" +:+ user))
    ∧ (∀ state,
         store w' !! ("auth_state:" +:+ state) = store w !! ("auth_state:" +:+ state))
    ∧ cookies w' = cookies w
    ∧ (requests w' = requests w ∨ ∃ request, requests w' = requests w ++ [request])
    ∧ (read w ("session:" +:+ "sid") = None → r = None ∧ w' = w).
Proof.
  exact (getSession_never_throws_and_stays_local "k1" "sid" service
           (after_create (stale "rt-unknown")) service_ready).
Defined.

Lemma refreshTokens_failure_keeps_the_record_witness :
  let asked :=
    add_request (refresh_request bindings (Some "rt-unknown"))
      (after_create (stale "rt-unknown")) in
  ∃ ss',
    refreshTokens "sid" service (after_create (stale "rt-unknown"))
    = (Return None, ss', asked)
    ∧ stored_session asked "k1" "sid" (stored (stale "rt-unknown")).
Proof.
  exact (proj2 (refreshTokens_failure_keeps_the_record "k1" "sid" service
                  (after_create (stale "rt-unknown")) service_ready)
           (stored (stale "rt-unknown")) sample_AEAD_correct eq_refl
           (after_create_stored _) eq_refl).
Defined.

Lemma created_session_reads_back_witness :
  let data := session "rt-keep" 1700000000500 in
  ∃ writer' w' reader1 reader2,
    createUserSession "sid" "u" data service (world_at noon) = (Return tt, writer', w')
    ∧ getSession "sid" service (set_clock (noon + 5000) w')
      = (Return (Some {| userId := "u"; accessToken := "at";
                         refreshToken := Some "rt-keep";
                         expiresAt := Num (1000 * (1700000000500 / 1000)) |}),
         reader1, set_clock (noon + 5000) w')
    ∧ getUserSessionId "u" service (set_clock (noon + 5000) w')
      = (Return (Some "sid"), reader2, set_clock (noon + 5000) w')
    ∧ (expired (stored data) (noon + 5000) = false
       ↔ ∀ x, expiresAt data = Num x → x / 1000 = 0 ∨ (noon + 5000) / 1000 ≤ x / 1000)
    ∧ (expiresAt data = NaN → ∀ t', expired (stored data) t' = false).
Proof.
  assert (Hsafe : ∀ x, expiresAt (session "rt-keep" 1700000000500) = Num x →
                       safe_integer x).
  { intros x [= <-]. unfold safe_integer. lia. }
  exact (created_session_reads_back "k1" "sid" "u"
           (session "rt-keep" 1700000000500) service service (world_at noon)
           (noon + 5000) sample_AEAD_correct service_ready service_ready
           eq_refl eq_refl Hsafe eq_refl eq_refl).
Defined.

(** The manual refresh that the provider refuses leaves the record; the
    read of the same record purges it. *)
Example refused_refresh_purges_on_read_only :
  ∃ ss1 w1 ss2 w2,
    refreshTokens "sid" service (after_create (stale "rt-unknown"))
      = (Return None, ss1, w1)
    ∧ is_Some (store w1 !! "session:sid")
    ∧ getSession "sid" service (after_create (stale "rt-unknown"))
      = (Return None, ss2, w2)
    ∧ store w2 !! "session:sid" = None.
Proof.
  eexists _, _, _, _. split; [vm_compute; reflexivity|].
  split; [vm_compute; by eexists|]. split; [vm_compute; reflexivity|].
  vm_compute. reflexivity.
Qed.

End SessionExtras.

(** ** The callback handler and the logout route *)

Module RouteExtras.
Import JS Data World Monad MonadFacts KV KVFacts Session SessionFacts.
Import Auth AuthFacts StoreClaims SessionClaims SessionExtras.
Import Callback Routes AuthRoutes.

Section routes.
Context `{Platform}.

Lemma session_new_ready ns sec env :
  sec ≠ EmptyString →
  ∃ ss, Session.new (Some ns) (Some sec) env = Return ss
        ∧ ready ss sec ∧ s_env ss = env.
Proof.
  intros Hsec.
  assert (Hnew : ∃ ss, Session.new (Some ns) (Some sec) env = Return ss).
  { unfold Session.new, KV.new, secret_of, truthy_string.
    apply String.eqb_neq in Hsec as ->. simpl. by eexists. }
  destruct Hnew as (ss & Hnew). exists ss. split; [done|].
  by destruct (new_ready _ _ _ _ Hnew) as (? & ? & _).
Qed.

Lemma session_new_without_secret ns o env :
  truthy_opt o = false → Session.new ns o env = Throw missing_secret_error.
Proof.
  intros Ho. unfold Session.new, KV.new, secret_of.
  destruct o as [sec|]; simpl in *; [by rewrite Ho|done].
Qed.

Lemma processAuthCallback_returns {S} c (s s' : S) w w' tokens :
  processAuthCallback c s w = (Return tokens, s', w') →
  truthy_opt (query_error c) = false ∧ truthy_opt (query_code c) = true.
Proof.
  unfold processAuthCallback.
  destruct (truthy_opt (query_error c)); [done|].
  by destruct (truthy_opt (query_code c)).
Qed.

Lemma processAuthCallback_needs_namespace {S} c (s s' : S) w w' tokens :
  processAuthCallback c s w = (Return tokens, s', w') →
  is_Some (SESSIONS_KV (env c)).
Proof.
  unfold processAuthCallback.
  destruct (truthy_opt (query_error c)); [done|].
  destruct (truthy_opt (query_code c)); [|done].
  destruct (truthy_opt (query_state c)); [|done]. cbn [negb].
  destruct (SESSIONS_KV (env c)); [by eexists|done].
Qed.

Lemma deleteUserSession_run userId ss w s :
  ready ss s →
  ∃ ss', deleteUserSession userId ss w =
           (Return tt, ss', set_store (base.delete ("user_session:" +:+ userId)) w)
         ∧ later ss ss'.
Proof.
  intros Hr. pose proof Hr as (Hkv & Hs & Hok). eexists. split.
  - unfold deleteUserSession. eapply try_catch_return.
    apply kvs_run. by apply delete_run.
  - apply later_set. by apply cached_refl.
Qed.

(** The cookie that carries the session identifier. *)
Definition session_cookie (sessionId secret : string) : Cookie :=
  {| cookie_name := "__Secure-session_id"; cookie_value := sessionId;
     cookie_secret := secret; cookie_maxAge := 60 * 60 * 24 * 30 |}.

(** The record that the handler writes for the tokens granted at the
    time of [w]. *)
Definition granted_session (userId : string) (tokens : TokenResponse)
    (w : World) : SessionData :=
  {| userId := userId;
     accessToken := access_token tokens;
     refreshToken := refresh_token tokens;
     expiresAt := expiry (clock w) tokens |}.

(** X20.  What [handleOAuthCallback] installs once the code was
    exchanged and the identity token names a subject.  For a user
    without an entry in the index, a session under a fresh random UUID,
    with its index entry.  For a user whose index entry names a
    session, that identifier again: the record is written anew under
    it, no UUID is drawn and the index entry is not written again.  In
    both cases the cookie carries the identifier with a life of thirty
    days, and the route answers with the redirect to the plugin page. *)
Theorem callback_installs_or_renews_the_session (c : Context) (w w1 : World)
    (tokens : TokenResponse) (payload : IdTokenPayload)
    (ns : KVNamespace) (sec : string) :
  processAuthCallback c tt w = (Return tokens, tt, w1) →
  access_token tokens ≠ EmptyString →
  decodeJwtPayload (id_token tokens) tt w1 = (Return (Some payload), tt, w1) →
  SESSIONS_KV (env c) = Some ns →
  SESSION_ENC_SECRET (env c) = Some sec → sec ≠ EmptyString →
  AEAD_correct →
  let data := granted_session (sub payload) tokens w1 in
  let index := "user_session:" +:+ sub payload in
  (read w1 index = None →
   let sessionId := uuid_of (map random_byte (seq (drawn w1) 16)) in
   let w2 :=
     add_cookie (session_cookie sessionId sec)
       (created sec None sessionId (sub payload) data
          (set_drawn (drawn w1 + 16) w1)) in
   handleOAuthCallback c tt w = (Return sessionId, tt, w2)
   ∧ Routes.callback c tt w = (Return (Redirect "/callback/plugin"), tt, w2))
  ∧ (∀ existing iv,
       existing ≠ EmptyString → json_ok existing →
       read w1 index = Some (sealed sec iv (JSON_stringify existing)) →
       let w2 :=
         add_cookie (session_cookie existing sec)
           (written sec ("session:" +:+ existing) (stored data) (expiry_of w1) w1) in
       handleOAuthCallback c tt w = (Return existing, tt, w2)
       ∧ Routes.callback c tt w = (Return (Redirect "/callback/plugin"), tt, w2)
       ∧ drawn w2 = (drawn w1 + 12)%nat
       ∧ store w2 !! index = store w1 !! index).
Proof.
  intros Hproc Hat Hid Hns Hsec Hne Haead data index.
  destruct (processAuthCallback_returns _ _ _ _ _ _ Hproc) as [Herr Hcode].
  destruct (session_new_ready ns sec (env c) Hne) as (ss & Hnew & Hr & Henv).
  assert (Hroute : ∀ sessionId w2,
            handleOAuthCallback c tt w = (Return sessionId, tt, w2) →
            Routes.callback c tt w = (Return (Redirect "/callback/plugin"), tt, w2)).
  { intros sessionId w2 Hrun. unfold Routes.callback. rewrite Herr, Hcode. simpl.
    eapply try_catch_return. by erewrite bind_return by exact Hrun. }
  assert (Hhead : ∀ (body : M SessionService string) sessionId ss' w2,
            body ss w1 = (Return sessionId, ss', w2) →
            bind (with_object ss body)
              (λ sessionId,
                 bind (setSignedCookie "__Secure-session_id" sessionId
                         (to_string (SESSION_ENC_SECRET (env c)))
                         (60 * 60 * 24 * 30))
                      (λ _, ret sessionId)) tt w1
            = (Return sessionId, tt, add_cookie (session_cookie sessionId sec) w2)).
  { intros body sessionId ss' w2 Hbody.
    erewrite bind_return by (eapply with_object_run; exact Hbody).
    by rewrite Hsec. }
  assert (Hopen : ∀ r,
            bind (with_object ss
                    (bind (getUserSessionId (sub payload))
                       (λ existingSessionId,
                          if truthy_opt existingSessionId then
                            let sessionId := to_string existingSessionId in
                            bind Date_now (λ now,
                              bind (updateSession sessionId
                                      {| userId := sub payload;
                                         accessToken := access_token tokens;
                                         refreshToken := refresh_token tokens;
                                         expiresAt := expiry now tokens |})
                                   (λ _, ret sessionId))
                          else
                            bind randomUUID (λ sessionId,
                              bind Date_now (λ now,
                                bind (createUserSession sessionId (sub payload)
                                        {| userId := sub payload;
                                           accessToken := access_token tokens;
                                           refreshToken := refresh_token tokens;
                                           expiresAt := expiry now tokens |})
                                     (λ _, ret sessionId))))))
              (λ sessionId,
                 bind (setSignedCookie "__Secure-session_id" sessionId
                         (to_string (SESSION_ENC_SECRET (env c)))
                         (60 * 60 * 24 * 30))
                      (λ _, ret sessionId)) tt w1 = r →
            handleOAuthCallback c tt w = r).
  { intros r <-. unfold handleOAuthCallback.
    erewrite bind_return by exact Hproc.
    assert (Hat' : truthy_string (access_token tokens) = true)
      by (unfold truthy_string; by apply String.eqb_neq in Hat as ->).
    rewrite Hat'. cbn [negb].
    erewrite bind_return by exact Hid.
    cbv beta iota. rewrite Hns.
    assert (Hsec' : truthy_opt (SESSION_ENC_SECRET (env c)) = true).
    { rewrite Hsec. unfold truthy_opt, truthy_string.
      by apply String.eqb_neq in Hne as ->. }
    rewrite Hsec'. cbn [negb].
    rewrite <- Hsec in Hnew.
    unfold bind at 1. unfold lift at 1. by rewrite Hnew. }
  split.
  - intros Hread sessionId w2.
    assert (Hrun : handleOAuthCallback c tt w = (Return sessionId, tt, w2)).
    { apply Hopen.
      destruct (getUserSessionId_missing (sub payload) ss w1 sec Hr Hread)
        as (ss1 & Hindex & Hl1).
      pose proof (later_ready _ _ _ Hr Hl1) as Hr1.
      destruct (getUserSessionId_missing (sub payload) ss1
                  (set_drawn (drawn w1 + 16) w1) sec Hr1 Hread)
        as (ss2 & Hindex2 & Hl2).
      destruct (createUserSession_run sessionId (sub payload) data ss1
                  (set_drawn (drawn w1 + 16) w1) sec None ss2 Hr1 Hindex2 Hl2)
        as (ss3 & Hcreate & _).
      eapply Hhead.
      erewrite bind_return by exact Hindex. cbn [truthy_opt].
      unfold bind at 1. unfold randomUUID at 1.
      unfold bind at 1. unfold Date_now at 1.
      erewrite bind_return by exact Hcreate. reflexivity. }
    split; [exact Hrun|by eapply Hroute].
  - intros existing iv Hex Hjson Hread w2.
    assert (Hrun : handleOAuthCallback c tt w = (Return existing, tt, w2)).
    { apply Hopen.
      destruct (getUserSessionId_sealed (sub payload) iv existing ss w1 sec
                  Haead Hr Hjson Hread) as (ss1 & Hindex & Hl1).
      pose proof (later_ready _ _ _ Hr Hl1) as Hr1.
      destruct (updateSession_run existing data ss1 w1 sec Hr1)
        as (ss2 & Hupd & _).
      eapply Hhead.
      erewrite bind_return by exact Hindex.
      cbn [truthy_opt to_string]. unfold truthy_string.
      apply String.eqb_neq in Hex as ->. cbn [negb].
      unfold bind at 1. unfold Date_now at 1.
      erewrite bind_return by exact Hupd. reflexivity. }
    split; [exact Hrun|]. split; [by eapply Hroute|]. split; [reflexivity|].
    unfold w2, written. cbn [add_cookie set_store store set_drawn].
    apply lookup_insert_ne. discriminate.
Qed.

(** X21.  A deployment without the session secret.  The login still
    works (the state is kept unencrypted), and the callback consumes the
    state and exchanges the code; only then does [handleOAuthCallback]
    throw, and the route answers with status 500: the world keeps the
    effects of the exchange, and no session and no cookie are made. *)
Theorem callback_without_secret_fails_after_the_exchange (c : Context)
    (w w1 : World) (tokens : TokenResponse) (payload : IdTokenPayload) :
  processAuthCallback c tt w = (Return tokens, tt, w1) →
  access_token tokens ≠ EmptyString →
  decodeJwtPayload (id_token tokens) tt w1 = (Return (Some payload), tt, w1) →
  truthy_opt (SESSION_ENC_SECRET (env c)) = false →
  handleOAuthCallback c tt w = (Throw "SESSION_ENC_SECRET required", tt, w1)
  ∧ Routes.callback c tt w
    = (Return (Text "Error during authentication: SESSION_ENC_SECRET required" 500),
       tt, w1).
Proof.
  intros Hproc Hat Hid Hsec.
  destruct (processAuthCallback_returns _ _ _ _ _ _ Hproc) as [Herr Hcode].
  destruct (processAuthCallback_needs_namespace _ _ _ _ _ _ Hproc) as [ns Hns].
  assert (Hrun : handleOAuthCallback c tt w
                 = (Throw "SESSION_ENC_SECRET required", tt, w1)).
  { unfold handleOAuthCallback.
    erewrite bind_return by exact Hproc.
    assert (Hat' : truthy_string (access_token tokens) = true)
      by (unfold truthy_string; by apply String.eqb_neq in Hat as ->).
    rewrite Hat'. cbn [negb].
    erewrite bind_return by exact Hid.
    cbv beta iota. by rewrite Hns, Hsec. }
  split; [exact Hrun|].
  unfold Routes.callback. rewrite Herr, Hcode. simpl.
  erewrite try_catch_throw; [reflexivity|].
  by erewrite bind_throw by exact Hrun.
Qed.

(** The cookie that [deleteCookie] sets. *)
Definition cleared_cookie : Cookie :=
  {| cookie_name := "__Secure-session_id"; cookie_value := EmptyString;
     cookie_secret := EmptyString; cookie_maxAge := 0 |}.

(** X22.  The logout route.  Without a signed cookie, or without the
    namespace, it clears the cookie and redirects to the root.  With a
    cookie, the namespace and the session secret it does not throw
    either, whatever the namespace holds and the provider answers: it
    ends with the redirect, the cookie cleared and no entry for the
    session; when the session is found current, the entry of its user
    in the index is deleted as well; when it is not found, only the
    entry of the session is deleted.  With a cookie and the namespace
    but no session secret the route throws the error of the
    constructor of the session store: nothing is deleted and the cookie
    is not cleared. *)
Theorem logout_clears_the_session (c : Context) (signed : option string)
    (w : World) :
  (SESSIONS_KV (env c) = None ∨ truthy_opt signed = false →
   logout c signed tt w = (Return (Redirect "/"), tt, add_cookie cleared_cookie w))
  ∧ (∀ ns sec sessionId,
       SESSIONS_KV (env c) = Some ns →
       SESSION_ENC_SECRET (env c) = Some sec → sec ≠ EmptyString →
       signed = Some sessionId → sessionId ≠ EmptyString →
       ∃ w',
         logout c signed tt w = (Return (Redirect "/"), tt, w')
         ∧ store w' !! ("session:" +:+ sessionId) = None
         ∧ cookies w' = cookies w ++ [cleared_cookie]
         ∧ (read w ("session:" +:+ sessionId) = None →
            w' = add_cookie cleared_cookie
                   (set_store (base.delete ("session:" +:+ sessionId)) w))
         ∧ (∀ kvRes,
              AEAD_correct → json_ok kvRes →
              stored_session w sec sessionId kvRes →
              expired kvRes (clock w) = false →
              w' = add_cookie cleared_cookie
                     (set_store (base.delete ("session:" +:+ sessionId))
                        (set_store
                           (base.delete ("user_session:" +:+ s_userId kvRes)) w))
              ∧ store w' !! ("user_session:" +:+ s_userId kvRes) = None))
  ∧ (is_Some (SESSIONS_KV (env c)) → truthy_opt signed = true →
     truthy_opt (SESSION_ENC_SECRET (env c)) = false →
     logout c signed tt w = (Throw missing_secret_error, tt, w)).
Proof.
  split; [|split].
  3:{ intros [ns Hns] Hsigned Hsec. unfold logout. rewrite Hns, Hsigned.
      eapply bind_throw. eapply bind_throw. unfold lift.
      by rewrite session_new_without_secret. }
  - intros Hcase. unfold logout.
    destruct (SESSIONS_KV (env c)) as [ns|]; [|done].
    destruct Hcase as [?| ->]; done.
  - intros ns sec sessionId Hns Hsec Hne -> Hid.
    destruct (session_new_ready ns sec (env c) Hne) as (ss & Hnew & Hr & Henv).
    rewrite <- Hsec in Hnew.
    destruct (getSession_local sec sessionId ss w Hr)
      as (r & ss1 & w1 & Hget & Hl1 & (Hother & _ & Hcookies & _) & Hmissing).
    pose proof (later_ready _ _ _ Hr Hl1) as Hr1.
    assert (∃ ss2 w2,
              (match r with
               | Some session => deleteUserSession (userId session)
               | None => ret tt
               end) ss1 w1 = (Return tt, ss2, w2)
              ∧ later ss1 ss2 ∧ cookies w2 = cookies w1
              ∧ w2 = match r with
                     | Some session =>
                         set_store
                           (base.delete ("user_session:" +:+ userId session)) w1
                     | None => w1
                     end) as (ss2 & w2 & Hindex & Hl2 & Hcookies2 & Hw2).
    { destruct r as [session|].
      - destruct (deleteUserSession_run (userId session) ss1 w1 sec Hr1)
          as (ss2 & Hrun & Hl2).
        by eexists _, _.
      - exists ss1, w1. repeat split; try done. by eapply later_refl. }
    pose proof (later_ready _ _ _ Hr1 Hl2) as Hr2.
    destruct (deleteSession_run sessionId ss2 w2 sec Hr2) as (ss3 & Hdel & _).
    assert (Hrun : logout c (Some sessionId) tt w
                   = (Return (Redirect "/"), tt,
                      add_cookie cleared_cookie
                        (set_store (base.delete ("session:" +:+ sessionId)) w2))).
    { unfold logout. rewrite Hns.
      assert (Hid' : truthy_opt (Some sessionId) = true).
      { unfold truthy_opt, truthy_string. by apply String.eqb_neq in Hid as ->. }
      rewrite Hid'.
      erewrite bind_return; [reflexivity|].
      unfold bind at 1. unfold lift at 1. rewrite Hnew.
      eapply with_object_run.
      erewrite bind_return by exact Hget.
      erewrite bind_return by exact Hindex.
      exact Hdel. }
    eexists. split; [exact Hrun|].
    split; [simpl; apply lookup_delete_eq|].
    split; [simpl; by rewrite Hcookies2, Hcookies|].
    split.
    + intros Hread. destruct (Hmissing Hread) as [-> ->]. by subst w2.
    + intros kvRes Haead Hjson (iv & Hread) Hexp.
      destruct (getSession_current sessionId iv kvRes ss w sec)
        as (ss' & Hcur & _); try done.
      rewrite Hcur in Hget. injection Hget as <- _ <-. subst w2.
      split; [reflexivity|]. simpl.
      rewrite lookup_delete_ne by (by apply session_user_key_ne).
      apply lookup_delete_eq.
Qed.

End routes.

Import Sample AuthClaims SessionRuns.

(** The tokens that the sample provider grants for the code. *)
Definition first_tokens : TokenResponse :=
  {| access_token := "at-first";
     id_token := identity_token "user-1";
     refresh_token := Some "rt-rotate";
     expires_in := Some 3600;
     token_type := "Bearer" |}.

(** The world after the code of the first login was exchanged. *)
Definition exchanged : World :=
  (processAuthCallback (request (Some "code-ok") (Some "S1")) tt login_started).2.

(** The world after the first login was completed and a second one was
    started, under the state S2. *)
Definition second_login : World :=
  (KV.put ("auth_state:" +:+ "S2") {| codeVerifier := "verifier" |}
     (Some (noon / 1000 + 600)) (state_store bindings)
     (Routes.callback (request (Some "code-ok") (Some "S1")) tt login_started).2).2.

Definition second_exchanged : World :=
  (processAuthCallback (request (Some "code-ok") (Some "S2")) tt second_login).2.

(** The identifier drawn for the first session. *)
Definition first_id : string := uuid_of (map random_byte (seq 12 16)).

Lemma callback_installs_or_renews_the_session_witness :
  (let data := granted_session "user-1" first_tokens exchanged in
   let w2 :=
     add_cookie (session_cookie first_id "k1")
       (created "k1" None first_id "user-1" data
          (set_drawn (drawn exchanged + 16) exchanged)) in
   handleOAuthCallback (request (Some "code-ok") (Some "S1")) tt login_started
     = (Return first_id, tt, w2)
   ∧ Routes.callback (request (Some "code-ok") (Some "S1")) tt login_started
     = (Return (Redirect "/callback/plugin"), tt, w2))
  ∧ (let data := granted_session "user-1" first_tokens second_exchanged in
     let w2 :=
       add_cookie (session_cookie first_id "k1")
         (written "k1" ("session:" +:+ first_id) (stored data)
            (expiry_of second_exchanged) second_exchanged) in
     handleOAuthCallback (request (Some "code-ok") (Some "S2")) tt second_login
       = (Return first_id, tt, w2)
     ∧ Routes.callback (request (Some "code-ok") (Some "S2")) tt second_login
       = (Return (Redirect "/callback/plugin"), tt, w2)
     ∧ drawn w2 = (drawn second_exchanged + 12)%nat
     ∧ store w2 !! ("user_session:" +:+ "user-1")
       = store second_exchanged !! ("user_session:" +:+ "user-1")).
Proof.
  assert (Hk1 : "k1" ≠ EmptyString) by discriminate.
  assert (Hat : "at-first" ≠ EmptyString) by discriminate.
  assert (Hid : first_id ≠ EmptyString) by (vm_compute; discriminate).
  assert (Hproc1 : processAuthCallback (request (Some "code-ok") (Some "S1")) tt
                     login_started = (Return first_tokens, tt, exchanged))
    by (vm_compute; reflexivity).
  assert (Hproc2 : processAuthCallback (request (Some "code-ok") (Some "S2")) tt
                     second_login = (Return first_tokens, tt, second_exchanged))
    by (vm_compute; reflexivity).
  assert (Hdec1 : decodeJwtPayload (id_token first_tokens) tt exchanged
                  = (Return (Some {| sub := "user-1" |}), tt, exchanged))
    by (vm_compute; reflexivity).
  assert (Hdec2 : decodeJwtPayload (id_token first_tokens) tt second_exchanged
                  = (Return (Some {| sub := "user-1" |}), tt, second_exchanged))
    by (vm_compute; reflexivity).
  assert (Hnew : read exchanged ("user_session:" +:+ "user-1") = None)
    by (vm_compute; reflexivity).
  assert (Hjson : json_ok first_id) by (vm_compute; reflexivity).
  assert (Hread : read second_exchanged ("user_session:" +:+ "user-1")
                  = Some (sealed "k1" (map random_byte (seq 40 12))
                            (JSON_stringify first_id)))
    by (vm_compute; reflexivity).
  split.
  - exact (proj1 (callback_installs_or_renews_the_session
                    (request (Some "code-ok") (Some "S1")) login_started exchanged
                    first_tokens {| sub := "user-1" |} SESSIONS_KV_namespace "k1"
                    Hproc1 Hat Hdec1 eq_refl eq_refl Hk1 sample_AEAD_correct)
             Hnew).
  - exact (proj2 (callback_installs_or_renews_the_session
                    (request (Some "code-ok") (Some "S2")) second_login
                    second_exchanged
                    first_tokens {| sub := "user-1" |} SESSIONS_KV_namespace "k1"
                    Hproc2 Hat Hdec2 eq_refl eq_refl Hk1 sample_AEAD_correct)
             first_id (map random_byte (seq 40 12)) Hid Hjson Hread).
Defined.

(** The sample deployment without the session secret. *)
Definition bare : Bindings :=
  {| CLIENT_ID := "client"; CLIENT_SECRET := "hush";
     REDIRECT_URI := "https://app.example/callback";
     ENV_URI := "https://idp.example";
     SESSION_ENC_SECRET := None;
     SESSIONS_KV := Some SESSIONS_KV_namespace |}.

Definition bare_request : Context :=
  {| query_code := Some "code-ok"; query_error := None;
     query_error_description := None; query_state := Some "S1";
     env := bare |}.

Definition bare_login : World :=
  (KV.put ("auth_state:" +:+ "S1") {| codeVerifier := "verifier" |}
     (Some (noon / 1000 + 600)) (state_store bare) (world_at noon)).2.

Definition bare_exchanged : World :=
  (processAuthCallback bare_request tt bare_login).2.

Lemma callback_without_secret_fails_after_the_exchange_witness :
  handleOAuthCallback bare_request tt bare_login
    = (Throw "SESSION_ENC_SECRET required", tt, bare_exchanged)
  ∧ Routes.callback bare_request tt bare_login
    = (Return (Text "Error during authentication: SESSION_ENC_SECRET required" 500),
       tt, bare_exchanged)
  ∧ store bare_exchanged !! ("auth_state:" +:+ "S1") = None
  ∧ length (requests bare_exchanged) = 1%nat.
Proof.
  assert (Hat : "at-first" ≠ EmptyString) by discriminate.
  assert (Hproc : processAuthCallback bare_request tt bare_login
                  = (Return first_tokens, tt, bare_exchanged))
    by (vm_compute; reflexivity).
  assert (Hdec : decodeJwtPayload (id_token first_tokens) tt bare_exchanged
                 = (Return (Some {| sub := "user-1" |}), tt, bare_exchanged))
    by (vm_compute; reflexivity).
  destruct (callback_without_secret_fails_after_the_exchange
              bare_request bare_login bare_exchanged first_tokens
              {| sub := "user-1" |} Hproc Hat Hdec eq_refl) as [Hrun Hroute].
  split; [exact Hrun|]. split; [exact Hroute|].
  split; vm_compute; reflexivity.
Defined.

(** A session of the user u, current at noon. *)
Definition current : World := after_create (session "rt-keep" (noon + 3600000)).

Lemma logout_clears_the_session_witness :
  logout (request None None) None tt current
    = (Return (Redirect "/"), tt, add_cookie cleared_cookie current)
  ∧ (∃ w',
       logout (request None None) (Some "sid") tt current
         = (Return (Redirect "/"), tt, w')
       ∧ store w' !! ("session:" +:+ "sid") = None
       ∧ cookies w' = cookies current ++ [cleared_cookie]
       ∧ (read current ("session:" +:+ "sid") = None →
          w' = add_cookie cleared_cookie
                 (set_store (base.delete ("session:" +:+ "sid")) current))
       ∧ (∀ kvRes,
            AEAD_correct → json_ok kvRes →
            stored_session current "k1" "sid" kvRes →
            expired kvRes (clock current) = false →
            w' = add_cookie cleared_cookie
                   (set_store (base.delete ("session:" +:+ "sid"))
                      (set_store
                         (base.delete ("user_session:" +:+ s_userId kvRes)) current))
            ∧ store w' !! ("user_session:" +:+ s_userId kvRes) = None))
  ∧ logout bare_request (Some "sid") tt current
    = (Throw missing_secret_error, tt, current).
Proof.
  assert (Hk1 : "k1" ≠ EmptyString) by discriminate.
  assert (Hsid : "sid" ≠ EmptyString) by discriminate.
  assert (Hns : is_Some (SESSIONS_KV (env bare_request))) by (by eexists).
  split; [|split].
  - exact (proj1 (logout_clears_the_session (request None None) None current)
             (or_intror eq_refl)).
  - exact (proj1 (proj2 (logout_clears_the_session (request None None)
                           (Some "sid") current))
             SESSIONS_KV_namespace "k1" "sid" eq_refl eq_refl Hk1 eq_refl Hsid).
  - exact (proj2 (proj2 (logout_clears_the_session bare_request (Some "sid") current))
             Hns eq_refl eq_refl).
Defined.

End RouteExtras.

